(** * Paperboy: a shallow embedding of [main.go] and its specification

    Paperboy reads a list of feeds, groups the articles by ISO week and
    renders one Markdown document.  This development embeds the program
    ([getURLDomain], [fetchArticles], the grouping loop of [main],
    [generateMarkdown], [main]) together with the parts of the Go standard
    library it calls ([strings], [regexp], [net/url], [time], [fmt],
    [sort], [slices]), and checks the statements of the specification
    against that embedding.

    Conventions.  A Go [string] is a sequence of bytes and is modelled by
    [string] (a list of [ascii], one per byte).  A Go [int] is modelled by
    [Z]; where the library computes on [uint64] the wrap-around is written
    out.  A Go [map[string][]Article] is a [gmap string (list Article)]:
    every bucket owns its backing array, as the buckets built by [append]
    in [main] do. *)

From Stdlib Require Import ZArith Lia List String Ascii Sorting.Sorted Permutation.
From stdpp Require Import base option list gmap strings.

Local Open Scope string_scope.
Local Open Scope Z_scope.
Local Open Scope list_scope.

(** ** Decimal output shared by [fmt] and [time] *)

Module GoStrconv.

Definition digitChar (d : Z) : ascii := ascii_of_N (48 + Z.to_N d).

(** The digit loop of [fmtInteger] of package [fmt] and [time.appendInt]:
    digits are produced from the least significant one and stored from
    the right.  [fuel] bounds the number of divisions. *)
Fixpoint formatBits (fuel : nat) (u : Z) (acc : string) : string :=
  match fuel with
  | O => String (digitChar u) acc
  | S f =>
      if u <? 10 then String (digitChar u) acc
      else formatBits f (u / 10) (String (digitChar (u mod 10)) acc)
  end.

(** Decimal digits of [u >= 0], most significant first, no padding. *)
Definition decimal (u : Z) : string :=
  formatBits (Z.to_nat (Z.log2 u)) u "".

Fixpoint zeros (n : nat) : string :=
  match n with
  | O => ""
  | S k => String "0" (zeros k)
  end.

(** Digits of [u] left-padded with ['0'] to at least [width] digits. *)
Definition padded (width : nat) (u : Z) : string :=
  let ds := decimal u in
  zeros (width - String.length ds) +:+ ds.

End GoStrconv.

(** ** Package [fmt]: the two verbs of the week key *)

Module GoFmt.

(** [%d] *)
Definition verb_d (x : Z) : string :=
  if x <? 0 then "-" +:+ GoStrconv.decimal (- x) else GoStrconv.decimal x.

(** [%02d]: zero padding to width 2; a sign takes one column of the
    width ([fmtInteger]: [prec = f.wid; if negative ... prec--]). *)
Definition verb_02d (x : Z) : string :=
  if x <? 0 then "-" +:+ GoStrconv.padded 1 (- x) else GoStrconv.padded 2 x.

(** [fmt.Sprintf("%d-%02d", year, week)] *)
Definition Sprintf_d_02d (year week : Z) : string :=
  verb_d year +:+ "-" +:+ verb_02d week.

End GoFmt.

(** ** Package [time] (Go 1.22): instants, the calendar and ISO weeks *)

Module GoTime.

Definition secondsPerDay : Z := 86400.
Definition secondsPerWeek : Z := 7 * secondsPerDay.
Definition daysPer400Years : Z := 365 * 400 + 97.
Definition daysPer100Years : Z := 365 * 100 + 24.
Definition daysPer4Years : Z := 365 * 4 + 1.

Definition absoluteZeroYear : Z := -292277022399.
Definition internalYear : Z := 1.
(** [(absoluteZeroYear - internalYear) * 365.2425 * secondsPerDay] *)
Definition absoluteToInternal : Z := (absoluteZeroYear - internalYear) * 31556952.
Definition internalToAbsolute : Z := - absoluteToInternal.
Definition unixToInternal : Z :=
  (1969 * 365 + 1969 / 4 - 1969 / 100 + 1969 / 400) * secondsPerDay.

(** Weekdays and months as the library numbers them. *)
Definition Sunday : Z := 0.
Definition Monday : Z := 1.
Definition Thursday : Z := 4.
Definition February : Z := 2.

(** A [time.Time]: the instant (seconds since the Unix epoch and the
    nanoseconds within that second) and the offset east of UTC, in
    seconds, that its location has at that instant. *)
Record Time : Type := mkTime {
  unixSec : Z;
  nsec : Z;
  zoneOffset : Z
}.

Definition uint64 (x : Z) : Z := x mod 2 ^ 64.

(** [t.UTC()]: the same instant with the location set to UTC. *)
Definition UTC (t : Time) : Time :=
  {| unixSec := unixSec t; nsec := nsec t; zoneOffset := 0 |}.

(** [t.Unix()] *)
Definition Unix (t : Time) : Z := unixSec t.

(** [t.abs()]: seconds since the absolute epoch, in the time's zone. *)
Definition abs (t : Time) : Z :=
  uint64 (unixSec t + zoneOffset t + (unixToInternal + internalToAbsolute)).

(** [absWeekday]: January 1 of the absolute year was a Monday. *)
Definition absWeekday (a : Z) : Z :=
  (uint64 (a + Monday * secondsPerDay) mod secondsPerWeek) / secondsPerDay.

Definition isLeap (year : Z) : bool :=
  (Z.rem year 4 =? 0) && (negb (Z.rem year 100 =? 0) || (Z.rem year 400 =? 0)).

Definition daysBefore : list Z :=
  [0; 31; 31 + 28; 31 + 28 + 31; 31 + 28 + 31 + 30; 31 + 28 + 31 + 30 + 31;
   31 + 28 + 31 + 30 + 31 + 30; 31 + 28 + 31 + 30 + 31 + 30 + 31;
   31 + 28 + 31 + 30 + 31 + 30 + 31 + 31;
   31 + 28 + 31 + 30 + 31 + 30 + 31 + 31 + 30;
   31 + 28 + 31 + 30 + 31 + 30 + 31 + 31 + 30 + 31;
   31 + 28 + 31 + 30 + 31 + 30 + 31 + 31 + 30 + 31 + 30;
   31 + 28 + 31 + 30 + 31 + 30 + 31 + 31 + 30 + 31 + 30 + 31].

(** The first half of [absDate]: the year and the zero-based day of the
    year of an absolute time. *)
Definition absYearDay (a : Z) : Z * Z :=
  let d := a / secondsPerDay in
  (* Account for 400 year cycles. *)
  let n := d / daysPer400Years in
  let y := 400 * n in
  let d := d - daysPer400Years * n in
  (* Cut off 100-year cycles. *)
  let n := d / daysPer100Years in
  let n := n - Z.shiftr n 2 in
  let y := y + 100 * n in
  let d := d - daysPer100Years * n in
  (* Cut off 4-year cycles. *)
  let n := d / daysPer4Years in
  let y := y + 4 * n in
  let d := d - daysPer4Years * n in
  (* Cut off years within a 4-year cycle. *)
  let n := d / 365 in
  let n := n - Z.shiftr n 2 in
  let y := y + n in
  let d := d - 365 * n in
  (y + absoluteZeroYear, d).

(** The second half of [absDate] (taken when [full] is set): the month
    and the day of the month from the year and the day of the year. *)
Definition monthDay (year yday : Z) : Z * Z :=
  let leapDay := isLeap year && (yday =? 31 + 29 - 1) in
  if leapDay then (February, 29)
  else
    let day := if isLeap year && (31 + 29 - 1 <? yday) then yday - 1 else yday in
    let month := day / 31 in
    let fin := nth (Z.to_nat (month + 1)) daysBefore 0 in
    let '(month, begin) :=
      if fin <=? day then (month + 1, fin)
      else (month, nth (Z.to_nat month) daysBefore 0) in
    (month + 1, day - begin + 1).

(** [absDate(abs, true)]: year, month, day, day of the year. *)
Definition absDate (a : Z) : Z * Z * Z * Z :=
  let '(year, yday) := absYearDay a in
  let '(month, day) := monthDay year yday in
  (year, month, day, yday).

(** [t.ISOWeek()] *)
Definition ISOWeek (t : Time) : Z * Z :=
  let a := abs t in
  let d := Thursday - absWeekday a in
  (* handle Sunday *)
  let d := if d =? 4 then -3 else d in
  (* find the Thursday of the calendar week *)
  let a := uint64 (a + uint64 d * secondsPerDay) in
  let '(year, yday) := absYearDay a in
  (year, yday / 7 + 1).

(** [appendInt]: the decimal form of [x], zero-padded to [width]. *)
Definition appendInt (x : Z) (width : nat) : string :=
  if x <? 0 then "-" +:+ GoStrconv.padded width (- x)
  else GoStrconv.padded width x.

(** [t.Format("2006-01-02")]: the layout of the renderer. *)
Definition Format_2006_01_02 (t : Time) : string :=
  let '(year, month, day, _) := absDate (abs t) in
  appendInt year 4 +:+ "-" +:+ appendInt month 2 +:+ "-" +:+ appendInt day 2.

End GoTime.

(** ** Package [strings] *)

Module GoStrings.

(** [s[n:]] and [s[:n]] *)
Fixpoint drop (n : nat) (s : string) : string :=
  match n, s with
  | O, _ => s
  | S k, String _ s' => drop k s'
  | S _, "" => ""
  end.

Fixpoint take (n : nat) (s : string) : string :=
  match n, s with
  | O, _ => ""
  | S k, String c s' => String c (take k s')
  | S _, "" => ""
  end.

(** [s[i:j]] *)
Definition slice (i j : nat) (s : string) : string := take (j - i) (drop i s).

Fixpoint rev (s : string) : string :=
  match s with
  | "" => ""
  | String c s' => rev s' +:+ String c ""
  end.

Fixpoint HasPrefix (s prefix : string) : bool :=
  match prefix, s with
  | "", _ => true
  | String p prefix', String c s' => Ascii.eqb c p && HasPrefix s' prefix'
  | String _ _, "" => false
  end.

Definition HasSuffix (s suffix : string) : bool := HasPrefix (rev s) (rev suffix).

(** [Index]: the offset of the first instance of [sep]; [None] is Go's -1. *)
Fixpoint Index (s sep : string) : option nat :=
  if HasPrefix s sep then Some O
  else match s with
       | "" => None
       | String _ s' => S <$> Index s' sep
       end.

(** [LastIndex]: the offset of the last instance of [sep]. *)
Fixpoint LastIndex (s sep : string) : option nat :=
  match s with
  | "" => if HasPrefix "" sep then Some O else None
  | String _ s' =>
      match LastIndex s' sep with
      | Some i => Some (S i)
      | None => if HasPrefix s sep then Some O else None
      end
  end.

Definition Contains (s sep : string) : bool := bool_decide (is_Some (Index s sep)).

(** [Cut]: the text before and after the first instance of [sep]. *)
Definition Cut (s sep : string) : string * string * bool :=
  match Index s sep with
  | Some i => (take i s, drop (i + String.length sep) s, true)
  | None => (s, "", false)
  end.

(** [Count] for a non-empty [sep]: non-overlapping instances. *)
Fixpoint CountFrom (fuel : nat) (s sep : string) : nat :=
  match fuel with
  | O => O
  | S f =>
      match Index s sep with
      | Some i => S (CountFrom f (drop (i + String.length sep) s) sep)
      | None => O
      end
  end.

Definition Count (s sep : string) : nat := CountFrom (String.length s) s sep.

Definition byte (n : N) : ascii := ascii_of_N n.

(** Length in bytes of the white-space rune that [s] starts with, 0 when
    it starts with none.  White space is [unicode.IsSpace]: the ASCII
    bytes of [asciiSpace], U+0085 and U+00A0 (C2 85, C2 A0), U+1680
    (E1 9A 80), U+2000..U+200A, U+2028, U+2029, U+202F (E2 80 ..),
    U+205F (E2 81 9F) and U+3000 (E3 80 80), in UTF-8. *)
Definition asciiSpace (c : ascii) : bool :=
  let n := N_of_ascii c in
  ((9 <=? n) && (n <=? 13) || (n =? 32))%N.

Definition spaceRuneLen (s : string) : nat :=
  match s with
  | "" => O
  | String c0 s0 =>
      let b0 := N_of_ascii c0 in
      if asciiSpace c0 then 1%nat
      else
        match s0 with
        | "" => O
        | String c1 s1 =>
            let b1 := N_of_ascii c1 in
            if ((b0 =? 194) && ((b1 =? 133) || (b1 =? 160)))%N then 2%nat
            else
              match s1 with
              | "" => O
              | String c2 _ =>
                  let b2 := N_of_ascii c2 in
                  if ((b0 =? 225) && (b1 =? 154) && (b2 =? 128)
                      || (b0 =? 226) && (b1 =? 128)
                         && ((128 <=? b2) && (b2 <=? 138)
                             || (b2 =? 168) || (b2 =? 169) || (b2 =? 175))
                      || (b0 =? 226) && (b1 =? 129) && (b2 =? 159)
                      || (b0 =? 227) && (b1 =? 128) && (b2 =? 128))%N
                  then 3%nat else O
              end
        end
  end.

(** The same, for the rune that [s] ends with; [r] is [rev s]. *)
Definition spaceRuneLenRev (r : string) : nat :=
  match r with
  | "" => O
  | String c0 r0 =>
      if asciiSpace c0 then 1%nat
      else
        match r0 with
        | String c1 r1 =>
            if (spaceRuneLen (String c1 (String c0 "")) =? 2)%nat then 2%nat
            else
              match r1 with
              | String c2 _ =>
                  if (spaceRuneLen (String c2 (String c1 (String c0 ""))) =? 3)%nat
                  then 3%nat else O
              | "" => O
              end
        | "" => O
        end
  end.

Fixpoint trimLeftSpace (fuel : nat) (s : string) : string :=
  match fuel with
  | O => s
  | S f =>
      match spaceRuneLen s with
      | O => s
      | n => trimLeftSpace f (drop n s)
      end
  end.

Fixpoint trimRightSpaceRev (fuel : nat) (r : string) : string :=
  match fuel with
  | O => r
  | S f =>
      match spaceRuneLenRev r with
      | O => r
      | n => trimRightSpaceRev f (drop n r)
      end
  end.

(** [TrimSpace]: all leading and trailing white space removed. *)
Definition TrimSpace (s : string) : string :=
  let l := trimLeftSpace (String.length s) s in
  rev (trimRightSpaceRev (String.length l) (rev l)).

(** [genSplit(s, sep, 0, n)] for a non-empty [sep] and [n > 0], which is
    [SplitN(s, sep, n)]: at most [n] parts, the last one the unsplit
    remainder; [n] is first capped at [len(s) + 1]. *)
Fixpoint splitLoop (n : nat) (s sep : string) : list string :=
  match n with
  | O => [s]
  | S k =>
      match Index s sep with
      | None => [s]
      | Some m => take m s :: splitLoop k (drop (m + String.length sep) s) sep
      end
  end.

Definition SplitN (s sep : string) (n : nat) : list string :=
  match n with
  | O => []
  | S _ =>
      let n := Nat.min n (String.length s + 1) in
      splitLoop (n - 1) s sep
  end.

Definition lower (c : ascii) : ascii :=
  let n := N_of_ascii c in
  if ((65 <=? n) && (n <=? 90))%N then ascii_of_N (n + 32) else c.

(** [ToLower] on the ASCII letters (the use here is on URL schemes,
    which consist of ASCII bytes). *)
Fixpoint ToLower (s : string) : string :=
  match s with
  | "" => ""
  | String c s' => String (lower c) (ToLower s')
  end.

End GoStrings.

(** ** Package [regexp]: the patterns of [getURLDomain]

    The patterns of the program use literals, one character class, the
    anchor [^], grouping, [?] and [+].  A match is the leftmost one, and
    among the matches that start there the one a backtracking search finds
    first (the documented rule of the package).  All literals and the class are
    ASCII, so matching bytes agrees with matching runes. *)

Module GoRegexp.

Inductive Regexp : Type :=
| Lit (c : ascii)                          (* a literal byte *)
| CharClass (ranges : list (ascii * ascii)) (* [a-b...] *)
| BeginText                                (* ^ *)
| Concat (r1 r2 : Regexp)                  (* r1 r2 *)
| Quest (r : Regexp)                       (* r? *)
| Plus (r : Regexp)                        (* r+ *)
| Group (r : Regexp).                      (* ( r ) *)

Fixpoint inClass (ranges : list (ascii * ascii)) (c : ascii) : bool :=
  match ranges with
  | [] => false
  | (lo, hi) :: rest =>
      ((N_of_ascii lo <=? N_of_ascii c) && (N_of_ascii c <=? N_of_ascii hi))%N
      || inClass rest c
  end.

(** A continuation receives the offset reached and the rest of the text
    and answers with the offset at which the whole match ends. *)
Definition Cont : Type := nat -> string -> option nat.

(** Greedy iteration of [step]: one more round is tried before the
    continuation; a round that consumes nothing ends the iteration. *)
Fixpoint plusLoop (step : nat -> string -> Cont -> option nat) (k : Cont)
         (fuel : nat) (pos : nat) (s : string) : option nat :=
  step pos s (fun p s' =>
    match fuel with
    | O => k p s'
    | S f =>
        if (String.length s' <? String.length s)%nat then
          match plusLoop step k f p s' with
          | Some e => Some e
          | None => k p s'
          end
        else k p s'
    end).

Fixpoint run (r : Regexp) (pos : nat) (s : string) (k : Cont) : option nat :=
  match r with
  | Lit c =>
      match s with
      | String c' s' => if Ascii.eqb c' c then k (S pos) s' else None
      | "" => None
      end
  | CharClass ranges =>
      match s with
      | String c' s' => if inClass ranges c' then k (S pos) s' else None
      | "" => None
      end
  | BeginText => if (pos =? 0)%nat then k pos s else None
  | Concat r1 r2 => run r1 pos s (fun p s' => run r2 p s' k)
  | Quest r1 =>
      match run r1 pos s k with
      | Some e => Some e
      | None => k pos s
      end
  | Plus r1 => plusLoop (run r1) k (String.length s) pos s
  | Group r1 => run r1 pos s k
  end.

(** The leftmost match at or after [pos]; [s] is the text from [pos] on. *)
Fixpoint find (r : Regexp) (pos : nat) (s : string) : option (nat * nat) :=
  match run r pos s (fun p _ => Some p) with
  | Some e => Some (pos, e)
  | None =>
      match s with
      | "" => None
      | String _ s' => find r (S pos) s'
      end
  end.

(** [re.MatchString(s)] *)
Definition MatchString (re : Regexp) (s : string) : bool :=
  bool_decide (is_Some (find re 0 s)).

(** [re.FindString(s)]: the text of the leftmost match, or [""]. *)
Definition FindString (re : Regexp) (s : string) : string :=
  match find re 0 s with
  | Some (b, e) => GoStrings.slice b e s
  | None => ""
  end.

(** The loop of [re.replaceAll] for a replacement without [$]: matches
    are searched from [searchPos] on; an empty match directly after the
    previous match is not replaced; the search always advances. *)
Fixpoint replaceLoop (fuel : nat) (re : Regexp) (src repl : string)
         (searchPos lastMatchEnd : nat) : string :=
  match fuel with
  | O => GoStrings.drop lastMatchEnd src
  | S f =>
      if (String.length src <? searchPos)%nat then GoStrings.drop lastMatchEnd src
      else
        match find re searchPos (GoStrings.drop searchPos src) with
        | None => GoStrings.drop lastMatchEnd src
        | Some (a0, a1) =>
            GoStrings.slice lastMatchEnd a0 src
            +:+ (if (lastMatchEnd <? a1)%nat || (a0 =? 0)%nat then repl else "")
            +:+ replaceLoop f re src repl
                  (if (a1 <? searchPos + 1)%nat then searchPos + 1 else a1)%nat a1
        end
  end.

(** [re.ReplaceAllString(src, repl)] *)
Definition ReplaceAllString (re : Regexp) (src repl : string) : string :=
  replaceLoop (String.length src + 1) re src repl 0 0.

Fixpoint lits (s : string) (r : Regexp) : Regexp :=
  match s with
  | "" => r
  | String c s' => Concat (Lit c) (lits s' r)
  end.

(** [^https?] *)
Definition re_scheme : Regexp :=
  Concat BeginText (lits "http" (Quest (Lit "s"))).

(** [^www\.] *)
Definition re_www : Regexp :=
  Concat BeginText (lits "www" (Lit ".")).

(** [[a-z0-9\-]] *)
Definition label_class : list (ascii * ascii) :=
  [("a", "z"); ("0", "9"); ("-", "-")]%char.

(** [([a-z0-9\-]+\.)+[a-z0-9\-]+] *)
Definition re_domain : Regexp :=
  Concat (Plus (Group (Concat (Plus (CharClass label_class)) (Lit "."))))
         (Plus (CharClass label_class)).

End GoRegexp.

(** ** Package [net/url] (Go 1.22): [Parse]

    Of the parsed URL the program reads [Host] only; the fields kept here
    are the ones [Parse] computes on its way, and every failure of [Parse]
    is kept ([None]; the program discards the error value).  [RawPath],
    [RawFragment], [ForceQuery] and [OmitHost] are never read and never
    fail, and are left out. *)

Module GoURL.

Import GoStrings.

Record URL : Type := mkURL {
  Scheme : string;
  Opaque : string;
  User : option (string * option string);
  Host : string;
  Path : string;
  RawQuery : string;
  Fragment : string
}.

Inductive encoding : Type :=
| encodePath | encodeHost | encodeZone | encodeUserPassword | encodeFragment.

Definition isHostMode (mode : encoding) : bool :=
  match mode with encodeHost | encodeZone => true | _ => false end.

Definition between (lo hi : ascii) (c : ascii) : bool :=
  ((N_of_ascii lo <=? N_of_ascii c) && (N_of_ascii c <=? N_of_ascii hi))%N.

Fixpoint oneOf (set : string) (c : ascii) : bool :=
  match set with
  | "" => false
  | String x set' => Ascii.eqb c x || oneOf set' c
  end.

Definition isAlnum (c : ascii) : bool :=
  between "a" "z" c || between "A" "Z" c || between "0" "9" c.

Definition ishex (c : ascii) : bool :=
  between "0" "9" c || between "a" "f" c || between "A" "F" c.

Definition unhex (c : ascii) : N :=
  let n := N_of_ascii c in
  (if between "0" "9" c then n - 48
   else if between "a" "f" c then n - 97 + 10
   else if between "A" "F" c then n - 65 + 10
   else 0)%N.

Definition dquote : ascii := ascii_of_N 34.

(** [shouldEscape(c, encodeHost)] *)
Definition shouldEscapeHost (c : ascii) : bool :=
  negb (isAlnum c
        || oneOf "!$&'()*+,;=:[]<>" c || Ascii.eqb c dquote
        || oneOf "-_.~" c).

(** [unescape]: percent-decoding with the checks of the mode. *)
Fixpoint unescape (s : string) (mode : encoding) : option string :=
  match s with
  | "" => Some ""
  | String c s1 =>
      if Ascii.eqb c "%" then
        match s1 with
        | String h1 (String h2 s3) =>
            if ishex h1 && ishex h2 then
              let is25 := Ascii.eqb h1 "2" && Ascii.eqb h2 "5" in
              let v := ascii_of_N (unhex h1 * 16 + unhex h2) in
              match mode with
              | encodeHost =>
                  if (unhex h1 <? 8)%N && negb is25 then None
                  else String v <$> unescape s3 mode
              | encodeZone =>
                  if negb is25 && negb (Ascii.eqb v " ") && shouldEscapeHost v then None
                  else String v <$> unescape s3 mode
              | _ => String v <$> unescape s3 mode
              end
            else None
        | _ => None
        end
      else if isHostMode mode && (N_of_ascii c <? 128)%N && shouldEscapeHost c then None
      else String c <$> unescape s1 mode
  end.

(** [getScheme]: [Some (scheme, rest)], or [None] for
    "missing protocol scheme". *)
Fixpoint getSchemeFrom (i : nat) (s rawURL : string) : option (string * string) :=
  match s with
  | "" => Some ("", rawURL)
  | String c s' =>
      if between "a" "z" c || between "A" "Z" c then getSchemeFrom (S i) s' rawURL
      else if between "0" "9" c || oneOf "+-." c then
        if (i =? 0)%nat then Some ("", rawURL) else getSchemeFrom (S i) s' rawURL
      else if Ascii.eqb c ":" then
        if (i =? 0)%nat then None else Some (take i rawURL, s')
      else Some ("", rawURL)
  end.

Definition getScheme (rawURL : string) : option (string * string) :=
  getSchemeFrom 0 rawURL rawURL.

Fixpoint allDigits (s : string) : bool :=
  match s with
  | "" => true
  | String c s' => between "0" "9" c && allDigits s'
  end.

Definition validOptionalPort (port : string) : bool :=
  match port with
  | "" => true
  | String c digits => Ascii.eqb c ":" && allDigits digits
  end.

Fixpoint validUserinfo (s : string) : bool :=
  match s with
  | "" => true
  | String c s' => (isAlnum c || oneOf "-._:~!$&'()*+,;=%@" c) && validUserinfo s'
  end.

Definition parseHost (host : string) : option string :=
  if HasPrefix host "[" then
    (* an IP-literal, as in "[fe80::1%25en0]:80" *)
    match LastIndex host "]" with
    | None => None
    | Some i =>
        if negb (validOptionalPort (drop (i + 1) host)) then None
        else
          match Index (take i host) "%25" with
          | Some zone =>
              host1 ← unescape (take zone host) encodeHost;
              host2 ← unescape (slice zone i host) encodeZone;
              host3 ← unescape (drop i host) encodeHost;
              Some (host1 +:+ host2 +:+ host3)
          | None => unescape host encodeHost
          end
    end
  else
    match LastIndex host ":" with
    | Some i =>
        if negb (validOptionalPort (drop i host)) then None
        else unescape host encodeHost
    | None => unescape host encodeHost
    end.

Definition parseAuthority (authority : string)
  : option (option (string * option string) * string) :=
  let i := LastIndex authority "@" in
  host ← parseHost (match i with
                    | None => authority
                    | Some i => drop (i + 1) authority
                    end);
  match i with
  | None => Some (None, host)
  | Some i =>
      let userinfo := take i authority in
      if negb (validUserinfo userinfo) then None
      else if negb (Contains userinfo ":") then
        username ← unescape userinfo encodeUserPassword;
        Some (Some (username, None), host)
      else
        let '(username, password, _) := Cut userinfo ":" in
        username ← unescape username encodeUserPassword;
        password ← unescape password encodeUserPassword;
        Some (Some (username, Some password), host)
  end.

Fixpoint stringContainsCTLByte (s : string) : bool :=
  match s with
  | "" => false
  | String c s' =>
      (N_of_ascii c <? 32)%N || (N_of_ascii c =? 127)%N || stringContainsCTLByte s'
  end.

(** [parse(rawURL, false)] *)
Definition parse (rawURL : string) : option URL :=
  if stringContainsCTLByte rawURL then None
  else if String.eqb rawURL "*" then Some (mkURL "" "" None "" "*" "" "")
  else
    '(scheme, rest) ← getScheme rawURL;
    let scheme := ToLower scheme in
    let '(rest, rawQuery) :=
      if HasSuffix rest "?" && (Count rest "?" =? 1)%nat
      then (take (String.length rest - 1) rest, "")
      else let '(before, after, _) := Cut rest "?" in (before, after) in
    if negb (HasPrefix rest "/") && negb (String.eqb scheme "") then
      (* a rootless path is opaque *)
      Some (mkURL scheme rest None "" "" rawQuery "")
    else if negb (HasPrefix rest "/")
            && (let '(segment, _, _) := Cut rest "/" in Contains segment ":") then
      (* first path segment in URL cannot contain colon *)
      None
    else
      '(user, host, rest) ←
        (if (negb (String.eqb scheme "") || negb (HasPrefix rest "///"))
            && HasPrefix rest "//"
         then
           let authority := drop 2 rest in
           let '(authority, rest) :=
             match Index authority "/" with
             | Some i => (take i authority, drop i authority)
             | None => (authority, "")
             end in
           '(user, host) ← parseAuthority authority;
           Some (user, host, rest)
         else Some (None, "", rest));
      path ← unescape rest encodePath;
      Some (mkURL scheme "" user host path rawQuery "").

(** [url.Parse(rawURL)]: [None] stands for [(nil, err)]. *)
Definition Parse (rawURL : string) : option URL :=
  let '(u, frag, _) := Cut rawURL "#" in
  url ← parse u;
  if String.eqb frag "" then Some url
  else
    frag ← unescape frag encodeFragment;
    Some (mkURL (Scheme url) (Opaque url) (User url) (Host url) (Path url)
                (RawQuery url) frag).

End GoURL.

(** ** Packages [sort], [slices] and [cmp] *)

Module GoSort.

Fixpoint insert (x : string) (l : list string) : list string :=
  match l with
  | [] => [x]
  | y :: l' => if String.ltb x y then x :: l else y :: insert x l'
  end.

(** [sort.Strings]: the strings in increasing byte-wise order.  Equal
    strings cannot be told apart, so the sorted slice does not depend on
    the algorithm; it is computed here by insertion. *)
Fixpoint Strings (x : list string) : list string :=
  match x with
  | [] => []
  | s :: x' => insert s (Strings x')
  end.

End GoSort.

Module GoSlices.

(** [cmp.Compare] on integers *)
Definition Compare (x y : Z) : Z :=
  if x <? y then -1 else if y <? x then 1 else 0.

(** [slices.Contains] *)
Definition Contains (s : list string) (v : string) : bool :=
  bool_decide (v ∈ s).

(** [slices.Reverse] *)
Definition Reverse {A : Type} (s : list A) : list A := rev s.

(** What [slices.SortFunc] asks of its comparison: [cmp a b] is negative
    when [a < b], positive when [a > b], and [<] is a strict weak
    ordering. *)
Record StrictWeakOrdering {A : Type} (cmp : A -> A -> Z) : Prop := {
  swo_irrefl : forall a, ~ cmp a a < 0;
  swo_trans : forall a b c, cmp a b < 0 -> cmp b c < 0 -> cmp a c < 0;
  swo_incomparable : forall a b c,
    ~ cmp a b < 0 -> ~ cmp b c < 0 -> ~ cmp a c < 0;
  swo_sign : forall a b, 0 < cmp a b <-> cmp b a < 0
}.

(** [slices.SortFunc] is the library's pattern-defeating quicksort.  Its
    contract is all the program relies on: the slice is permuted, and
    ends in ascending order as determined by [cmp]; the sort is not
    guaranteed to be stable. *)
Class Sorter : Type := {
  SortFunc : forall {A : Type}, list A -> (A -> A -> Z) -> list A;
  SortFunc_Permutation : forall (A : Type) (x : list A) cmp,
    Permutation (SortFunc x cmp) x;
  SortFunc_ascending : forall (A : Type) (x : list A) cmp,
    StrictWeakOrdering cmp ->
    StronglySorted (fun a b => ~ cmp b a < 0) (SortFunc x cmp)
}.

(** [insertionSortCmpFunc], the algorithm [SortFunc] runs on slices of
    at most 12 elements: each element sinks to the left while it is less
    than its left neighbour.  [sorted] is the sorted prefix, last
    element first. *)
Fixpoint sink {A : Type} (cmp : A -> A -> Z) (x : A) (sorted : list A) : list A :=
  match sorted with
  | [] => [x]
  | y :: ys => if cmp x y <? 0 then y :: sink cmp x ys else x :: sorted
  end.

Definition insertionSortCmpFunc {A : Type} (data : list A) (cmp : A -> A -> Z) : list A :=
  rev (fold_left (fun sorted x => sink cmp x sorted) data []).

End GoSlices.

(** ** Outcomes of running Go code *)

Inductive Outcome (A : Type) : Type :=
| Returns (a : A)        (* normal completion *)
| Panics (msg : string)  (* a run-time panic unwinds the process *)
| Exits (code : Z).      (* os.Exit, reached through log.Fatalf *)

Arguments Returns {A} a.
Arguments Panics {A} msg.
Arguments Exits {A} code.

#[global] Instance Outcome_ret : MRet Outcome := fun A a => Returns a.
#[global] Instance Outcome_bind : MBind Outcome := fun A B f m =>
  match m with
  | Returns a => f a
  | Panics msg => Panics msg
  | Exits code => Exits code
  end.

(** A Go [(value, error)] pair of which exactly one side is meaningful. *)
Inductive Fallible (A : Type) : Type :=
| Ok (a : A)
| Err (msg : string).

Arguments Ok {A} a.
Arguments Err {A} msg.

Definition nilDereference : string :=
  "runtime error: invalid memory address or nil pointer dereference".

Definition newline : string := String (ascii_of_N 10) "".

(** ** The program *)

(** Config represents the structure of the YAML configuration file *)
Record Config : Type := mkConfig {
  Template : string;
  Output : string;
  Feeds : list string
}.

(** Article represents a feed article *)
Record Article : Type := mkArticle {
  PublishAt : GoTime.Time;
  Title : string;
  URL : string;
  URLDomain : string
}.

(** The fields of a [gofeed.Item] the program reads; [PublishedParsed] is
    a pointer and is nil when the feed gave no date that parses. *)
Record Item : Type := mkItem {
  ItemTitle : string;
  Link : string;
  PublishedParsed : option GoTime.Time
}.

(** What the process finds outside itself: its build variables, the YAML
    decoder applied to [Config], the answer of [gofeed]'s [ParseURL] for a
    feed URL, and whether a file can be written ([Some msg] is the error
    of a failing [os.WriteFile], which is taken to leave the files as they
    are). *)
Record Env : Type := mkEnv {
  version : string;
  build : string;
  yaml_Unmarshal : string -> Fallible Config;
  gofeed_ParseURL : string -> Fallible (list Item);
  os_WriteFile_error : string -> option string
}.

(** What the process changes: the log and the files. *)
Record Process : Type := mkProcess {
  logged : list string;
  files : gmap string string
}.

Definition Prog (A : Type) : Type := Process -> Outcome A * Process.

Definition ret {A : Type} (a : A) : Prog A := fun p => (Returns a, p).

Definition bind {A B : Type} (m : Prog A) (f : A -> Prog B) : Prog B :=
  fun p =>
    match m p with
    | (Returns a, p') => f a p'
    | (Panics msg, p') => (Panics msg, p')
    | (Exits code, p') => (Exits code, p')
    end.

Notation "'do' x <- m ; k" := (bind m (fun x => k))
  (at level 10, x name, m at level 100, k at level 200, only parsing).
Notation "m ;; k" := (bind m (fun _ => k))
  (at level 100, k at level 200, right associativity, only parsing).

Definition lift {A : Type} (o : Outcome A) : Prog A := fun p => (o, p).

(** [log.Printf] (the time stamp that the logger puts first is left out) *)
Definition log_Printf (line : string) : Prog unit :=
  fun p => (Returns tt, mkProcess (logged p ++ [line]) (files p)).

(** [log.Fatalf]: [Printf] followed by [os.Exit(1)] *)
Definition log_Fatalf {A : Type} (line : string) : Prog A :=
  fun p => (Exits 1, mkProcess (logged p ++ [line]) (files p)).

(** [os.ReadFile] *)
Definition os_ReadFile (name : string) : Prog (Fallible string) :=
  fun p =>
    (Returns (match files p !! name with
              | Some data => Ok data
              | None => Err ("open " +:+ name +:+ ": no such file or directory")
              end), p).

(** [os.WriteFile] *)
Definition os_WriteFile (env : Env) (name data : string) : Prog (Fallible unit) :=
  fun p =>
    match os_WriteFile_error env name with
    | Some msg => (Returns (Err msg), p)
    | None => (Returns (Ok tt), mkProcess (logged p) (<[name := data]> (files p)))
    end.

(** getURLDomain extracts the domain from a URL-like string
    e.g. "https://example.com" -> "example.com" *)
Definition getURLDomain (urlString : string) : Outcome string :=
  let urlString := GoStrings.TrimSpace urlString in
  urlString ←
    (if GoRegexp.MatchString GoRegexp.re_scheme urlString then
       (* read, _ := url.Parse(urlString); urlString = read.Host *)
       match GoURL.Parse urlString with
       | Some read => Returns (GoURL.Host read)
       | None => Panics nilDereference
       end
     else Returns urlString);
  let urlString :=
    if GoRegexp.MatchString GoRegexp.re_www urlString
    then GoRegexp.ReplaceAllString GoRegexp.re_www urlString ""
    else urlString in
  Returns (GoRegexp.FindString GoRegexp.re_domain urlString).

(** The body of the loop of [fetchArticles] over [feed.Items]. *)
Definition fetchItem (articles : list Article) (item : Item) : Outcome (list Article) :=
  (* Parse publish date *)
  publishAt ← match PublishedParsed item with
              | Some t => Returns (GoTime.UTC t)
              | None => Panics nilDereference
              end;
  articleDomain ← getURLDomain (Link item);
  Returns (articles ++ [mkArticle publishAt (ItemTitle item) (Link item) articleDomain]).

Fixpoint fetchItems (articles : list Article) (items : list Item) : Outcome (list Article) :=
  match items with
  | [] => Returns articles
  | item :: items' =>
      articles ← fetchItem articles item;
      fetchItems articles items'
  end.

(** fetchArticles fetches articles from a given feed URL *)
Definition fetchArticles (env : Env) (feedURL : string) : Outcome (Fallible (list Article)) :=
  match gofeed_ParseURL env feedURL with
  | Err err => Returns (Err ("error fetching feed: " +:+ err))
  | Ok items =>
      articles ← fetchItems [] items;
      Returns (Ok articles)
  end.

(** The two variables the loop of [main] builds: [articlesByWeek] and
    [weeks]. *)
Definition Grouping : Type := gmap string (list Article) * list string.

(** [articlesByWeek[week]]: a missing key reads as the nil slice. *)
Definition bucket (articlesByWeek : gmap string (list Article)) (week : string) : list Article :=
  default [] (articlesByWeek !! week).

(** The week id of an article, in the format "YYYY-WW", e.g. 2021-01. *)
Definition weekID (article : Article) : string :=
  let '(year, week) := GoTime.ISOWeek (GoTime.UTC (PublishAt article)) in
  GoFmt.Sprintf_d_02d year week.

(** Group articles by publish week: the body of the inner loop of [main]. *)
Definition groupArticle (g : Grouping) (article : Article) : Grouping :=
  let '(articlesByWeek, weeks) := g in
  let id := weekID article in
  let articlesByWeek := <[id := bucket articlesByWeek id ++ [article]]> articlesByWeek in
  (articlesByWeek, if negb (GoSlices.Contains weeks id) then weeks ++ [id] else weeks).

Definition groupArticles (g : Grouping) (articles : list Article) : Grouping :=
  fold_left groupArticle articles g.

(** The body of the outer loop of [main]: one feed. *)
Definition fetchFeed (env : Env) (g : Grouping) (feedURL : string) : Prog Grouping :=
  log_Printf ("Fetching articles from " +:+ feedURL) ;;
  do fetched <- lift (fetchArticles env feedURL) ;
  match fetched with
  | Err err =>
      log_Printf ("Error fetching articles from " +:+ feedURL +:+ ": " +:+ err) ;;
      ret g
  | Ok articles =>
      log_Printf ("-> Got " +:+ GoFmt.verb_d (Z.of_nat (length articles)) +:+ " articles") ;;
      ret (groupArticles g articles)
  end.

Fixpoint fetchFeeds (env : Env) (g : Grouping) (feeds : list string) : Prog Grouping :=
  match feeds with
  | [] => ret g
  | feedURL :: feeds' =>
      do g <- fetchFeed env g feedURL ;
      fetchFeeds env g feeds'
  end.

(** One line of the list of a week. *)
Definition articleLine (article : Article) : string :=
  "- " +:+ GoTime.Format_2006_01_02 (PublishAt article) +:+ " @ " +:+ URLDomain article
  +:+ ": [" +:+ Title article +:+ "](" +:+ URL article +:+ ")" +:+ newline.

Definition byUnix (a b : Article) : Z :=
  GoSlices.Compare (GoTime.Unix (PublishAt a)) (GoTime.Unix (PublishAt b)).

(** The text written for one week: the heading, a blank line, one line
    per article and a closing blank line. *)
Definition weekSection (week : string) (articles : list Article) : string :=
  "## Week: " +:+ week +:+ newline +:+ newline
  +:+ String.concat "" (map articleLine articles)
  +:+ newline.

Section Rendering.

Context {sorter : GoSlices.Sorter}.

(** The body of the loop of [generateMarkdown] over [weeks].  The slice
    read from the map shares its array with the map's entry, so sorting
    it in place shows in [articlesByWeek]. *)
Definition renderWeek (acc : string * gmap string (list Article)) (week : string)
  : string * gmap string (list Article) :=
  let '(output, articlesByWeek) := acc in
  let articles := bucket articlesByWeek week in
  if (length articles =? 0)%nat then acc
  else
    (* Sort articles by publish date *)
    let articles := GoSlices.SortFunc articles byUnix in
    (output +:+ weekSection week articles, <[week := articles]> articlesByWeek).

(** generateMarkdown generates Markdown output with header and footer.
    Besides the output it returns the map as the call leaves it. *)
Definition generateMarkdown (templateFile : string)
           (articlesByWeek : gmap string (list Article)) (weeks : list string)
  : Prog (string * gmap string (list Article)) :=
  (* Read template file *)
  do templateData <- os_ReadFile templateFile ;
  do templateData <-
    match templateData with
    | Ok data => ret data
    | Err err => log_Fatalf ("Error reading template file: " +:+ err)
    end ;
  (* Split template into header and footer sections *)
  match GoStrings.SplitN templateData "---" 3 with
  | [part0; _; part2] =>
      let header := GoStrings.TrimSpace part0 in
      let footer := GoStrings.TrimSpace part2 in
      (* Generate Markdown output *)
      let output := header +:+ newline +:+ newline in
      let '(output, articlesByWeek) := fold_left renderWeek weeks (output, articlesByWeek) in
      ret (output +:+ footer +:+ newline, articlesByWeek)
  | _ => log_Fatalf "Invalid template format"
  end.

Definition main (env : Env) : Prog unit :=
  log_Printf ("Paperboy v." +:+ version env +:+ " (build " +:+ build env +:+ ")") ;;
  (* Read YAML configuration file *)
  let configFile := "config.yaml" in
  do configData <- os_ReadFile configFile ;
  do configData <-
    match configData with
    | Ok data => ret data
    | Err err => log_Fatalf ("Error reading config.yaml file: " +:+ err)
    end ;
  (* Parse YAML configuration *)
  do config <-
    match yaml_Unmarshal env configData with
    | Ok config => ret config
    | Err err => log_Fatalf ("Error parsing config.yaml file: " +:+ err)
    end ;
  log_Printf ("Feeds: " +:+ GoFmt.verb_d (Z.of_nat (length (Feeds config)))) ;;
  (* Fetch articles from each feed URL *)
  do g <- fetchFeeds env (∅, []) (Feeds config) ;
  let '(articlesByWeek, weeks) := g in
  (* Sort weeks *)
  let weeks := GoSlices.Reverse (GoSort.Strings weeks) in
  log_Printf ("-> Sorted and reversed " +:+ GoFmt.verb_d (Z.of_nat (length weeks)) +:+ " weeks") ;;
  (* Generate Markdown output *)
  do rendered <- generateMarkdown (Template config) articlesByWeek weeks ;
  let output := rendered.1 in
  log_Printf "-> Generated Markdown output" ;;
  (* Write Markdown output to file *)
  let outputFile := Output config in
  do written <- os_WriteFile env outputFile output ;
  match written with
  | Err err => log_Fatalf ("Error writing output file: " +:+ err)
  | Ok _ =>
      log_Printf ("-> Wrote output to " +:+ outputFile) ;;
      log_Printf "Paperboy finished"
  end.

End Rendering.


(** * Notions of the specification *)

(** ** The week index *)

(** The distinct keys of a sequence in first-encountered order. *)
Fixpoint firstSeen (keys : list string) : list string :=
  match keys with
  | [] => []
  | k :: keys' => k :: filter (fun x => x <> k) (firstSeen keys')
  end.

(** The articles a run fetches: those of the feeds that answer, in the
    order of the feeds. *)
Fixpoint fetchedArticles (env : Env) (feeds : list string) : list Article :=
  match feeds with
  | [] => []
  | feedURL :: feeds' =>
      match fetchArticles env feedURL with
      | Returns (Ok articles) => articles ++ fetchedArticles env feeds'
      | _ => fetchedArticles env feeds'
      end
  end.

(** The invariant of the week index and the week buckets after the
    articles [articles] have been grouped. *)
Definition weekIndexInvariant (articles : list Article) (g : Grouping) : Prop :=
  let '(articlesByWeek, weeks) := g in
  NoDup weeks
  /\ weeks = firstSeen (map weekID articles)
  /\ forall k, k ∈ weeks <-> exists l, articlesByWeek !! k = Some l /\ l <> [].


(** ** The order of a rendered bucket *)

(** Ascending order of the publish time in whole seconds. *)
Definition unixAscending (a b : Article) : Prop :=
  GoTime.Unix (PublishAt a) <= GoTime.Unix (PublishAt b).

(** [after] holds the articles of [before], in ascending order of the
    publish time in whole seconds. *)
Definition sortedBucket (before after : list Article) : Prop :=
  Permutation after before /\ StronglySorted unixAscending after.

(** The instant [t] is strictly earlier than [u] (as [t.Before(u)]). *)
Definition earlier (t u : GoTime.Time) : Prop :=
  GoTime.unixSec t < GoTime.unixSec u
  \/ (GoTime.unixSec t = GoTime.unixSec u /\ GoTime.nsec t < GoTime.nsec u).

(** ** The feed of the end-to-end example *)

Definition itemA : Item :=
  mkItem "A" "https://Example.com/a" (Some (GoTime.mkTime 1735812000 0 0)).
Definition itemB : Item :=
  mkItem "B" "www.example.com/b" (Some (GoTime.mkTime 1735808400 0 0)).

(** The articles [fetchArticles] makes of the two items. *)
Definition articleA : Article :=
  mkArticle (GoTime.mkTime 1735812000 0 0) "A" "https://Example.com/a" "xample.com".
Definition articleB : Article :=
  mkArticle (GoTime.mkTime 1735808400 0 0) "B" "www.example.com/b" "example.com".

(** Two articles of the same second, half a second apart, and the
    environment of a run that has nothing to fetch. *)
Definition articleLate : Article :=
  mkArticle (GoTime.mkTime 1735812000 900000000 0) "late" "https://example.com/late" "example.com".
Definition articleEarly : Article :=
  mkArticle (GoTime.mkTime 1735812000 100000000 0) "early" "https://example.com/early" "example.com".

(** An environment whose single feed returns the two items, and the files
    of a run in it. *)
Definition exampleFeed : string := "https://example.com/feed".

Definition exampleEnv : Env :=
  mkEnv "dev" "20250102"
        (fun _ => Ok (mkConfig "template.md" "news.md" [exampleFeed]))
        (fun feedURL => if String.eqb feedURL exampleFeed then Ok [itemA; itemB]
                        else Err "no such host")
        (fun _ => None).

Definition exampleFiles : gmap string string :=
  {["config.yaml" := "template: template.md"; "template.md" := "# News---body---bye"]}.

(** ** Runs compared *)

(** The environment [env] with the answer of the feed [feedURL] replaced. *)
Definition setFeed (env : Env) (feedURL : string) (answer : Fallible (list Item)) : Env :=
  mkEnv (version env) (build env) (yaml_Unmarshal env)
        (fun url => if String.eqb url feedURL then answer else gofeed_ParseURL env url)
        (os_WriteFile_error env).

(** Two programs agree when, started on the same files, they end with the
    same outcome and the same files; the logs may differ. *)
Definition agree {A : Type} (m1 m2 : Prog A) : Prop :=
  forall p q, files p = files q ->
    (m1 p).1 = (m2 q).1 /\ files (m1 p).2 = files (m2 q).2.

(** A program that leaves the files as they are. *)
Definition readonly {A : Type} (m : Prog A) : Prop :=
  forall p, files (m p).2 = files p.

(** ** Bare domains *)

(** A byte of a label: a lowercase letter, a digit or a hyphen. *)
Definition isLabelChar (c : ascii) : bool := GoRegexp.inClass GoRegexp.label_class c.

Fixpoint allLabelChars (s : string) : bool :=
  match s with
  | "" => true
  | String c s' => isLabelChar c && allLabelChars s'
  end.

(** A label: one or more lowercase letters, digits or hyphens. *)
Definition isLabel (s : string) : Prop := s <> "" /\ allLabelChars s = true.

(** A bare domain: the labels joined by dots. *)
Definition bareDomain (labels : list string) : string := String.concat "." labels.

(** Two notions for the proofs about the pattern: the number of label
    bytes that [s] starts with, *)
Fixpoint span (s : string) : nat :=
  match s with
  | String c s' => if isLabelChar c then S (span s') else O
  | "" => O
  end.

(** and the continuation tried after [n], [n - 1], ..., 1 bytes of [s]. *)
Fixpoint firstFrom (k : GoRegexp.Cont) (pos : nat) (s : string) (n : nat) : option nat :=
  match n with
  | O => None
  | S n' =>
      match k (pos + S n')%nat (GoStrings.drop (S n') s) with
      | Some e => Some e
      | None => firstFrom k pos s n'
      end
  end.

(** ** The ISO 8601 week calendar *)

(** The number of leap years among the years 1 .. [y]. *)
Definition leapYearsThrough (y : Z) : Z := y / 4 - y / 100 + y / 400.

(** The days from 1970-01-01 to January 1 of the year [y] of the
    proleptic Gregorian calendar. *)
Definition daysToYear (y : Z) : Z :=
  365 * (y - 1970) + leapYearsThrough (y - 1) - leapYearsThrough 1969.

(** The UTC day of an instant, counted from 1970-01-01. *)
Definition unixDay (t : GoTime.Time) : Z := GoTime.unixSec t / 86400.

(** The day of the week, Monday 0 to Sunday 6; 1970-01-01 was a Thursday. *)
Definition weekdayFromMonday (day : Z) : Z := (day + 3) mod 7.

(** The Thursday of the week, Monday to Sunday, that holds [day]. *)
Definition thursdayOf (day : Z) : Z := day - weekdayFromMonday day + 3.

(** ISO 8601 week numbering: weeks start on Monday, and week 1 of a year
    is the week with the year's first Thursday.  So the week of [day]
    belongs to the year its Thursday falls in, and its number counts the
    Thursdays of that year up to it. *)
Definition isISOWeek (day year week : Z) : Prop :=
  daysToYear year <= thursdayOf day < daysToYear (year + 1)
  /\ exists firstThursday,
       daysToYear year <= firstThursday < daysToYear year + 7
       /\ weekdayFromMonday firstThursday = 3
       /\ thursdayOf day = firstThursday + 7 * (week - 1).

(** The instants for which the calendar arithmetic of [time] stays inside
    [uint64]: about 292 thousand million years to either side. *)
Definition inCalendarRange (t : GoTime.Time) : Prop :=
  3 * GoTime.secondsPerDay - (GoTime.unixToInternal + GoTime.internalToAbsolute)
    <= GoTime.unixSec t < 2 ^ 63.

(** The days before the year [y] counted from the absolute zero year. *)
Definition absDaysToYear (y : Z) : Z := 365 * y + y / 4 - y / 100 + y / 400.

(** The day of the absolute epoch on which the Unix epoch falls. *)
Definition absEpochDay : Z := 106751991073094.

(** ** Decimal numerals *)

Definition isDigit (c : ascii) : bool :=
  ((48 <=? N_of_ascii c) && (N_of_ascii c <=? 57))%N.

Definition digitOf (c : ascii) : Z := Z.of_N (N_of_ascii c) - 48.

Fixpoint allDigits (s : string) : bool :=
  match s with
  | "" => true
  | String c s' => isDigit c && allDigits s'
  end.

(** The number a string of digits denotes. *)
Fixpoint digitsValue (s : string) : Z :=
  match s with
  | "" => 0
  | String c s' => digitOf c * 10 ^ Z.of_nat (String.length s') + digitsValue s'
  end.

(** [y] is written with [n] decimal digits (a sign is not counted). *)
Definition hasDecimalDigits (n : nat) (y : Z) : Prop :=
  (n = 1%nat /\ y = 0) \/ ((0 < n)%nat /\ 10 ^ (Z.of_nat n - 1) <= Z.abs y < 10 ^ Z.of_nat n).

(** The chronological order of (year, week) pairs. *)
Definition compareYearWeek (a b : Z * Z) : comparison :=
  match a.1 ?= b.1 with
  | Eq => a.2 ?= b.2
  | c => c
  end.

(** The byte-wise order of Go strings. *)
Definition strLe (a b : string) : Prop := String.compare a b <> Gt.

(** The (year, week) pair of the ISO week of an article, in UTC. *)
Definition yearWeek (article : Article) : Z * Z :=
  GoTime.ISOWeek (GoTime.UTC (PublishAt article)).

(** An article whose ISO year is not negative and has [n] digits. *)
Definition yearOfDigits (n : nat) (article : Article) : Prop :=
  0 <= (yearWeek article).1 /\ hasDecimalDigits n (yearWeek article).1.

(** Two articles of the years -5 and -3 (20 July of each). *)
Definition articleYearMinus5 : Article :=
  mkArticle (GoTime.mkTime (-62307705600) 0 0) "" "" "".
Definition articleYearMinus3 : Article :=
  mkArticle (GoTime.mkTime (-62244547200) 0 0) "" "" "".

(** * Notions of the further properties *)

(** ** Articles made of feed items *)

(** [article] is what [fetchArticles] makes of [item]: the item has a
    date, the domain of its link is extracted, and the article holds the
    title, the link, the date in UTC and the domain. *)
Definition articleOf (item : Item) (article : Article) : Prop :=
  exists t domain,
    PublishedParsed item = Some t
    /\ getURLDomain (Link item) = Returns domain
    /\ article = mkArticle (GoTime.UTC t) (ItemTitle item) (Link item) domain.

(** The articles with the week key [week], in their order. *)
Definition articlesOfWeek (week : string) (articles : list Article) : list Article :=
  filter (fun a => weekID a = week) articles.

(** The first two lines a run logs when its configuration is read. *)
Definition bannerLine (env : Env) : string :=
  "Paperboy v." +:+ version env +:+ " (build " +:+ build env +:+ ")".

Definition feedsLine (config : Config) : string :=
  "Feeds: " +:+ GoFmt.verb_d (Z.of_nat (length (Feeds config))).

Definition missingFile (name : string) : string :=
  "open " +:+ name +:+ ": no such file or directory".

(** What [section] is in a document rendered from the buckets [m]: nothing
    for a week without articles, else the section of the week over its
    bucket sorted by whole seconds. *)
Definition sectionOf (m : gmap string (list Article)) (week section : string) : Prop :=
  (bucket m week = [] /\ section = "")
  \/ (bucket m week <> []
      /\ exists l, sortedBucket (bucket m week) l /\ section = weekSection week l).

(** No feed of [feeds] makes [fetchArticles] panic. *)
Definition feedsAnswer (env : Env) (feeds : list string) : Prop :=
  Forall (fun feedURL => exists fetched, fetchArticles env feedURL = Returns fetched) feeds.

(** The section of the week [week] in a document made from [articles]:
    the articles of that week, sorted by whole seconds. *)
Definition weekSectionOf (articles : list Article) (week section : string) : Prop :=
  exists l, sortedBucket (articlesOfWeek week articles) l /\ section = weekSection week l.

(** The document [generateMarkdown] builds: the header, a blank line, the
    sections, the footer and a line end. *)
Definition document (header : string) (sections : list string) (footer : string) : string :=
  header +:+ newline +:+ newline +:+ String.concat "" sections +:+ footer +:+ newline.

(** The configuration of the example, and environments in which a run of
    the example fails: the decoder refuses the configuration, the feed
    has an item without a date, the output file cannot be written. *)
Definition exampleConfig : Config := mkConfig "template.md" "news.md" [exampleFeed].

Definition refusingEnv : Env :=
  mkEnv "dev" "20250102" (fun _ => Err "yaml: unmarshal errors")
        (gofeed_ParseURL exampleEnv) (fun _ => None).

Definition undatedItem : Item := mkItem "no date" "https://example.com/x" None.

Definition undatedEnv : Env := setFeed exampleEnv exampleFeed (Ok [itemA; undatedItem]).

Definition readOnlyEnv : Env :=
  mkEnv "dev" "20250102" (yaml_Unmarshal exampleEnv) (gofeed_ParseURL exampleEnv)
        (fun name => Some ("open " +:+ name +:+ ": permission denied")).

(** ** The texts a pattern matches *)

(** The language of a pattern: [Matches r w] when the text [w] is matched
    by [r] from its first byte to its last ([^] matches no byte). *)
Inductive Matches : GoRegexp.Regexp -> string -> Prop :=
| Matches_Lit c : Matches (GoRegexp.Lit c) (String c "")
| Matches_CharClass ranges c :
    GoRegexp.inClass ranges c = true -> Matches (GoRegexp.CharClass ranges) (String c "")
| Matches_BeginText : Matches GoRegexp.BeginText ""
| Matches_Concat r1 r2 w1 w2 :
    Matches r1 w1 -> Matches r2 w2 -> Matches (GoRegexp.Concat r1 r2) (w1 +:+ w2)
| Matches_Quest_none r : Matches (GoRegexp.Quest r) ""
| Matches_Quest_one r w : Matches r w -> Matches (GoRegexp.Quest r) w
| Matches_Plus_one r w : Matches r w -> Matches (GoRegexp.Plus r) w
| Matches_Plus_more r w1 w2 :
    Matches r w1 -> Matches (GoRegexp.Plus r) w2 -> Matches (GoRegexp.Plus r) (w1 +:+ w2)
| Matches_Group r w : Matches r w -> Matches (GoRegexp.Group r) w.

(** A domain as [getURLDomain] returns it: two or more labels of lowercase
    letters, digits and hyphens, joined by dots. *)
Definition isBareDomain (domain : string) : Prop :=
  exists labels,
    (2 <= length labels)%nat /\ Forall isLabel labels /\ domain = bareDomain labels.

(** ** Links with a scheme *)

Fixpoint allChars (P : ascii -> bool) (s : string) : bool :=
  match s with
  | "" => true
  | String c s' => P c && allChars P s'
  end.

(** A byte of a host name: a label byte or a dot. *)
Definition isHostChar (c : ascii) : bool := isLabelChar c || Ascii.eqb c ".".

(** A byte of the path of a plain link: a printable ASCII byte other than
    the space, [%], [#] and [?]. *)
Definition isPathChar (c : ascii) : bool :=
  ((33 <=? N_of_ascii c) && (N_of_ascii c <=? 126))%N
  && negb (Ascii.eqb c "%") && negb (Ascii.eqb c "#") && negb (Ascii.eqb c "?").

(** The part of a plain link after the host: nothing, or a path that
    begins with a slash. *)
Definition isPlainPath (path : string) : Prop :=
  allChars isPathChar path = true /\ (path = "" \/ GoStrings.HasPrefix path "/" = true).

(** ** Calendar dates *)

(** The Gregorian leap years. *)
Definition isLeapYear (y : Z) : bool :=
  (y mod 4 =? 0) && (negb (y mod 100 =? 0) || (y mod 400 =? 0)).

Definition daysInMonth (leap : bool) (m : Z) : Z :=
  if m =? 2 then (if leap then 29 else 28)
  else if (m =? 4) || (m =? 6) || (m =? 9) || (m =? 11) then 30
  else 31.

(** The days of the year before the month [m]. *)
Definition daysBeforeMonth (leap : bool) (m : Z) : Z :=
  fold_right Z.add 0
    (map (fun k => daysInMonth leap (Z.of_nat k)) (seq 1 (Z.to_nat (m - 1)))).

(** The day [day], counted from 1970-01-01, is the day [d] of the month
    [m] of the year [y] of the proleptic Gregorian calendar. *)
Definition isCivilDate (day y m d : Z) : Prop :=
  1 <= m <= 12
  /\ 1 <= d <= daysInMonth (isLeapYear y) m
  /\ day = daysToYear y + daysBeforeMonth (isLeapYear y) m + (d - 1).

(** A number below 100 and a number below 10000 in two and in four
    decimal digits, and the date [y]-[m]-[d] as ISO 8601 writes it. *)
Definition twoDigits (n : Z) : string :=
  String (GoStrconv.digitChar (n / 10)) (String (GoStrconv.digitChar (n mod 10)) "").

Definition fourDigits (n : Z) : string := twoDigits (n / 100) +:+ twoDigits (n mod 100).

Definition isoDate (y m d : Z) : string :=
  fourDigits y +:+ "-" +:+ twoDigits m +:+ "-" +:+ twoDigits d.

(** The check of one day of the year against [GoTime.monthDay], for the
    proof by enumeration of the days of a common and of a leap year. *)
Definition monthDayOk (leap : bool) (yday : Z) : bool :=
  let '(m, d) := GoTime.monthDay (if leap then 2000 else 2001) yday in
  (1 <=? m) && (m <=? 12) && (1 <=? d) && (d <=? daysInMonth leap m)
  && (daysBeforeMonth leap m + (d - 1) =? yday).

(** An environment whose only feed does not answer. *)
Definition silentEnv : Env := setFeed exampleEnv exampleFeed (Err "no such host").

(** ** The files after a run *)

(** The files [fs] after the write [w]: a name and the text stored under
    it, or no write at all. *)
Definition written (w : option (string * string)) (fs : gmap string string)
  : gmap string string :=
  match w with
  | Some (name, text) => <[name := text]> fs
  | None => fs
  end.


(** * Proofs *)

#[local] Arguments GoStrings.SplitN : simpl never.
#[local] Arguments GoStrings.TrimSpace : simpl never.
#[local] Arguments generateMarkdown : simpl never.
#[local] Arguments GoRegexp.inClass : simpl never.

(** ** The week index and the buckets *)

Lemma elem_of_firstSeen keys k : k ∈ firstSeen keys <-> k ∈ keys.
Proof.
  induction keys as [|x keys IH]; simpl; [done|].
  rewrite !elem_of_cons, list_elem_of_filter, IH.
  destruct (decide (k = x)); intuition congruence.
Qed.

Lemma NoDup_firstSeen keys : NoDup (firstSeen keys).
Proof.
  induction keys as [|x keys IH]; simpl; [constructor|].
  constructor; [|by apply NoDup_filter].
  rewrite list_elem_of_filter. tauto.
Qed.

Lemma firstSeen_snoc keys k :
  firstSeen (keys ++ [k]) = if decide (k ∈ keys) then firstSeen keys else firstSeen keys ++ [k].
Proof.
  induction keys as [|x keys IH]; simpl; [done|].
  rewrite IH. clear IH.
  destruct (decide (k ∈ x :: keys)) as [Hin|Hin]; destruct (decide (k ∈ keys)) as [Hin'|Hin'];
    try done.
  - apply elem_of_cons in Hin as [->|?]; [|done].
    rewrite filter_app, filter_cons_False, filter_nil by tauto. by rewrite app_nil_r.
  - exfalso. apply Hin. by right.
  - rewrite filter_app, filter_cons_True, filter_nil; [done|].
    intros ->. apply Hin. by left.
Qed.

Lemma groupArticles_snoc g articles a :
  groupArticles g (articles ++ [a]) = groupArticle (groupArticles g articles) a.
Proof. unfold groupArticles. by rewrite fold_left_app. Qed.

Lemma groupArticle_invariant articles g a :
  weekIndexInvariant articles g ->
  weekIndexInvariant (articles ++ [a]) (groupArticle g a).
Proof.
  destruct g as [m weeks]. unfold weekIndexInvariant, groupArticle.
  intros (Hnd & Hw & Hk).
  rewrite map_app. simpl. rewrite firstSeen_snoc, <- Hw.
  unfold GoSlices.Contains.
  assert (Hmem : weekID a ∈ map weekID articles <-> weekID a ∈ weeks)
    by (by rewrite Hw, elem_of_firstSeen).
  split; [|split].
  - case_bool_decide; simpl; [done|].
    apply NoDup_app. split; [done|]. split; [|apply NoDup_singleton].
    intros x Hx ->%list_elem_of_singleton. done.
  - case_bool_decide; simpl.
    + by rewrite decide_True by tauto.
    + by rewrite decide_False by tauto.
  - intros k. destruct (decide (k = weekID a)) as [->|Hne].
    + rewrite lookup_insert_eq. split.
      * intros _. eexists. split; [done|]. by destruct (bucket m (weekID a)).
      * intros _. case_bool_decide; simpl; [done|].
        apply elem_of_app. right. by apply list_elem_of_singleton.
    + rewrite lookup_insert_ne by done. rewrite <- Hk.
      case_bool_decide; simpl; [done|].
      rewrite elem_of_app, list_elem_of_singleton. tauto.
Qed.

Lemma groupArticles_invariant (articles : list Article) :
  weekIndexInvariant articles (groupArticles (∅, []) articles).
Proof.
  induction articles as [|a articles IH] using rev_ind.
  - simpl. split; [constructor|]. split; [done|].
    intros k. split; [by intros ?%elem_of_nil|].
    intros (l & Hl & _). by rewrite lookup_empty in Hl.
  - rewrite groupArticles_snoc. by apply groupArticle_invariant.
Qed.

Lemma groupArticles_weeks (articles : list Article) :
  (groupArticles (∅, []) articles).2 = firstSeen (map weekID articles).
Proof.
  pose proof (groupArticles_invariant articles) as Hinv.
  destruct (groupArticles (∅, []) articles) as [m weeks]. by destruct Hinv as (_ & -> & _).
Qed.

(** What the loop over the feeds returns is the grouping of the articles
    fetched, in the order of the feeds. *)
Lemma fetchFeeds_groups env feeds g p g' p' :
  fetchFeeds env g feeds p = (Returns g', p') ->
  g' = groupArticles g (fetchedArticles env feeds).
Proof.
  revert g p. induction feeds as [|feedURL feeds IH]; intros g p; cbn [fetchFeeds fetchedArticles].
  - by intros [= <- _].
  - unfold bind at 1, fetchFeed, bind, lift, log_Printf, ret.
    destruct (fetchArticles env feedURL) as [[fetched|err]| |]; simpl; [| |done..].
    + intros ->%IH. unfold groupArticles. by rewrite fold_left_app.
    + by intros ->%IH.
Qed.

(** C8: after every article the loop has added, the week index has no
    duplicates, lists the keys in the order in which they were first seen
    over all feeds, and holds exactly the keys of the buckets that are not
    empty. *)
Theorem week_index_invariant (articles : list Article) :
  weekIndexInvariant articles (groupArticles (∅, []) articles).
Proof. apply groupArticles_invariant. Qed.

(** ** Sorting *)

Section StronglySortedFacts.

Context {A : Type} (R : A -> A -> Prop).

Lemma StronglySorted_snoc (l : list A) (x : A) :
  StronglySorted R l -> Forall (fun a => R a x) l -> StronglySorted R (l ++ [x]).
Proof.
  induction 1 as [|a l Hl IH Ha]; intros Hx; simpl.
  - repeat constructor.
  - inversion Hx; subst. constructor; [by apply IH|].
    apply Forall_app. split; [done|]. by constructor.
Qed.

Lemma StronglySorted_rev (l : list A) :
  StronglySorted (fun a b => R b a) l -> StronglySorted R (rev l).
Proof.
  induction 1 as [|a l Hl IH Ha]; simpl; [constructor|].
  apply StronglySorted_snoc; [done|].
  apply Forall_forall. intros b Hb. apply list_elem_of_In, in_rev in Hb.
  rewrite Forall_forall in Ha. by apply Ha, list_elem_of_In.
Qed.

Lemma StronglySorted_lookup (l : list A) i j a b :
  StronglySorted R l -> (i < j)%nat -> l !! i = Some a -> l !! j = Some b -> R a b.
Proof.
  intros Hl. revert i j. induction Hl as [|x l Hl IH Hx]; intros i j Hij Hi Hj.
  - by rewrite lookup_nil in Hi.
  - destruct j as [|j]; [lia|]. destruct i as [|i]; simpl in *.
    + injection Hi as <-. rewrite Forall_forall in Hx.
      by eapply Hx, list_elem_of_lookup_2.
    + eapply IH; [|done..]. lia.
Qed.

End StronglySortedFacts.

Section InsertionSort.

Import GoSlices.

Context {A : Type} (cmp : A -> A -> Z).

Lemma sink_Permutation x sorted : Permutation (sink cmp x sorted) (x :: sorted).
Proof.
  induction sorted as [|y ys IH]; simpl; [done|].
  destruct (cmp x y <? 0); [|done].
  rewrite IH. apply perm_swap.
Qed.

Lemma sinkAll_Permutation data sorted :
  Permutation (fold_left (fun sorted x => sink cmp x sorted) data sorted) (data ++ sorted).
Proof.
  revert sorted. induction data as [|x data IH]; intros sorted; simpl; [done|].
  rewrite IH, sink_Permutation. by rewrite Permutation_middle.
Qed.

Lemma insertionSortCmpFunc_Permutation data :
  Permutation (insertionSortCmpFunc data cmp) data.
Proof.
  unfold insertionSortCmpFunc. rewrite <- Permutation_rev, sinkAll_Permutation.
  by rewrite app_nil_r.
Qed.

Hypothesis Hcmp : StrictWeakOrdering cmp.

Lemma sink_descending x sorted :
  StronglySorted (fun a b => ~ cmp a b < 0) sorted ->
  StronglySorted (fun a b => ~ cmp a b < 0) (sink cmp x sorted).
Proof.
  induction 1 as [|y ys Hys IH Hy]; simpl; [repeat constructor|].
  destruct (Z.ltb_spec (cmp x y) 0) as [Hlt|Hge].
  - constructor; [done|].
    rewrite sink_Permutation. constructor; [|done].
    intros Hyx. apply (swo_irrefl _ Hcmp x). by eapply swo_trans.
  - constructor; [by constructor|].
    constructor; [lia|].
    eapply Forall_impl; [exact Hy|]. simpl. intros z Hyz.
    eapply (swo_incomparable _ Hcmp); [|exact Hyz]. lia.
Qed.

Lemma sinkAll_descending data sorted :
  StronglySorted (fun a b => ~ cmp a b < 0) sorted ->
  StronglySorted (fun a b => ~ cmp a b < 0)
    (fold_left (fun sorted x => sink cmp x sorted) data sorted).
Proof.
  revert sorted. induction data as [|x data IH]; intros sorted Hs; simpl; [done|].
  by apply IH, sink_descending.
Qed.

Lemma insertionSortCmpFunc_ascending data :
  StronglySorted (fun a b => ~ cmp b a < 0) (insertionSortCmpFunc data cmp).
Proof.
  unfold insertionSortCmpFunc. apply StronglySorted_rev, sinkAll_descending. constructor.
Qed.

End InsertionSort.

(** Insertion sort meets the contract of [slices.SortFunc]; it is what
    the library runs on the short slices of the examples. *)
#[local] Instance insertionSorter : GoSlices.Sorter := {|
  GoSlices.SortFunc := fun A data cmp => GoSlices.insertionSortCmpFunc data cmp;
  GoSlices.SortFunc_Permutation := fun A data cmp => insertionSortCmpFunc_Permutation cmp data;
  GoSlices.SortFunc_ascending := fun A data cmp H => insertionSortCmpFunc_ascending cmp H data
|}.

Lemma byUnix_StrictWeakOrdering : GoSlices.StrictWeakOrdering byUnix.
Proof.
  split; unfold byUnix, GoSlices.Compare; intros;
    repeat match goal with
           | H : context [?x <? ?y] |- _ => destruct (Z.ltb_spec x y)
           | |- context [?x <? ?y] => destruct (Z.ltb_spec x y)
           end; lia.
Qed.


Lemma StronglySorted_weaken {A : Type} (R R' : A -> A -> Prop) (l : list A) :
  (forall a b, R a b -> R' a b) -> StronglySorted R l -> StronglySorted R' l.
Proof.
  intros HR. induction 1 as [|x l Hl IH Hx]; constructor; [done|].
  eapply Forall_impl; [exact Hx|]. auto.
Qed.

Section RenderingFacts.

Context {sorter : GoSlices.Sorter}.

Lemma SortFunc_byUnix (articles : list Article) :
  StronglySorted unixAscending (GoSlices.SortFunc articles byUnix).
Proof.
  eapply StronglySorted_weaken;
    [|apply GoSlices.SortFunc_ascending, byUnix_StrictWeakOrdering].
  unfold unixAscending, byUnix, GoSlices.Compare. intros a b.
  destruct (Z.ltb_spec (GoTime.Unix (PublishAt b)) (GoTime.Unix (PublishAt a))); lia.
Qed.

Lemma bucket_nil_length (m : gmap string (list Article)) week :
  (length (bucket m week) =? 0)%nat = true <-> bucket m week = [].
Proof. rewrite Nat.eqb_eq. apply length_zero_iff_nil. Qed.

Lemma bucket_lookup (m : gmap string (list Article)) k l :
  m !! k = Some l -> bucket m k = l.
Proof. unfold bucket. by intros ->. Qed.

Lemma bucket_insert_eq (m : gmap string (list Article)) k l :
  bucket (<[k := l]> m) k = l.
Proof. unfold bucket. by rewrite lookup_insert_eq. Qed.

Lemma bucket_insert_ne (m : gmap string (list Article)) k k' l :
  k <> k' -> bucket (<[k := l]> m) k' = bucket m k'.
Proof. intros. unfold bucket. by rewrite lookup_insert_ne. Qed.

(** What one round of the loop does to the output and to the map. *)
Lemma renderWeek_empty output m week :
  bucket m week = [] -> renderWeek (output, m) week = (output, m).
Proof.
  intros Hb. unfold renderWeek. by rewrite Hb.
Qed.

Lemma renderWeek_nonempty output m week :
  bucket m week <> [] ->
  renderWeek (output, m) week =
    (output +:+ weekSection week (GoSlices.SortFunc (bucket m week) byUnix),
     <[week := GoSlices.SortFunc (bucket m week) byUnix]> m).
Proof.
  intros Hb. unfold renderWeek.
  destruct (length (bucket m week) =? 0)%nat eqn:Hlen; [|done].
  by apply bucket_nil_length in Hlen.
Qed.

Lemma SortFunc_sortedBucket (articles : list Article) :
  sortedBucket articles (GoSlices.SortFunc articles byUnix).
Proof. split; [apply GoSlices.SortFunc_Permutation|apply SortFunc_byUnix]. Qed.

Lemma SortFunc_nonempty (articles : list Article) :
  articles <> [] -> GoSlices.SortFunc articles byUnix <> [].
Proof.
  intros Hne Hnil. apply Hne.
  apply Permutation_nil_r. rewrite <- Hnil.
  symmetry. apply GoSlices.SortFunc_Permutation.
Qed.

(** The map after the loop over [weeks]: the buckets of the weeks rendered
    are sorted permutations of what they were, the others are as before. *)
Lemma renderWeeks_map weeks output (m : gmap string (list Article)) k :
  let m' := (fold_left renderWeek weeks (output, m)).2 in
  (k ∈ weeks -> bucket m k <> [] ->
   exists l', m' !! k = Some l' /\ sortedBucket (bucket m k) l')
  /\ (k ∉ weeks \/ bucket m k = [] -> m' !! k = m !! k).
Proof.
  revert output m. induction weeks as [|w weeks IH]; intros output m; cbn [fold_left].
  - split; [by intros ?%elem_of_nil|done].
  - destruct (decide (bucket m w = [])) as [Hw|Hw].
    + rewrite renderWeek_empty by done.
      destruct (IH output m) as [IH1 IH2]. split.
      * intros [->|Hk]%elem_of_cons Hne; [done|]. by apply IH1.
      * intros [Hk|Hk]; apply IH2; [left|by right].
        intros ?. apply Hk. by right.
    + rewrite renderWeek_nonempty by done.
      set (sorted := GoSlices.SortFunc (bucket m w) byUnix).
      destruct (IH (output +:+ weekSection w sorted) (<[w := sorted]> m)) as [IH1 IH2].
      split.
      * intros Hk Hne. destruct (decide (k ∈ weeks)) as [Hin|Hin].
        -- destruct (decide (w = k)) as [->|Hwk].
           ++ destruct IH1 as (l' & Hl' & Hperm & Hsorted); [done| |].
              { rewrite bucket_insert_eq. by apply SortFunc_nonempty. }
              exists l'. split; [done|]. split; [|done].
              rewrite Hperm, bucket_insert_eq. apply GoSlices.SortFunc_Permutation.
           ++ destruct IH1 as (l' & Hl' & Hs); [done| |].
              { by rewrite bucket_insert_ne. }
              exists l'. split; [done|]. by rewrite bucket_insert_ne in Hs.
        -- apply elem_of_cons in Hk as [->|Hk]; [|done].
           exists sorted. split; [|apply SortFunc_sortedBucket].
           rewrite IH2 by (by left). apply lookup_insert_eq.
      * intros Hk. assert (w <> k) as Hwk.
        { intros ->. destruct Hk as [Hk|Hk]; [|done]. apply Hk. by left. }
        rewrite IH2, lookup_insert_ne; [done..|].
        destruct Hk as [Hk|Hk]; [left|right].
        -- intros ?. apply Hk. by right.
        -- by rewrite bucket_insert_ne.
Qed.

End RenderingFacts.


(** ** Rendering: what [generateMarkdown] does to the buckets *)

(** With a template that splits in three, [generateMarkdown] returns; the
    map it leaves is the one the loop over [weeks] leaves. *)
Lemma generateMarkdown_Returns {sorter : GoSlices.Sorter} templateFile template
      (m : gmap string (list Article)) weeks p :
  files p !! templateFile = Some template ->
  length (GoStrings.SplitN template "---" 3) = 3%nat ->
  exists output header,
    generateMarkdown templateFile m weeks p
    = (Returns (output, (fold_left renderWeek weeks (header, m)).2), p).
Proof.
  intros Hfile Hparts. unfold generateMarkdown, bind, os_ReadFile, ret.
  rewrite Hfile. simpl.
  destruct (GoStrings.SplitN template "---" 3) as [|p0 [|p1 [|p2 [|]]]]; try done.
  destruct (fold_left renderWeek weeks _) as [out m1] eqn:Hfold.
  eexists _, _. by rewrite Hfold.
Qed.

(** C10: [generateMarkdown] changes the map it is given.  Run on a
    template that splits in three it returns, and then the bucket of
    every week of [weeks] that is not empty is a permutation of what it
    was, in ascending order of the publish time in whole seconds, and the
    buckets of the keys outside [weeks] are as they were. *)
Theorem generateMarkdown_sorts_buckets {sorter : GoSlices.Sorter} templateFile template
        (m : gmap string (list Article)) weeks p :
  files p !! templateFile = Some template ->
  length (GoStrings.SplitN template "---" 3) = 3%nat ->
  exists output m',
    generateMarkdown templateFile m weeks p = (Returns (output, m'), p)
    /\ forall k,
         (k ∈ weeks -> bucket m k <> [] ->
          exists l', m' !! k = Some l' /\ sortedBucket (bucket m k) l')
         /\ (k ∉ weeks -> m' !! k = m !! k).
Proof.
  intros Hfile Hparts.
  destruct (generateMarkdown_Returns templateFile template m weeks p Hfile Hparts)
    as (output & header & ->).
  eexists _, _. split; [reflexivity|]. intros k.
  destruct (renderWeeks_map weeks header m k) as [H1 H2].
  split; [exact H1|]. intros Hk. apply H2. by left.
Qed.

Lemma generateMarkdown_sorts_buckets_witness :
  exists output m',
    generateMarkdown (sorter := insertionSorter) "template.md"
      {["2025-01" := [articleA; articleB]]} ["2025-01"] (mkProcess [] exampleFiles)
    = (Returns (output, m'), mkProcess [] exampleFiles)
    /\ forall k,
         (k ∈ ["2025-01"] -> bucket {["2025-01" := [articleA; articleB]]} k <> [] ->
          exists l', m' !! k = Some l'
                     /\ sortedBucket (bucket {["2025-01" := [articleA; articleB]]} k) l')
         /\ (k ∉ ["2025-01"] ->
             m' !! k = ({["2025-01" := [articleA; articleB]]} : gmap string (list Article)) !! k).
Proof.
  apply (generateMarkdown_sorts_buckets (sorter := insertionSorter)
           "template.md" "# News---body---bye").
  - vm_compute. reflexivity.
  - vm_compute. reflexivity.
Defined.

(** C5, as the code has it: in the section of a week the lines are in
    ascending order of the publish time in whole seconds, whatever the
    order of the bucket was; an article of an earlier second has its line
    before every line of an article of a later second. *)
Theorem week_section_ascending {sorter : GoSlices.Sorter} output
        (m : gmap string (list Article)) week :
  bucket m week <> [] ->
  exists l',
    (renderWeek (output, m) week).1 = output +:+ weekSection week l'
    /\ Permutation l' (bucket m week)
    /\ forall i j a b,
         l' !! i = Some a -> l' !! j = Some b ->
         GoTime.Unix (PublishAt a) < GoTime.Unix (PublishAt b) -> (i < j)%nat.
Proof.
  intros Hne. exists (GoSlices.SortFunc (bucket m week) byUnix).
  rewrite renderWeek_nonempty by done. split; [done|].
  split; [apply GoSlices.SortFunc_Permutation|].
  intros i j a b Ha Hb Hlt.
  destruct (Nat.lt_trichotomy i j) as [Hij|[->|Hij]]; [done|..].
  - rewrite Ha in Hb. injection Hb as ->. lia.
  - pose proof (StronglySorted_lookup _ _ _ _ _ _ (SortFunc_byUnix (bucket m week)) Hij Hb Ha) as Hba.
    unfold unixAscending in Hba. lia.
Qed.

Lemma week_section_ascending_witness :
  exists l',
    (renderWeek (sorter := insertionSorter) ("", {["2025-01" := [articleA; articleB]]}) "2025-01").1
      = "" +:+ weekSection "2025-01" l'
    /\ Permutation l' (bucket {["2025-01" := [articleA; articleB]]} "2025-01")
    /\ forall i j a b,
         l' !! i = Some a -> l' !! j = Some b ->
         GoTime.Unix (PublishAt a) < GoTime.Unix (PublishAt b) -> (i < j)%nat.
Proof.
  apply (week_section_ascending (sorter := insertionSorter)).
  vm_compute. discriminate.
Defined.

(** C5 as stated fails: of two articles of the same second the strictly
    earlier one can come second.  Here the bucket holds [articleLate]
    before [articleEarly]; the sort compares whole seconds, finds them
    equal, and the section lists them as they were. *)
Lemma week_section_instant_order_counterexample :
  earlier (PublishAt articleEarly) (PublishAt articleLate)
  /\ (renderWeek (sorter := insertionSorter)
        ("", {["2025-01" := [articleLate; articleEarly]]}) "2025-01").1
     = weekSection "2025-01" [articleLate; articleEarly]
  /\ articleLine articleLate <> articleLine articleEarly.
Proof.
  split; [right; simpl; lia|]. split; [vm_compute; reflexivity|].
  vm_compute. discriminate.
Qed.

(** ** The end-to-end example *)

Lemma SortFunc_A_B {sorter : GoSlices.Sorter} :
  GoSlices.SortFunc [articleA; articleB] byUnix = [articleB; articleA].
Proof.
  pose proof (GoSlices.SortFunc_Permutation _ [articleA; articleB] byUnix) as Hperm.
  pose proof (SortFunc_byUnix [articleA; articleB]) as Hsorted.
  symmetry in Hperm. apply Permutation_length_2_inv in Hperm as [Heq|Heq]; [|done].
  rewrite Heq in Hsorted. inversion Hsorted as [|? ? _ Hall]; subst.
  inversion Hall as [|? ? Hab _]; subst.
  unfold unixAscending in Hab. simpl in Hab. lia.
Qed.




(** The whole run in the example environment. *)
Example main_example :
  main (sorter := insertionSorter) exampleEnv (mkProcess [] exampleFiles)
  = (Returns tt,
     mkProcess
       ["Paperboy v.dev (build 20250102)";
        "Feeds: 1";
        "Fetching articles from https://example.com/feed";
        "-> Got 2 articles";
        "-> Sorted and reversed 1 weeks";
        "-> Generated Markdown output";
        "-> Wrote output to news.md";
        "Paperboy finished"]
       (<["news.md" :=
            "# News" +:+ newline +:+ newline
            +:+ weekSection "2025-01" [articleB; articleA]
            +:+ "bye" +:+ newline]> exampleFiles)).
Proof. vm_compute. reflexivity. Qed.

(** ** Programs, logs and files *)

Section ProgFacts.

Context {A B : Type}.

Lemma agree_bind (m1 m2 : Prog A) (f1 f2 : A -> Prog B) :
  agree m1 m2 -> (forall a, agree (f1 a) (f2 a)) -> agree (bind m1 f1) (bind m2 f2).
Proof.
  intros Hm Hf p q Hpq. unfold bind.
  destruct (Hm p q Hpq) as [Ho Hfiles].
  destruct (m1 p) as [o1 p1], (m2 q) as [o2 q2]. simpl in *. subst o2.
  destruct o1 as [a|msg|code]; [by apply Hf|done..].
Qed.

Lemma agree_ret (a : A) : agree (ret a) (ret a).
Proof. by intros p q Hpq. Qed.

Lemma agree_lift (o : Outcome A) : agree (lift o) (lift o).
Proof. by intros p q Hpq. Qed.

Lemma agree_log_Fatalf (line1 line2 : string) :
  agree (log_Fatalf (A := A) line1) (log_Fatalf line2).
Proof. by intros p q Hpq. Qed.

Lemma readonly_bind (m : Prog A) (f : A -> Prog B) :
  readonly m -> (forall a, readonly (f a)) -> readonly (bind m f).
Proof.
  intros Hm Hf p. unfold bind. specialize (Hm p).
  destruct (m p) as [[a|msg|code] p1]; simpl in *; [|done..].
  by rewrite Hf.
Qed.

Lemma readonly_ret (a : A) : readonly (ret a).
Proof. by intros p. Qed.

Lemma readonly_lift (o : Outcome A) : readonly (lift o).
Proof. by intros p. Qed.

Lemma readonly_log_Fatalf (line : string) : readonly (log_Fatalf (A := A) line).
Proof. by intros p. Qed.

End ProgFacts.

Lemma agree_log_Printf (line1 line2 : string) : agree (log_Printf line1) (log_Printf line2).
Proof. by intros p q Hpq. Qed.

Lemma agree_os_ReadFile (name : string) : agree (os_ReadFile name) (os_ReadFile name).
Proof. intros p q Hpq. unfold os_ReadFile. simpl. by rewrite Hpq. Qed.

Lemma agree_os_WriteFile env (name data : string) :
  agree (os_WriteFile env name data) (os_WriteFile env name data).
Proof.
  intros p q Hpq. unfold os_WriteFile.
  destruct (os_WriteFile_error env name); simpl; [done|]. by rewrite Hpq.
Qed.

Lemma readonly_log_Printf (line : string) : readonly (log_Printf line).
Proof. by intros p. Qed.

Lemma readonly_os_ReadFile (name : string) : readonly (os_ReadFile name).
Proof. by intros p. Qed.

Create HintDb prog.

#[local] Hint Resolve agree_ret agree_lift agree_log_Fatalf agree_log_Printf
  agree_os_ReadFile agree_os_WriteFile readonly_ret readonly_lift readonly_log_Fatalf
  readonly_log_Printf readonly_os_ReadFile : prog.

(** ** Fetching: a feed that fails *)

Lemma fetchFeed_agree env g feedURL : agree (fetchFeed env g feedURL) (fetchFeed env g feedURL).
Proof.
  unfold fetchFeed. apply agree_bind; [auto with prog|]. intros _.
  apply agree_bind; [auto with prog|]. intros [articles|err];
    (apply agree_bind; [auto with prog|]); intros _; auto with prog.
Qed.

Lemma fetchFeed_readonly env g feedURL : readonly (fetchFeed env g feedURL).
Proof.
  unfold fetchFeed. apply readonly_bind; [auto with prog|]. intros _.
  apply readonly_bind; [auto with prog|]. intros [articles|err];
    (apply readonly_bind; [auto with prog|]); intros _; auto with prog.
Qed.

Lemma fetchFeeds_readonly env g feeds : readonly (fetchFeeds env g feeds).
Proof.
  revert g. induction feeds as [|feedURL feeds IH]; intros g; simpl; [auto with prog|].
  apply readonly_bind; [apply fetchFeed_readonly|]. intros g'. apply IH.
Qed.

Lemma fetchFeed_failing env g feedURL err p :
  gofeed_ParseURL env feedURL = Err err ->
  fetchFeed env g feedURL p =
    (Returns g,
     mkProcess (logged p ++ ["Fetching articles from " +:+ feedURL;
                             "Error fetching articles from " +:+ feedURL
                             +:+ ": error fetching feed: " +:+ err])
               (files p)).
Proof.
  intros Herr. unfold fetchFeed, fetchArticles, bind, lift, log_Printf, ret.
  rewrite Herr. simpl. by rewrite <- app_assoc.
Qed.

Lemma fetchFeed_setFeed env g feedURL err url :
  gofeed_ParseURL env feedURL = Err err ->
  agree (fetchFeed env g url) (fetchFeed (setFeed env feedURL (Ok [])) g url).
Proof.
  intros Herr. destruct (String.eqb_spec url feedURL) as [->|Hne].
  - intros p q Hpq. rewrite (fetchFeed_failing _ _ _ _ _ Herr).
    unfold fetchFeed, fetchArticles, bind, lift, log_Printf, ret, setFeed. simpl.
    rewrite String.eqb_refl. simpl. done.
  - replace (fetchFeed (setFeed env feedURL (Ok [])) g url) with (fetchFeed env g url);
      [apply fetchFeed_agree|].
    unfold fetchFeed, fetchArticles, setFeed. simpl.
    by destruct (String.eqb_spec url feedURL).
Qed.

Lemma fetchFeeds_setFeed env g feedURL err feeds :
  gofeed_ParseURL env feedURL = Err err ->
  agree (fetchFeeds env g feeds) (fetchFeeds (setFeed env feedURL (Ok [])) g feeds).
Proof.
  intros Herr. revert g. induction feeds as [|url feeds IH]; intros g; simpl; [auto with prog|].
  apply agree_bind; [by eapply fetchFeed_setFeed|]. intros g'. apply IH.
Qed.

Section MainFacts.

Context {sorter : GoSlices.Sorter}.

Lemma generateMarkdown_agree templateFile m weeks :
  agree (generateMarkdown templateFile m weeks) (generateMarkdown templateFile m weeks).
Proof.
  unfold generateMarkdown. apply agree_bind; [auto with prog|]. intros data.
  apply agree_bind; [destruct data; auto with prog|]. intros template.
  destruct (GoStrings.SplitN template "---" 3) as [|p0 [|p1 [|p2 [|]]]]; auto with prog.
  destruct (fold_left _ _ _). auto with prog.
Qed.

Lemma generateMarkdown_readonly templateFile m weeks :
  readonly (generateMarkdown templateFile m weeks).
Proof.
  unfold generateMarkdown. apply readonly_bind; [auto with prog|]. intros data.
  apply readonly_bind; [destruct data; auto with prog|]. intros template.
  destruct (GoStrings.SplitN template "---" 3) as [|p0 [|p1 [|p2 [|]]]]; auto with prog.
  destruct (fold_left _ _ _). auto with prog.
Qed.

(** The part of [main] after the loop over the feeds. *)
Lemma main_setFeed env feedURL err :
  gofeed_ParseURL env feedURL = Err err ->
  agree (main env) (main (setFeed env feedURL (Ok []))).
Proof.
  intros Herr. unfold main.
  apply agree_bind; [auto with prog|]. intros _.
  apply agree_bind; [auto with prog|]. intros data.
  apply agree_bind; [destruct data; auto with prog|]. intros configData.
  apply agree_bind; [simpl; destruct (yaml_Unmarshal env configData); auto with prog|].
  intros config.
  apply agree_bind; [auto with prog|]. intros _.
  apply agree_bind; [by eapply fetchFeeds_setFeed|]. intros [articlesByWeek weeks].
  apply agree_bind; [auto with prog|]. intros _.
  apply agree_bind; [apply generateMarkdown_agree|]. intros rendered.
  apply agree_bind; [auto with prog|]. intros _.
  apply agree_bind; [apply (agree_os_WriteFile env)|]. intros [[]|werr]; [|auto with prog].
  apply agree_bind; auto with prog.
Qed.


Lemma getURLDomain_no_exit urlString code : getURLDomain urlString <> Exits code.
Proof.
  unfold getURLDomain.
  destruct (GoRegexp.MatchString GoRegexp.re_scheme _); [|done].
  by destruct (GoURL.Parse _).
Qed.

Lemma fetchItems_no_exit items articles code : fetchItems articles items <> Exits code.
Proof.
  revert articles. induction items as [|item items IH]; intros articles; simpl; [done|].
  unfold fetchItem. destruct (PublishedParsed item); [|done]. simpl.
  pose proof (getURLDomain_no_exit (Link item)) as Hdomain.
  destruct (getURLDomain (Link item)); simpl; [apply IH|done|by destruct (Hdomain code0)].
Qed.

Lemma fetchFeeds_no_exit env feeds g p code : (fetchFeeds env g feeds p).1 <> Exits code.
Proof.
  revert g p. induction feeds as [|feedURL feeds IH]; intros g p; simpl; [done|].
  unfold bind at 1, fetchFeed, bind, lift, log_Printf, ret, fetchArticles. simpl.
  destruct (gofeed_ParseURL env feedURL) as [items|err]; simpl; [|apply IH].
  pose proof (fetchItems_no_exit items []) as Hitems.
  destruct (fetchItems [] items); simpl; [apply IH|done|by destruct (Hitems code0)].
Qed.

(** ** Rendering: a template that does not split in three *)

Lemma generateMarkdown_malformed templateFile template m weeks p :
  files p !! templateFile = Some template ->
  length (GoStrings.SplitN template "---" 3) <> 3%nat ->
  generateMarkdown templateFile m weeks p =
    (Exits 1, mkProcess (logged p ++ ["Invalid template format"]) (files p)).
Proof.
  intros Hfile Hparts. unfold generateMarkdown, bind, os_ReadFile, ret.
  rewrite Hfile. simpl.
  destruct (GoStrings.SplitN template "---" 3) as [|p0 [|p1 [|p2 [|]]]]; try done.
Qed.

(** C6: when the text of the template does not split on [---] into three
    parts, rendering ends the process through [log.Fatalf] with the
    diagnostic "Invalid template format"; a run of [main] with such a
    template leaves every file as it was and does not complete: it exits
    with that diagnostic, unless it has panicked before, while fetching. *)
Theorem malformed_template_is_fatal (template : string) :
  length (GoStrings.SplitN template "---" 3) <> 3%nat ->
  (forall templateFile m weeks p,
     files p !! templateFile = Some template ->
     generateMarkdown templateFile m weeks p =
       (Exits 1, mkProcess (logged p ++ ["Invalid template format"]) (files p)))
  /\ (forall env p configData config,
        files p !! "config.yaml" = Some configData ->
        yaml_Unmarshal env configData = Ok config ->
        files p !! Template config = Some template ->
        files (main env p).2 = files p
        /\ (((main env p).1 = Exits 1
             /\ last (logged (main env p).2) = Some "Invalid template format")
            \/ exists msg, (main env p).1 = Panics msg)).
Proof.
  intros Hparts. split.
  - intros templateFile m weeks p Hfile. by apply (generateMarkdown_malformed _ template).
  - intros env p configData config Hconfig Hyaml Hfile.
    remember (main env p) as r eqn:Hr.
    unfold main, bind at 1 2 3 4 5 6, log_Printf at 1 2, os_ReadFile, ret in Hr.
    simpl in Hr. rewrite Hconfig in Hr. simpl in Hr. rewrite Hyaml in Hr. simpl in Hr.
    match type of Hr with
    | context [fetchFeeds env ?g ?feeds ?q] =>
        pose proof (fetchFeeds_readonly env g feeds q) as Hfiles;
        pose proof (fetchFeeds_no_exit env feeds g q) as Hexit;
        destruct (fetchFeeds env g feeds q) as [[[articlesByWeek weeks]|msg|code] p1]
    end; simpl in Hfiles, Hr.
    + unfold bind at 1 2, log_Printf at 1 in Hr. simpl in Hr.
      rewrite (generateMarkdown_malformed _ template) in Hr by (simpl; congruence).
      subst r. simpl. split; [done|]. left. split; [done|]. apply last_snoc.
    + subst r. split; [done|]. right. by exists msg.
    + by destruct (Hexit code).
Qed.


End MainFacts.

Lemma malformed_template_is_fatal_witness :
  let p := mkProcess [] (<["template.md" := "# News---no footer"]> exampleFiles) in
  files (main (sorter := insertionSorter) exampleEnv p).2 = files p
  /\ (((main (sorter := insertionSorter) exampleEnv p).1 = Exits 1
       /\ last (logged (main (sorter := insertionSorter) exampleEnv p).2)
          = Some "Invalid template format")
      \/ exists msg, (main (sorter := insertionSorter) exampleEnv p).1 = Panics msg).
Proof.
  refine (proj2 (malformed_template_is_fatal (sorter := insertionSorter)
                   "# News---no footer" _)
                exampleEnv _ "template: template.md"
                (mkConfig "template.md" "news.md" [exampleFeed]) _ _ _).
  - vm_compute. discriminate.
  - vm_compute. reflexivity.
  - reflexivity.
  - vm_compute. reflexivity.
Defined.


(** ** Strings *)

Module StringFacts.

Import GoStrings.

Lemma append_cons c s t : String c s +:+ t = String c (s +:+ t).
Proof. reflexivity. Qed.

Lemma append_nil_l s : "" +:+ s = s.
Proof. reflexivity. Qed.

Lemma append_nil_r s : s +:+ "" = s.
Proof. induction s as [|c s IH]; [done|]. by rewrite append_cons, IH. Qed.

Lemma append_assoc s1 s2 s3 : (s1 +:+ s2) +:+ s3 = s1 +:+ (s2 +:+ s3).
Proof. induction s1 as [|c s1 IH]; [done|]. by rewrite !append_cons, IH. Qed.

Lemma length_append s1 s2 :
  String.length (s1 +:+ s2) = (String.length s1 + String.length s2)%nat.
Proof. induction s1 as [|c s1 IH]; [done|]. rewrite append_cons. simpl. by rewrite IH. Qed.

Lemma drop_append s1 s2 : drop (String.length s1) (s1 +:+ s2) = s2.
Proof. induction s1 as [|c s1 IH]; [done|]. by rewrite append_cons. Qed.

Lemma drop_length s : drop (String.length s) s = "".
Proof. induction s as [|c s IH]; [done|]. by simpl. Qed.

Lemma take_length s : take (String.length s) s = s.
Proof. induction s as [|c s IH]; [done|]. simpl. by rewrite IH. Qed.

Lemma rev_append s1 s2 : rev (s1 +:+ s2) = rev s2 +:+ rev s1.
Proof.
  induction s1 as [|c s1 IH]; [by rewrite append_nil_r|].
  rewrite append_cons. simpl. by rewrite IH, append_assoc.
Qed.

Lemma rev_involutive s : rev (rev s) = s.
Proof.
  induction s as [|c s IH]; [done|].
  simpl. rewrite rev_append. simpl. by rewrite IH.
Qed.

End StringFacts.

(** ** The patterns of [getURLDomain] *)

Section RegexpFacts.

Import GoStrings GoRegexp StringFacts.

Lemma find_run_Some r pos s e :
  run r pos s (fun p _ => Some p) = Some e -> find r pos s = Some (pos, e).
Proof. intros Hrun. destruct s; cbn [find]; by rewrite Hrun. Qed.

Lemma find_anchored r pos s : find (Concat BeginText r) (S pos) s = None.
Proof.
  revert pos. induction s as [|c s IH]; intros pos; simpl; [done|]. apply IH.
Qed.

Lemma find_anchored_0 r s :
  find (Concat BeginText r) 0 s =
    match run r 0 s (fun p _ => Some p) with
    | Some e => Some (0%nat, e)
    | None => None
    end.
Proof.
  destruct s as [|c s]; simpl; [by destruct (run r 0 "" _)|].
  rewrite find_anchored. done.
Qed.

(** [^https?] matches exactly the strings that begin with "http". *)
Lemma MatchString_scheme s : MatchString re_scheme s = HasPrefix s "http".
Proof.
  unfold MatchString, re_scheme. rewrite find_anchored_0.
  destruct s as [|c1 [|c2 [|c3 [|c4 s]]]]; simpl; try done;
    repeat (match goal with
            | |- context [Ascii.eqb ?c ?d] => destruct (Ascii.eqb c d); simpl; try done
            end).
  destruct s as [|c5 s]; [done|]. by destruct (Ascii.eqb c5 "s").
Qed.

(** [^www\.] matches exactly the strings that begin with "www.". *)
Lemma MatchString_www s : MatchString re_www s = HasPrefix s "www.".
Proof.
  unfold MatchString, re_www. rewrite find_anchored_0.
  destruct s as [|c1 [|c2 [|c3 [|c4 s]]]]; simpl; try done;
    repeat (match goal with
            | |- context [Ascii.eqb ?c ?d] => destruct (Ascii.eqb c d); simpl; try done
            end).
  by destruct s.
Qed.

(** The greedy iteration of the class: the continuation is tried after
    the longest run of label bytes first, then after shorter ones. *)
Lemma firstFrom_cons k pos c s n :
  firstFrom k pos (String c s) (S n) =
    match firstFrom k (S pos) s n with
    | Some e => Some e
    | None => k (S pos) s
    end.
Proof.
  induction n as [|n IH].
  - simpl. replace (pos + 1)%nat with (S pos) by lia. by destruct (k (S pos) s).
  - remember (S n) as m eqn:Hm. cbn [firstFrom]. rewrite IH. subst m.
    cbn [firstFrom drop]. replace (pos + S (S n))%nat with (S pos + S n)%nat by lia.
    by destruct (k (S pos + S n)%nat _).
Qed.

Lemma plusLoop_class k fuel pos s :
  (String.length s <= S fuel)%nat ->
  plusLoop (run (CharClass label_class)) k fuel pos s = firstFrom k pos s (span s).
Proof.
  revert pos s. induction fuel as [|fuel IH]; intros pos s Hlen.
  - destruct s as [|c s]; simpl; [done|].
    fold (isLabelChar c). destruct (isLabelChar c); [|done].
    destruct s; [|simpl in Hlen; lia]. simpl.
    replace (pos + 1)%nat with (S pos) by lia. by destruct (k (S pos) "").
  - destruct s as [|c s]; [done|].
    cbn [plusLoop run span]. fold (isLabelChar c). destruct (isLabelChar c); [|done].
    rewrite firstFrom_cons.
    replace (String.length s <? String.length (String c s))%nat with true
      by (symmetry; apply Nat.ltb_lt; simpl; lia).
    rewrite IH by (simpl in Hlen; lia). done.
Qed.

Lemma run_plus_class k pos s :
  run (Plus (CharClass label_class)) pos s k = firstFrom k pos s (span s).
Proof. simpl. apply plusLoop_class. lia. Qed.

Lemma run_Group r pos s (k : Cont) : run (Group r) pos s k = run r pos s k.
Proof. reflexivity. Qed.

Lemma run_Concat r1 r2 pos s (k : Cont) :
  run (Concat r1 r2) pos s k = run r1 pos s (fun p s' => run r2 p s' k).
Proof. reflexivity. Qed.

Lemma run_Plus r pos s (k : Cont) :
  run (Plus r) pos s k = plusLoop (run r) k (String.length s) pos s.
Proof. reflexivity. Qed.

Lemma run_Lit_cons c c' pos s (k : Cont) :
  run (Lit c) pos (String c' s) k = if Ascii.eqb c' c then k (S pos) s else None.
Proof. reflexivity. Qed.

Lemma run_Lit_nil c pos (k : Cont) : run (Lit c) pos "" k = None.
Proof. reflexivity. Qed.

Lemma isLabelChar_not_dot c : isLabelChar c = true -> Ascii.eqb c "." = false.
Proof.
  intros Hc. destruct (Ascii.eqb_spec c ".") as [->|]; [|done]. vm_compute in Hc. done.
Qed.

Lemma span_label l rest :
  allLabelChars l = true -> span (l +:+ rest) = (String.length l + span rest)%nat.
Proof.
  induction l as [|c l IH]; [done|]. rewrite append_cons. simpl.
  intros [Hc Hl]%andb_prop. rewrite Hc. by rewrite IH.
Qed.

Lemma span_label_dot l rest :
  allLabelChars l = true -> span (l +:+ String "." rest) = String.length l.
Proof. intros Hl. rewrite span_label by done. simpl. lia. Qed.

Lemma span_label_end l : allLabelChars l = true -> span l = String.length l.
Proof.
  intros Hl. rewrite <- (append_nil_r l) at 1. rewrite span_label by done. simpl. lia.
Qed.

Lemma drop_below_span n s :
  (n < span s)%nat -> exists c s', drop n s = String c s' /\ isLabelChar c = true.
Proof.
  revert s. induction n as [|n IH]; intros [|c s]; simpl; try lia.
  - destruct (isLabelChar c) eqn:Hc; [eauto|lia].
  - destruct (isLabelChar c); [|lia]. intros Hn. apply IH. lia.
Qed.

(** After fewer label bytes than the run has, no dot follows. *)
Lemma firstFrom_dot_short (kk : Cont) pos s n :
  (n < span s)%nat ->
  firstFrom (fun p s1 => run (Lit ".") p s1 kk) pos s n = None.
Proof.
  induction n as [|n IH]; [done|]. intros Hn. cbn [firstFrom].
  destruct (drop_below_span (S n) s Hn) as (c & s' & -> & Hc).
  rewrite run_Lit_cons, (isLabelChar_not_dot c Hc). apply IH. lia.
Qed.

(** One round of the group [([a-z0-9\-]+\.)]: the whole run of label
    bytes, then a dot. *)
Lemma run_group (kk : Cont) pos s :
  run (Group (Concat (Plus (CharClass label_class)) (Lit "."))) pos s kk =
    match span s with
    | O => None
    | S n => run (Lit ".") (pos + S n) (drop (S n) s) kk
    end.
Proof.
  rewrite run_Group, run_Concat, run_Plus, plusLoop_class by lia.
  destruct (span s) as [|n] eqn:Hspan; [done|].
  cbn [firstFrom]. rewrite firstFrom_dot_short by lia.
  by destruct (run (Lit ".") _ _ _).
Qed.

Lemma plusLoop_unfold step (k : Cont) fuel pos s :
  plusLoop step k fuel pos s =
    step pos s (fun p s' =>
      match fuel with
      | O => k p s'
      | S f =>
          if (String.length s' <? String.length s)%nat then
            match plusLoop step k f p s' with
            | Some e => Some e
            | None => k p s'
            end
          else k p s'
      end).
Proof. by destruct fuel. Qed.

Lemma isLabel_length l : isLabel l -> (0 < String.length l)%nat.
Proof. intros [Hne _]. destruct l; [done|simpl; lia]. Qed.

Lemma concat_cons_cons sep (l l2 : string) ls :
  String.concat sep (l :: l2 :: ls) = l +:+ sep +:+ String.concat sep (l2 :: ls).
Proof. reflexivity. Qed.

(** The iteration of the group over a bare domain of two or more labels
    takes all labels but the last, which the closing [[a-z0-9\-]+]
    takes. *)
Lemma plusLoop_bareDomain ls l fuel pos :
  isLabel l -> Forall isLabel ls -> ls <> [] ->
  (String.length (bareDomain (l :: ls)) <= fuel)%nat ->
  plusLoop (run (Group (Concat (Plus (CharClass label_class)) (Lit "."))))
           (fun p s' => run (Plus (CharClass label_class)) p s' (fun p _ => Some p))
           fuel pos (bareDomain (l :: ls))
  = Some (pos + String.length (bareDomain (l :: ls)))%nat.
Proof.
  revert l fuel pos. induction ls as [|l2 ls IH]; intros l fuel pos Hl Hls Hne Hfuel; [done|].
  clear Hne. inversion Hls as [|? ? Hl2 Hls']; subst.
  unfold bareDomain in *. rewrite concat_cons_cons in *.
  set (rest := String.concat "." (l2 :: ls)) in *.
  pose proof (isLabel_length l Hl) as Hlen. destruct Hl as [_ Hl].
  rewrite !length_append in *. simpl String.length in *.
  destruct fuel as [|fuel]; [lia|].
  rewrite plusLoop_unfold, run_group.
  change ("." +:+ rest) with (String "." rest).
  rewrite span_label_dot by done.
  destruct (String.length l) as [|n] eqn:Hn; [lia|]. rewrite <- Hn.
  rewrite drop_append, run_Lit_cons, Ascii.eqb_refl.
  rewrite length_append. simpl String.length.
  replace (String.length rest <? String.length l + S (String.length rest))%nat with true
    by (symmetry; apply Nat.ltb_lt; lia).
  destruct ls as [|l3 ls].
  - (* [l2] is the last label *)
    subst rest. simpl String.concat in *.
    pose proof (isLabel_length l2 Hl2) as Hlen2. destruct Hl2 as [_ Hl2].
    rewrite plusLoop_unfold, run_group, span_label_end by done.
    destruct (String.length l2) as [|n2] eqn:Hn2; [lia|]. rewrite <- Hn2.
    rewrite drop_length, run_Lit_nil.
    rewrite run_plus_class, span_label_end, Hn2 by done. cbn [firstFrom].
    f_equal. lia.
  - rewrite (IH l2); try done.
    + subst rest. rewrite ?concat_cons_cons. f_equal. lia.
    + subst rest. rewrite ?concat_cons_cons in *. lia.
Qed.

(** On a bare domain of two or more labels the pattern finds the whole
    input. *)
Lemma FindString_bareDomain labels :
  (2 <= length labels)%nat -> Forall isLabel labels ->
  FindString re_domain (bareDomain labels) = bareDomain labels.
Proof.
  intros Hlen Hlabels. destruct labels as [|l ls]; [simpl in Hlen; lia|].
  inversion Hlabels as [|? ? Hl Hls]; subst.
  unfold FindString.
  assert (Hfind : find re_domain 0 (bareDomain (l :: ls))
                  = Some (0%nat, String.length (bareDomain (l :: ls)))).
  { assert (Hrun : run re_domain 0 (bareDomain (l :: ls)) (fun p _ => Some p)
                   = Some (String.length (bareDomain (l :: ls)))).
    { unfold re_domain. rewrite run_Concat, run_Plus, plusLoop_bareDomain; try done.
      destruct ls; [simpl in Hlen; lia|done]. }
    by apply find_run_Some. }
  rewrite Hfind. unfold slice. simpl drop. rewrite Nat.sub_0_r. apply take_length.
Qed.

End RegexpFacts.

(** ** [TrimSpace] on strings that begin and end with a label byte *)

Section TrimSpaceFacts.

Import GoStrings StringFacts.

Lemma isLabelChar_code c :
  isLabelChar c = true ->
  (N_of_ascii c = 45 \/ 48 <= N_of_ascii c <= 57 \/ 97 <= N_of_ascii c <= 122)%N.
Proof.
  unfold isLabelChar, GoRegexp.label_class, GoRegexp.inClass.
  change (N_of_ascii "a") with 97%N. change (N_of_ascii "z") with 122%N.
  change (N_of_ascii "0") with 48%N. change (N_of_ascii "9") with 57%N.
  change (N_of_ascii "-") with 45%N.
  rewrite !orb_true_iff, !andb_true_iff, !N.leb_le. intros [?|[?|[?|?]]]; [lia..|done].
Qed.

Lemma asciiSpace_labelChar c : isLabelChar c = true -> asciiSpace c = false.
Proof.
  intros Hc%isLabelChar_code. unfold asciiSpace.
  apply orb_false_iff. split; [apply andb_false_iff|apply N.eqb_neq; lia].
  destruct (N.leb_spec 9 (N_of_ascii c)); [right; apply N.leb_gt; lia|by left].
Qed.

(** No white-space rune begins with a label byte, and none ends with one. *)
Lemma spaceRuneLen_labelChar c s : isLabelChar c = true -> spaceRuneLen (String c s) = O.
Proof.
  intros Hc. unfold spaceRuneLen. rewrite (asciiSpace_labelChar c Hc).
  apply isLabelChar_code in Hc.
  destruct s as [|c1 [|c2 s]]; [done|..]; cbv zeta.
  - destruct (N.eqb_spec (N_of_ascii c) 194); [lia|done].
  - destruct (N.eqb_spec (N_of_ascii c) 194); [lia|]. simpl.
    destruct (N.eqb_spec (N_of_ascii c) 225); [lia|].
    destruct (N.eqb_spec (N_of_ascii c) 226); [lia|].
    destruct (N.eqb_spec (N_of_ascii c) 227); [lia|]. done.
Qed.

Lemma spaceRuneLen_2_last c1 c : spaceRuneLen (String c1 (String c "")) = 2%nat ->
  (128 <= N_of_ascii c)%N.
Proof.
  unfold spaceRuneLen. destruct (asciiSpace c1); [done|]. cbv zeta.
  destruct (N.eqb_spec (N_of_ascii c) 133); [lia|].
  destruct (N.eqb_spec (N_of_ascii c) 160); [lia|].
  by rewrite andb_false_r.
Qed.

Lemma spaceRuneLen_3_last c2 c1 c :
  spaceRuneLen (String c2 (String c1 (String c ""))) = 3%nat -> (128 <= N_of_ascii c)%N.
Proof.
  unfold spaceRuneLen. destruct (asciiSpace c2); [done|]. cbv zeta.
  destruct (_ && (_ || _))%bool; [done|].
  destruct (N.leb_spec 128 (N_of_ascii c)) as [|Hlt]; [done|].
  replace (N_of_ascii c =? 128)%N with false by (symmetry; apply N.eqb_neq; lia).
  replace (N_of_ascii c =? 168)%N with false by (symmetry; apply N.eqb_neq; lia).
  replace (N_of_ascii c =? 169)%N with false by (symmetry; apply N.eqb_neq; lia).
  replace (N_of_ascii c =? 175)%N with false by (symmetry; apply N.eqb_neq; lia).
  replace (N_of_ascii c =? 159)%N with false by (symmetry; apply N.eqb_neq; lia).
  by rewrite !andb_false_r.
Qed.

Lemma spaceRuneLenRev_labelChar c r : isLabelChar c = true -> spaceRuneLenRev (String c r) = O.
Proof.
  intros Hc. unfold spaceRuneLenRev. rewrite (asciiSpace_labelChar c Hc).
  apply isLabelChar_code in Hc.
  destruct r as [|c1 r]; [done|].
  destruct (Nat.eqb_spec (spaceRuneLen (String c1 (String c ""))) 2) as [H2|_].
  { apply spaceRuneLen_2_last in H2. lia. }
  destruct r as [|c2 r]; [done|].
  destruct (Nat.eqb_spec (spaceRuneLen (String c2 (String c1 (String c "")))) 3) as [H3|_];
    [|done].
  apply spaceRuneLen_3_last in H3. lia.
Qed.

Lemma TrimSpace_labelChars c t c' r :
  isLabelChar c = true -> isLabelChar c' = true ->
  rev (String c t) = String c' r ->
  TrimSpace (String c t) = String c t.
Proof.
  intros Hc Hc' Hrev. unfold TrimSpace.
  assert (Hleft : forall fuel, trimLeftSpace fuel (String c t) = String c t).
  { intros [|fuel]; [done|]. cbn [trimLeftSpace]. by rewrite spaceRuneLen_labelChar. }
  rewrite Hleft, Hrev.
  assert (Hright : forall fuel, trimRightSpaceRev fuel (String c' r) = String c' r).
  { intros [|fuel]; [done|]. cbn [trimRightSpaceRev]. by rewrite spaceRuneLenRev_labelChar. }
  rewrite Hright, <- Hrev. apply rev_involutive.
Qed.

Lemma rev_label_head l :
  isLabel l -> exists c' r, rev l = String c' r /\ isLabelChar c' = true.
Proof.
  intros [Hne Hall]. induction l as [|c l IH]; [done|].
  simpl in Hall. apply andb_prop in Hall as [Hc Hl].
  destruct l as [|c1 l].
  - exists c, "". done.
  - destruct IH as (c' & r & Hrev & Hc'); [done..|].
    exists c', (r +:+ String c ""). split; [|done].
    change (rev (String c (String c1 l))) with (rev (String c1 l) +:+ String c "").
    by rewrite Hrev.
Qed.

Lemma rev_bareDomain_head labels :
  labels <> [] -> Forall isLabel labels ->
  exists c' r, rev (bareDomain labels) = String c' r /\ isLabelChar c' = true.
Proof.
  induction labels as [|l labels IH]; [done|]. intros _ Hall.
  inversion Hall as [|? ? Hl Hlabels]; subst.
  destruct labels as [|l2 labels]; [by apply rev_label_head|].
  destruct IH as (c' & r & Hrev & Hc'); [done..|].
  unfold bareDomain in *. rewrite concat_cons_cons, !rev_append, Hrev.
  exists c', ((r +:+ rev ".") +:+ rev l). by rewrite <- !append_cons.
Qed.

Lemma bareDomain_head l labels :
  isLabel l -> exists c t, bareDomain (l :: labels) = String c t /\ isLabelChar c = true.
Proof.
  intros [Hne Hall]. destruct l as [|c l]; [done|].
  simpl in Hall. apply andb_prop in Hall as [Hc _].
  destruct labels as [|l2 labels]; [by exists c, l|].
  unfold bareDomain. rewrite concat_cons_cons, append_cons. eauto.
Qed.

Lemma TrimSpace_bareDomain labels :
  labels <> [] -> Forall isLabel labels ->
  TrimSpace (bareDomain labels) = bareDomain labels.
Proof.
  intros Hne Hall.
  destruct (rev_bareDomain_head labels Hne Hall) as (c' & r & Hrev & Hc').
  destruct labels as [|l labels]; [done|]. inversion Hall; subst.
  destruct (bareDomain_head l labels) as (c & t & Heq & Hc); [done|].
  rewrite Heq in *. by apply (TrimSpace_labelChars c t c' r).
Qed.

End TrimSpaceFacts.

(** ** [getURLDomain] *)

(** C3, as the code has it: a bare domain of two or more labels that
    begins neither with "http" nor with "www." is returned unchanged. *)
Theorem getURLDomain_bareDomain (labels : list string) :
  (2 <= length labels)%nat ->
  Forall isLabel labels ->
  GoStrings.HasPrefix (bareDomain labels) "http" = false ->
  GoStrings.HasPrefix (bareDomain labels) "www." = false ->
  getURLDomain (bareDomain labels) = Returns (bareDomain labels).
Proof.
  intros Hlen Hlabels Hhttp Hwww. unfold getURLDomain.
  assert (Hne : labels <> []) by (destruct labels; [simpl in Hlen; lia|done]).
  rewrite TrimSpace_bareDomain by done.
  rewrite MatchString_scheme, Hhttp. simpl.
  rewrite MatchString_www, Hwww.
  by rewrite FindString_bareDomain.
Qed.

Lemma isLabel_example : Forall isLabel ["example"; "com"].
Proof. repeat constructor; discriminate. Qed.

Lemma getURLDomain_bareDomain_witness :
  getURLDomain (bareDomain ["example"; "com"]) = Returns (bareDomain ["example"; "com"]).
Proof.
  apply getURLDomain_bareDomain;
    [simpl; lia | exact isLabel_example | reflexivity | reflexivity].
Defined.

(** C3 as stated fails on a single label: the pattern asks for a dot. *)
Lemma getURLDomain_single_label_counterexample :
  ~ (forall labels, labels <> [] -> Forall isLabel labels ->
       getURLDomain (bareDomain labels) = Returns (bareDomain labels)).
Proof.
  intros Hclaim. specialize (Hclaim ["localhost"]).
  assert (Hresult : getURLDomain (bareDomain ["localhost"]) = Returns "")
    by (vm_compute; reflexivity).
  rewrite Hresult in Hclaim. discriminate Hclaim; [done|].
  repeat constructor; discriminate.
Qed.

(** A bare domain that begins with "www." loses that label, and one that
    begins with "http" is taken for a URL with a scheme, whose host is
    empty. *)
Example getURLDomain_www : getURLDomain "www.example.com" = Returns "example.com".
Proof. vm_compute. reflexivity. Qed.

Example getURLDomain_httpbin : getURLDomain "httpbin.org" = Returns "".
Proof. vm_compute. reflexivity. Qed.

Example getURLDomain_documented : getURLDomain "https://example.com" = Returns "example.com".
Proof. vm_compute. reflexivity. Qed.

Example getURLDomain_mixed_case : getURLDomain "https://Example.com/a" = Returns "xample.com".
Proof. vm_compute. reflexivity. Qed.

Example getURLDomain_not_a_url : getURLDomain "not a url" = Returns "".
Proof. vm_compute. reflexivity. Qed.

(** C2 on the code: when the trimmed input begins with "http" and
    [url.Parse] fails, [read] is nil and [read.Host] panics. *)
Theorem getURLDomain_parse_failure (urlString : string) :
  GoStrings.HasPrefix (GoStrings.TrimSpace urlString) "http" = true ->
  GoURL.Parse (GoStrings.TrimSpace urlString) = None ->
  getURLDomain urlString = Panics nilDereference.
Proof.
  intros Hscheme Hparse. unfold getURLDomain.
  by rewrite MatchString_scheme, Hscheme, Hparse.
Qed.

Lemma getURLDomain_parse_failure_witness :
  getURLDomain "https://example.com/sale-50%-off" = Panics nilDereference.
Proof.
  apply getURLDomain_parse_failure; vm_compute; reflexivity.
Defined.

(** ** The calendar of package [time] *)

Section Calendar.

Import GoTime.

Lemma absYearDay_spec (a : Z) :
  0 <= a ->
  exists y d,
    absYearDay a = (y + absoluteZeroYear, d)
    /\ 0 <= y
    /\ absDaysToYear y + d = a / secondsPerDay
    /\ 0 <= d < absDaysToYear (y + 1) - absDaysToYear y.
Proof.
  intros Ha. unfold absYearDay.
  set (D := a / secondsPerDay).
  assert (HD : 0 <= D) by (apply Z.div_pos; [done|unfold secondsPerDay; lia]).
  unfold daysPer400Years, daysPer100Years, daysPer4Years.
  rewrite !Z.shiftr_div_pow2 by lia. change (2 ^ 2) with 4.
  change (365 * 400 + 97) with 146097. change (365 * 100 + 24) with 36524.
  change (365 * 4 + 1) with 1461.
  set (n400 := D / 146097).
  set (r1 := D - 146097 * n400).
  set (q100 := r1 / 36524).
  set (n100 := q100 - q100 / 4).
  set (r2 := r1 - 36524 * n100).
  set (n4 := r2 / 1461).
  set (r3 := r2 - 1461 * n4).
  set (q1 := r3 / 365).
  set (n1 := q1 - q1 / 4).
  eexists _, _. split; [reflexivity|].
  pose proof (Z.div_mod D 146097 ltac:(lia)) as E1.
  pose proof (Z.mod_pos_bound D 146097 ltac:(lia)) as B1. fold n400 in E1.
  assert (Hr1 : 0 <= r1 < 146097) by (unfold r1; lia).
  assert (Hn400 : 0 <= n400) by (apply Z.div_pos; lia).
  pose proof (Z.div_mod r1 36524 ltac:(lia)) as E2.
  pose proof (Z.mod_pos_bound r1 36524 ltac:(lia)) as B2. fold q100 in E2.
  assert (Hq100 : 0 <= q100 <= 4) by lia.
  assert (Hn100 : n100 = q100 /\ q100 <= 3 \/ n100 = 3 /\ q100 = 4).
  { unfold n100. destruct (Z.eq_dec q100 4) as [->|]; [by right|left].
    rewrite Z.div_small by lia. lia. }
  pose proof (Z.div_mod r2 1461 ltac:(lia)) as E3.
  pose proof (Z.mod_pos_bound r2 1461 ltac:(lia)) as B3. fold n4 in E3.
  assert (Hr2 : 0 <= r2 <= 36524) by (unfold r2; lia).
  assert (Hn4 : 0 <= n4 <= 24) by lia.
  pose proof (Z.div_mod r3 365 ltac:(lia)) as E4.
  pose proof (Z.mod_pos_bound r3 365 ltac:(lia)) as B4. fold q1 in E4.
  assert (Hr3 : 0 <= r3 < 1461) by (unfold r3; lia).
  assert (Hq1 : 0 <= q1 <= 4) by lia.
  assert (Hn1 : n1 = q1 /\ q1 <= 3 \/ n1 = 3 /\ q1 = 4).
  { unfold n1. destruct (Z.eq_dec q1 4) as [->|]; [by right|left].
    rewrite Z.div_small by lia. lia. }
  set (y := 400 * n400 + 100 * n100 + 4 * n4 + n1).
  set (d := r3 - 365 * n1).
  assert (Hy4 : y / 4 = 100 * n400 + 25 * n100 + n4).
  { symmetry. apply (Z.div_unique y 4 _ n1); unfold y; lia. }
  assert (Hy100 : y / 100 = 4 * n400 + n100).
  { symmetry. apply (Z.div_unique y 100 _ (4 * n4 + n1)); unfold y; lia. }
  assert (Hy400 : y / 400 = n400).
  { symmetry. apply (Z.div_unique y 400 _ (100 * n100 + 4 * n4 + n1)); unfold y; lia. }
  split; [unfold y; lia|].
  split; [unfold absDaysToYear; rewrite Hy4, Hy100, Hy400; unfold d, r3, r2, r1, y; lia|].
  unfold absDaysToYear. rewrite Hy4, Hy100, Hy400.
  pose proof (Z.div_mod (y + 1) 4 ltac:(lia)) as F4.
  pose proof (Z.mod_pos_bound (y + 1) 4 ltac:(lia)) as G4.
  pose proof (Z.div_mod (y + 1) 100 ltac:(lia)) as F100.
  pose proof (Z.mod_pos_bound (y + 1) 100 ltac:(lia)) as G100.
  pose proof (Z.div_mod (y + 1) 400 ltac:(lia)) as F400.
  pose proof (Z.mod_pos_bound (y + 1) 400 ltac:(lia)) as G400.
  unfold d, r3, r2, r1, y in *. lia.
Qed.

Lemma absEpoch_seconds : unixToInternal + internalToAbsolute = absEpochDay * secondsPerDay.
Proof. reflexivity. Qed.

Lemma daysToYear_abs y : daysToYear (y + absoluteZeroYear) = absDaysToYear y - absEpochDay.
Proof.
  unfold daysToYear, absDaysToYear, leapYearsThrough, absoluteZeroYear, absEpochDay.
  replace (y + -292277022399 - 1) with (y + (-73069255600) * 4) at 1 by lia.
  replace (y + -292277022399 - 1) with (y + (-2922770224) * 100) at 1 by lia.
  replace (y + -292277022399 - 1) with (y + (-730692556) * 400) by lia.
  rewrite !Z.div_add by lia.
  change (1969 / 4) with 492. change (1969 / 100) with 19. change (1969 / 400) with 4.
  lia.
Qed.

Lemma absDaysToYear_step y : 365 <= absDaysToYear (y + 1) - absDaysToYear y <= 366.
Proof.
  unfold absDaysToYear.
  pose proof (Z.div_mod y 4 ltac:(lia)). pose proof (Z.mod_pos_bound y 4 ltac:(lia)).
  pose proof (Z.div_mod y 100 ltac:(lia)). pose proof (Z.mod_pos_bound y 100 ltac:(lia)).
  pose proof (Z.div_mod y 400 ltac:(lia)). pose proof (Z.mod_pos_bound y 400 ltac:(lia)).
  pose proof (Z.div_mod (y + 1) 4 ltac:(lia)). pose proof (Z.mod_pos_bound (y + 1) 4 ltac:(lia)).
  pose proof (Z.div_mod (y + 1) 100 ltac:(lia)).
  pose proof (Z.mod_pos_bound (y + 1) 100 ltac:(lia)).
  pose proof (Z.div_mod (y + 1) 400 ltac:(lia)).
  pose proof (Z.mod_pos_bound (y + 1) 400 ltac:(lia)).
  lia.
Qed.

Lemma absWeekday_day a :
  0 <= a -> a + secondsPerDay < 2 ^ 64 ->
  absWeekday a = (a / secondsPerDay + 1) mod 7.
Proof.
  intros Ha Hmax. unfold absWeekday, uint64, Monday, secondsPerWeek, secondsPerDay in *.
  rewrite (Z.mod_small (a + 1 * 86400)) by lia.
  replace (7 * 86400) with (86400 * 7) by lia.
  rewrite Z.rem_mul_r by lia.
  rewrite (Z.mul_comm 86400), Z.div_add by lia.
  rewrite Z.div_add by lia.
  rewrite (Z.div_small ((a + 1 * 86400) mod 86400)) by (apply Z.mod_pos_bound; lia).
  lia.
Qed.

Lemma uint64_shift a d :
  -3 <= d <= 3 -> 3 * secondsPerDay <= a -> a + 3 * secondsPerDay < 2 ^ 64 ->
  uint64 (a + uint64 d * secondsPerDay) = a + d * secondsPerDay.
Proof.
  intros Hd Hlo Hhi. unfold uint64, secondsPerDay in *.
  rewrite <- Z.add_mod_idemp_r, Z.mul_mod_idemp_l, Z.add_mod_idemp_r by lia.
  apply Z.mod_small. lia.
Qed.

Lemma abs_UTC t :
  zoneOffset t = 0 -> inCalendarRange t ->
  abs t = unixSec t + absEpochDay * secondsPerDay
  /\ 3 * secondsPerDay <= abs t
  /\ abs t + 3 * secondsPerDay < 2 ^ 64.
Proof.
  unfold inCalendarRange, abs, uint64. rewrite absEpoch_seconds. intros -> Hrange.
  unfold absEpochDay, secondsPerDay in *.
  rewrite Z.mod_small by lia. lia.
Qed.

(** [ISOWeek] computes the week of the ISO 8601 calendar. *)
Lemma ISOWeek_spec t :
  zoneOffset t = 0 -> inCalendarRange t ->
  exists year week,
    ISOWeek t = (year, week) /\ isISOWeek (unixDay t) year week /\ 1 <= week <= 53.
Proof.
  intros Hzone Hrange. destruct (abs_UTC t Hzone Hrange) as (Habs & Hlo & Hhi).
  unfold ISOWeek. set (a := abs t) in *.
  assert (HD : a / secondsPerDay = unixDay t + absEpochDay).
  { rewrite Habs. unfold unixDay, secondsPerDay. apply Z.div_add. lia. }
  rewrite absWeekday_day by (unfold secondsPerDay in *; lia).
  rewrite HD. set (u := unixDay t) in *.
  set (wd := (u + absEpochDay + 1) mod 7).
  set (d := if Thursday - wd =? 4 then -3 else Thursday - wd).
  pose proof (Z.div_mod (u + absEpochDay + 1) 7 ltac:(lia)) as Ewd.
  pose proof (Z.mod_pos_bound (u + absEpochDay + 1) 7 ltac:(lia)) as Bwd. fold wd in Ewd, Bwd.
  pose proof (Z.div_mod (u + 3) 7 ltac:(lia)) as Ewm.
  pose proof (Z.mod_pos_bound (u + 3) 7 ltac:(lia)) as Bwm.
  assert (Hd : d = 3 - (u + 3) mod 7).
  { unfold d, Thursday, absEpochDay in *. destruct (Z.eqb_spec (4 - wd) 4); lia. }
  rewrite uint64_shift by lia.
  destruct (absYearDay_spec (a + d * secondsPerDay)) as (y & yd & -> & Hy & Hdays & Hyd);
    [unfold secondsPerDay in *; lia|].
  rewrite Z.div_add, HD in Hdays by (unfold secondsPerDay; lia).
  pose proof (absDaysToYear_step y) as Hstep.
  exists (y + absoluteZeroYear), (yd / 7 + 1).
  pose proof (Z.div_mod yd 7 ltac:(lia)) as Eyd.
  pose proof (Z.mod_pos_bound yd 7 ltac:(lia)) as Byd.
  assert (Hthu : thursdayOf u = absDaysToYear y + yd - absEpochDay).
  { unfold thursdayOf, weekdayFromMonday. lia. }
  split; [done|]. split; [|lia].
  unfold isISOWeek. rewrite Hthu.
  replace (y + absoluteZeroYear + 1) with (y + 1 + absoluteZeroYear) by lia.
  rewrite !daysToYear_abs. split; [lia|].
  exists (absDaysToYear y - absEpochDay + yd mod 7).
  split; [lia|]. split; [|lia].
  unfold weekdayFromMonday.
  pose proof (Z.div_mod (absDaysToYear y - absEpochDay + yd mod 7 + 3) 7 ltac:(lia)).
  pose proof (Z.mod_pos_bound (absDaysToYear y - absEpochDay + yd mod 7 + 3) 7 ltac:(lia)).
  unfold absEpochDay in *. lia.
Qed.

End Calendar.

(** ** Decimal numerals *)

Section DecimalFacts.

Import GoStrconv StringFacts.

Lemma digitChar_digit d :
  0 <= d <= 9 -> isDigit (digitChar d) = true /\ digitOf (digitChar d) = d.
Proof.
  intros Hd. unfold isDigit, digitOf, digitChar.
  rewrite N_ascii_embedding by lia.
  split; [apply andb_true_iff; split; apply N.leb_le; lia|lia].
Qed.

Lemma pow10_succ (n : nat) : 10 ^ Z.of_nat (S n) = 10 * 10 ^ Z.of_nat n.
Proof. rewrite Nat2Z.inj_succ. apply Z.pow_succ_r. lia. Qed.

Lemma pow10_pos (n : nat) : 0 < 10 ^ Z.of_nat n.
Proof. apply Z.pow_pos_nonneg; lia. Qed.

Lemma allDigits_app s t : allDigits (s +:+ t) = allDigits s && allDigits t.
Proof.
  induction s as [|c s IH]; [done|]. rewrite append_cons. simpl.
  by rewrite IH, andb_assoc.
Qed.

Lemma digitsValue_app s t :
  digitsValue (s +:+ t) = digitsValue s * 10 ^ Z.of_nat (String.length t) + digitsValue t.
Proof.
  induction s as [|c s IH]; [rewrite append_nil_l; simpl; lia|]. rewrite append_cons. simpl.
  rewrite IH, length_append, Nat2Z.inj_add, Z.pow_add_r by lia. ring.
Qed.

Lemma digitsValue_bound s : allDigits s = true -> 0 <= digitsValue s < 10 ^ Z.of_nat (String.length s).
Proof.
  induction s as [|c s IH]; [simpl; lia|]. simpl allDigits. intros [Hc Hs]%andb_prop.
  specialize (IH Hs). cbn [digitsValue String.length]. rewrite pow10_succ.
  unfold isDigit in Hc. apply andb_prop in Hc as [Hlo%N.leb_le Hhi%N.leb_le].
  unfold digitOf. pose proof (pow10_pos (String.length s)). nia.
Qed.

Lemma formatBits_small fuel u acc :
  0 <= u < 10 -> formatBits fuel u acc = String (digitChar u) acc.
Proof.
  intros Hu. destruct fuel; simpl; [done|].
  destruct (Z.ltb_spec u 10); [done|lia].
Qed.

(** The digit loop writes the numeral of [u] in front of [acc]. *)
Lemma formatBits_spec fuel u acc :
  0 <= u < 10 ^ Z.of_nat (S fuel) ->
  exists ds,
    formatBits fuel u acc = ds +:+ acc
    /\ allDigits ds = true
    /\ digitsValue ds = u
    /\ (0 < String.length ds)%nat
    /\ u < 10 ^ Z.of_nat (String.length ds)
    /\ (String.length ds = 1%nat \/ 10 ^ (Z.of_nat (String.length ds) - 1) <= u).
Proof.
  revert u acc. induction fuel as [|fuel IH]; intros u acc Hu.
  - change (10 ^ Z.of_nat 1) with 10 in Hu.
    exists (String (digitChar u) ""). destruct (digitChar_digit u ltac:(lia)) as [Hd Hv].
    simpl. rewrite Hd, Hv. repeat split; try done; try lia; by left.
  - destruct (Z.ltb_spec u 10) as [Hsmall|Hbig].
    + rewrite formatBits_small by lia.
      exists (String (digitChar u) ""). destruct (digitChar_digit u ltac:(lia)) as [Hd Hv].
      simpl. rewrite Hd, Hv. repeat split; try done; try lia; by left.
    + cbn [formatBits]. destruct (Z.ltb_spec u 10) as [|_]; [lia|].
      rewrite pow10_succ in Hu.
      pose proof (Z.div_mod u 10 ltac:(lia)) as Ediv.
      pose proof (Z.mod_pos_bound u 10 ltac:(lia)) as Bmod.
      destruct (IH (u / 10) (String (digitChar (u mod 10)) acc)) as
        (ds & Heq & Hall & Hval & Hpos & Hlt & Hge); [lia|].
      destruct (digitChar_digit (u mod 10) ltac:(lia)) as [Hd Hv].
      exists (ds +:+ String (digitChar (u mod 10)) "").
      rewrite Heq, append_assoc, allDigits_app, digitsValue_app, length_append, Hall, Hval.
      simpl. rewrite Hd, Hv.
      replace (String.length ds + 1)%nat with (S (String.length ds)) by lia.
      pose proof (pow10_succ (String.length ds)) as Hpow.
      split; [done|]. split; [done|]. split; [lia|]. split; [lia|]. split; [lia|].
      right.
      replace (Z.of_nat (S (String.length ds)) - 1) with (Z.of_nat (String.length ds)) by lia.
      destruct Hge as [->|Hge]; [change (10 ^ Z.of_nat 1) with 10; lia|].
      destruct (String.length ds) as [|n]; [lia|].
      rewrite pow10_succ. replace (Z.of_nat (S n) - 1) with (Z.of_nat n) in Hge by lia. lia.
Qed.

Lemma decimal_fuel u : 0 <= u -> u < 10 ^ Z.of_nat (S (Z.to_nat (Z.log2 u))).
Proof.
  intros Hu. destruct (Z.eq_dec u 0) as [->|Hne]; [done|].
  pose proof (Z.log2_spec u ltac:(lia)) as [_ Hlog].
  pose proof (Z.log2_nonneg u).
  rewrite Nat2Z.inj_succ, Z2Nat.id by done.
  eapply Z.lt_le_trans; [exact Hlog|].
  apply Z.pow_le_mono_l. lia.
Qed.

(** The numeral of a number that is not negative. *)
Lemma decimal_spec u :
  0 <= u ->
  allDigits (decimal u) = true
  /\ digitsValue (decimal u) = u
  /\ forall n, hasDecimalDigits n u -> String.length (decimal u) = n.
Proof.
  intros Hu. unfold decimal.
  destruct (formatBits_spec (Z.to_nat (Z.log2 u)) u "" (conj Hu (decimal_fuel u Hu)))
    as (ds & -> & Hall & Hval & Hpos & Hlt & Hge).
  rewrite append_nil_r. split; [done|]. split; [done|].
  intros n [[-> ->]|[Hn Hrange]].
  - destruct Hge as [|Hge]; [done|].
    pose proof (pow10_pos (String.length ds - 1)).
    replace (Z.of_nat (String.length ds - 1)) with (Z.of_nat (String.length ds) - 1) in * by lia.
    lia.
  - rewrite Z.abs_eq in Hrange by done.
    destruct (Nat.lt_trichotomy (String.length ds) n) as [Hlen|[Hlen|Hlen]]; [|done|].
    + (* fewer digits: [u] is below the decade of [n] *)
      assert (10 ^ Z.of_nat (String.length ds) <= 10 ^ (Z.of_nat n - 1))
        by (apply Z.pow_le_mono_r; lia).
      lia.
    + (* more digits: [u] is above it *)
      destruct Hge as [Hone|Hge]; [lia|].
      assert (10 ^ Z.of_nat n <= 10 ^ (Z.of_nat (String.length ds) - 1))
        by (apply Z.pow_le_mono_r; lia).
      lia.
Qed.

End DecimalFacts.

(** ** The byte-wise order of strings *)

Section StringOrder.

Import StringFacts.

Lemma compare_cons c1 s1 c2 s2 :
  String.compare (String c1 s1) (String c2 s2) =
    match (N_of_ascii c1 ?= N_of_ascii c2)%N with
    | Eq => String.compare s1 s2
    | Lt => Lt
    | Gt => Gt
    end.
Proof. reflexivity. Qed.

Lemma compare_refl s : String.compare s s = Eq.
Proof.
  induction s as [|c s IH]; [done|]. by rewrite compare_cons, N.compare_refl.
Qed.

(** Strings of equal length are compared before what follows them. *)
Lemma compare_app s1 s2 t1 t2 :
  String.length s1 = String.length s2 ->
  String.compare (s1 +:+ t1) (s2 +:+ t2) =
    match String.compare s1 s2 with
    | Eq => String.compare t1 t2
    | c => c
    end.
Proof.
  revert s2. induction s1 as [|c1 s1 IH]; intros [|c2 s2] Hlen; try done.
  rewrite !append_cons, !compare_cons.
  destruct (N_of_ascii c1 ?= N_of_ascii c2)%N; [|done..].
  apply IH. simpl in Hlen. lia.
Qed.

(** Numerals of equal length are ordered as the numbers they denote. *)
Lemma compare_digits s1 s2 :
  allDigits s1 = true -> allDigits s2 = true ->
  String.length s1 = String.length s2 ->
  String.compare s1 s2 = (digitsValue s1 ?= digitsValue s2).
Proof.
  revert s2. induction s1 as [|c1 s1 IH]; intros [|c2 s2] H1 H2 Hlen; try done.
  simpl in H1, H2, Hlen. apply andb_prop in H1 as [Hc1 H1], H2 as [Hc2 H2].
  pose proof (digitsValue_bound s1 H1) as B1. pose proof (digitsValue_bound s2 H2) as B2.
  assert (Hlen' : String.length s1 = String.length s2) by lia.
  rewrite compare_cons. cbn [digitsValue]. rewrite <- Hlen' in *.
  set (P := 10 ^ Z.of_nat (String.length s1)) in *.
  unfold digitOf.
  destruct (N.compare_spec (N_of_ascii c1) (N_of_ascii c2)) as [Heq|Hlt|Hgt].
  - rewrite Heq, IH by done.
    destruct (Z.compare_spec (digitsValue s1) (digitsValue s2));
      symmetry; [apply Z.compare_eq_iff|apply Z.compare_lt_iff|apply Z.compare_gt_iff]; lia.
  - symmetry. apply Z.compare_lt_iff. nia.
  - symmetry. apply Z.compare_gt_iff. nia.
Qed.

Lemma compare_trans_Lt a b c :
  String.compare a b = Lt -> String.compare b c = Lt -> String.compare a c = Lt.
Proof.
  revert b c. induction a as [|x a IH]; intros [|y b] [|z c]; try done.
  rewrite !compare_cons.
  destruct (N.compare_spec (N_of_ascii x) (N_of_ascii y)) as [Hxy|Hxy|Hxy]; [|..|done];
    destruct (N.compare_spec (N_of_ascii y) (N_of_ascii z)) as [Hyz|Hyz|Hyz]; try done;
    intros Hab Hbc;
    destruct (N.compare_spec (N_of_ascii x) (N_of_ascii z)) as [Hxz|Hxz|Hxz];
    try lia; try done.
  by eapply IH.
Qed.

Lemma strLe_trans a b c : strLe a b -> strLe b c -> strLe a c.
Proof.
  unfold strLe. intros Hab Hbc.
  destruct (String.compare a b) eqn:Eab; [|clear Hab|done].
  - apply String.compare_eq_iff in Eab as ->. done.
  - destruct (String.compare b c) eqn:Ebc; [|clear Hbc|done].
    + apply String.compare_eq_iff in Ebc as <-. by rewrite Eab.
    + by rewrite (compare_trans_Lt a b c).
Qed.

Lemma ltb_false_strLe a b : String.ltb a b = false -> strLe b a.
Proof.
  unfold String.ltb, strLe. rewrite (String.compare_antisym b a).
  destruct (String.compare a b); simpl; congruence.
Qed.

Lemma ltb_true_strLe a b : String.ltb a b = true -> strLe a b.
Proof. unfold String.ltb, strLe. destruct (String.compare a b); congruence. Qed.

(** [sort.Strings] permutes its argument into increasing order. *)
Lemma insert_Permutation x l : Permutation (GoSort.insert x l) (x :: l).
Proof.
  induction l as [|y l IH]; simpl; [done|].
  destruct (String.ltb x y); [done|]. rewrite IH. apply perm_swap.
Qed.

Lemma Strings_Permutation l : Permutation (GoSort.Strings l) l.
Proof.
  induction l as [|x l IH]; simpl; [done|]. by rewrite insert_Permutation, IH.
Qed.

Lemma insert_sorted x l :
  StronglySorted strLe l -> StronglySorted strLe (GoSort.insert x l).
Proof.
  induction 1 as [|y l Hl IH Hy]; simpl; [repeat constructor|].
  destruct (String.ltb x y) eqn:Hxy.
  - constructor; [by constructor|].
    apply ltb_true_strLe in Hxy. constructor; [done|].
    eapply Forall_impl; [exact Hy|]. intros z Hz. by eapply strLe_trans.
  - constructor; [done|]. rewrite insert_Permutation.
    constructor; [by apply ltb_false_strLe|done].
Qed.

Lemma Strings_sorted l : StronglySorted strLe (GoSort.Strings l).
Proof.
  induction l as [|x l IH]; simpl; [constructor|]. by apply insert_sorted.
Qed.

End StringOrder.

(** ** Week keys *)

Section WeekKeys.

Import GoStrconv GoFmt StringFacts.

Lemma ISOWeek_week_range t : 1 <= (GoTime.ISOWeek t).2 <= 53.
Proof.
  unfold GoTime.ISOWeek.
  match goal with
  | |- context [GoTime.absYearDay ?a] =>
      destruct (absYearDay_spec a) as (y & yd & -> & _ & _ & Hyd);
      [unfold GoTime.uint64; apply Z.mod_pos_bound; lia|]
  end.
  pose proof (absDaysToYear_step y). simpl.
  pose proof (Z.div_mod yd 7 ltac:(lia)). pose proof (Z.mod_pos_bound yd 7 ltac:(lia)). lia.
Qed.

Lemma log2_fuel w : 10 <= w -> exists f, Z.to_nat (Z.log2 w) = S f.
Proof.
  intros Hw. assert (3 <= Z.log2 w) by (change 3 with (Z.log2 8); apply Z.log2_le_mono; lia).
  exists (Z.to_nat (Z.log2 w) - 1)%nat. lia.
Qed.

(** [%02d] of a number below 100: its two digits. *)
Lemma verb_02d_two_digits w :
  0 <= w < 100 ->
  verb_02d w = String (digitChar (w / 10)) (String (digitChar (w mod 10)) "").
Proof.
  intros Hw. unfold verb_02d, padded, decimal.
  destruct (Z.ltb_spec w 0); [lia|].
  destruct (Z.ltb_spec w 10) as [Hsmall|Hbig].
  - rewrite formatBits_small by lia. simpl.
    rewrite Z.div_small, Z.mod_small by lia. done.
  - destruct (log2_fuel w Hbig) as [f ->]. cbn [formatBits].
    destruct (Z.ltb_spec w 10); [lia|].
    pose proof (Z.div_mod w 10 ltac:(lia)). pose proof (Z.mod_pos_bound w 10 ltac:(lia)).
    rewrite formatBits_small by lia. done.
Qed.

Lemma two_digits w :
  0 <= w < 100 ->
  allDigits (verb_02d w) = true /\ digitsValue (verb_02d w) = w
  /\ String.length (verb_02d w) = 2%nat.
Proof.
  intros Hw. rewrite verb_02d_two_digits by done.
  pose proof (Z.div_mod w 10 ltac:(lia)). pose proof (Z.mod_pos_bound w 10 ltac:(lia)).
  destruct (digitChar_digit (w / 10) ltac:(lia)) as [Hd1 Hv1].
  destruct (digitChar_digit (w mod 10) ltac:(lia)) as [Hd0 Hv0].
  simpl. rewrite Hd1, Hd0, Hv1, Hv0. repeat split; try done. lia.
Qed.

(** Keys of years that are not negative and have the same number of
    digits are ordered as their (year, week) pairs. *)
Lemma Sprintf_d_02d_order n y1 w1 y2 w2 :
  0 <= y1 -> 0 <= y2 ->
  hasDecimalDigits n y1 -> hasDecimalDigits n y2 ->
  1 <= w1 <= 53 -> 1 <= w2 <= 53 ->
  String.compare (Sprintf_d_02d y1 w1) (Sprintf_d_02d y2 w2)
  = compareYearWeek (y1, w1) (y2, w2).
Proof.
  intros Hy1 Hy2 Hn1 Hn2 Hw1 Hw2. unfold Sprintf_d_02d, verb_d, compareYearWeek. simpl.
  destruct (Z.ltb_spec y1 0); [lia|]. destruct (Z.ltb_spec y2 0); [lia|].
  destruct (decimal_spec y1 Hy1) as (Ha1 & Hv1 & Hl1).
  destruct (decimal_spec y2 Hy2) as (Ha2 & Hv2 & Hl2).
  rewrite compare_app by (by rewrite (Hl1 n), (Hl2 n)).
  rewrite compare_digits, Hv1, Hv2 by (try done; by rewrite (Hl1 n), (Hl2 n)).
  destruct (y1 ?= y2); [|done..].
  change ("-" +:+ verb_02d w1) with (String "-" (verb_02d w1)).
  change ("-" +:+ verb_02d w2) with (String "-" (verb_02d w2)).
  rewrite compare_cons, N.compare_refl.
  destruct (two_digits w1 ltac:(lia)) as (Hd1 & Hx1 & Hlen1).
  destruct (two_digits w2 ltac:(lia)) as (Hd2 & Hx2 & Hlen2).
  rewrite compare_digits, Hx1, Hx2 by (try done; congruence). done.
Qed.

Lemma weekID_yearWeek article :
  weekID article = Sprintf_d_02d (yearWeek article).1 (yearWeek article).2.
Proof. unfold weekID, yearWeek. by destruct (GoTime.ISOWeek _). Qed.

Lemma weekID_order n a b :
  yearOfDigits n a -> yearOfDigits n b ->
  String.compare (weekID a) (weekID b) = compareYearWeek (yearWeek a) (yearWeek b).
Proof.
  intros [Ha Hna] [Hb Hnb]. rewrite !weekID_yearWeek.
  pose proof (ISOWeek_week_range (GoTime.UTC (PublishAt a))).
  pose proof (ISOWeek_week_range (GoTime.UTC (PublishAt b))).
  rewrite (Sprintf_d_02d_order n) by done.
  unfold yearWeek. by destruct (GoTime.ISOWeek _), (GoTime.ISOWeek _).
Qed.

End WeekKeys.

Section SortedKeys.

Import StringFacts.

Lemma filter_map_commute {A B : Type} (f : A -> B) (P : B -> Prop)
      `{!forall b, Decision (P b)} (l : list A) :
  filter P (map f l) = map f (filter (fun a => P (f a)) l).
Proof.
  induction l as [|a l IH]; [done|]. simpl map.
  destruct (decide (P (f a))) as [Hp|Hp].
  - rewrite !filter_cons_True by done. simpl. by rewrite IH.
  - rewrite !filter_cons_False by done. done.
Qed.

(** The keys first seen are the keys of some of the articles. *)
Lemma firstSeen_map (articles : list Article) :
  exists firsts,
    firstSeen (map weekID articles) = map weekID firsts
    /\ forall a, a ∈ firsts -> a ∈ articles.
Proof.
  induction articles as [|x articles (firsts & Heq & Hsub)]; [by exists []|].
  exists (x :: filter (fun a => weekID a <> weekID x) firsts).
  simpl. rewrite Heq, filter_map_commute. split; [done|].
  intros a [->|Ha]%elem_of_cons; [by left|].
  right. apply Hsub. by apply list_elem_of_filter in Ha as [_ Ha].
Qed.

Lemma StronglySorted_map {A B : Type} (f : A -> B) (R : B -> B -> Prop) (l : list A) :
  StronglySorted R (map f l) -> StronglySorted (fun a b => R (f a) (f b)) l.
Proof.
  induction l as [|a l IH]; [constructor|]. simpl. intros Hs.
  inversion Hs as [|? ? Hl Ha]; subst. constructor; [by apply IH|].
  apply Forall_forall. intros b Hb. rewrite Forall_forall in Ha.
  apply Ha. apply list_elem_of_fmap. by exists b.
Qed.

Lemma StronglySorted_subrel {A : Type} (R R' : A -> A -> Prop) (l : list A) :
  (forall a b, a ∈ l -> b ∈ l -> R a b -> R' a b) ->
  StronglySorted R l -> StronglySorted R' l.
Proof.
  intros HR Hs. induction Hs as [|a l Hl IH Ha]; [constructor|].
  constructor.
  - apply IH. intros x y Hx Hy. apply HR; by right.
  - apply Forall_forall. intros b Hb. rewrite Forall_forall in Ha.
    apply HR; [by left|by right|by apply Ha].
Qed.

Lemma compareYearWeek_antisym a b : compareYearWeek b a = CompOpp (compareYearWeek a b).
Proof.
  unfold compareYearWeek. rewrite (Z.compare_antisym a.1 b.1), (Z.compare_antisym a.2 b.2).
  by destruct (a.1 ?= b.1).
Qed.

(** The keys of the week index, sorted and reversed, are in descending
    chronological order. *)
Lemma weeks_descending n (articles : list Article) :
  Forall (yearOfDigits n) articles ->
  exists sorted,
    GoSlices.Reverse (GoSort.Strings (groupArticles (∅, []) articles).2) = map weekID sorted
    /\ (forall a, a ∈ sorted -> a ∈ articles)
    /\ StronglySorted (fun a b => compareYearWeek (yearWeek a) (yearWeek b) <> Lt) sorted.
Proof.
  intros Hvalid. rewrite groupArticles_weeks.
  destruct (firstSeen_map articles) as (firsts & -> & Hsub).
  destruct (Permutation_map_inv weekID firsts (Strings_Permutation (map weekID firsts)))
    as (ascending & Heq & Hperm).
  exists (rev ascending). unfold GoSlices.Reverse.
  rewrite Heq, map_rev. split; [done|].
  assert (Hin : forall a, a ∈ ascending -> a ∈ articles).
  { intros a Ha. apply Hsub. by rewrite Hperm. }
  split.
  { intros a Ha. apply Hin. by apply list_elem_of_In, in_rev, list_elem_of_In in Ha. }
  apply StronglySorted_rev.
  pose proof (Strings_sorted (map weekID firsts)) as Hsorted. rewrite Heq in Hsorted.
  apply StronglySorted_map in Hsorted.
  eapply StronglySorted_subrel; [|exact Hsorted].
  intros a b Ha Hb. unfold strLe.
  rewrite Forall_forall in Hvalid.
  rewrite (weekID_order n) by (apply Hvalid; auto).
  rewrite (compareYearWeek_antisym (yearWeek a) (yearWeek b)).
  by destruct (compareYearWeek (yearWeek a) (yearWeek b)).
Qed.

End SortedKeys.


Lemma yearOfDigits_2025 : Forall (yearOfDigits 4) [articleA; articleB].
Proof.
  assert (HA : yearWeek articleA = (2025, 1)) by (vm_compute; reflexivity).
  assert (HB : yearWeek articleB = (2025, 1)) by (vm_compute; reflexivity).
  repeat constructor; unfold yearOfDigits, hasDecimalDigits; rewrite ?HA, ?HB;
    change (10 ^ (Z.of_nat 4 - 1)) with 1000; change (10 ^ Z.of_nat 4) with 10000;
    cbn [fst Z.abs]; lia.
Qed.



(** ** The week key is the ISO week *)

Section ISOWeekKeys.

Import GoStrconv GoFmt.

Lemma daysToYear_mono y1 y2 : y1 <= y2 -> daysToYear y1 <= daysToYear y2.
Proof.
  intros Hy. unfold daysToYear, leapYearsThrough.
  pose proof (Z.div_mod (y1 - 1) 4 ltac:(lia)). pose proof (Z.mod_pos_bound (y1 - 1) 4 ltac:(lia)).
  pose proof (Z.div_mod (y1 - 1) 100 ltac:(lia)).
  pose proof (Z.mod_pos_bound (y1 - 1) 100 ltac:(lia)).
  pose proof (Z.div_mod (y1 - 1) 400 ltac:(lia)).
  pose proof (Z.mod_pos_bound (y1 - 1) 400 ltac:(lia)).
  pose proof (Z.div_mod (y2 - 1) 4 ltac:(lia)). pose proof (Z.mod_pos_bound (y2 - 1) 4 ltac:(lia)).
  pose proof (Z.div_mod (y2 - 1) 100 ltac:(lia)).
  pose proof (Z.mod_pos_bound (y2 - 1) 100 ltac:(lia)).
  pose proof (Z.div_mod (y2 - 1) 400 ltac:(lia)).
  pose proof (Z.mod_pos_bound (y2 - 1) 400 ltac:(lia)).
  lia.
Qed.

(** A day is in one ISO week only. *)
Lemma isISOWeek_unique day y w y' w' :
  isISOWeek day y w -> isISOWeek day y' w' -> y = y' /\ w = w'.
Proof.
  intros (Hyear & first & Hfirst & Hwd & Hweek) (Hyear' & first' & Hfirst' & Hwd' & Hweek').
  assert (y = y') as <-.
  { destruct (Z.lt_trichotomy y y') as [Hlt|[Heq|Hgt]]; [|done|].
    - pose proof (daysToYear_mono (y + 1) y' ltac:(lia)). lia.
    - pose proof (daysToYear_mono (y' + 1) y ltac:(lia)). lia. }
  split; [done|].
  unfold weekdayFromMonday in Hwd, Hwd'.
  pose proof (Z.div_mod (first + 3) 7 ltac:(lia)).
  pose proof (Z.div_mod (first' + 3) 7 ltac:(lia)).
  lia.
Qed.

Lemma weekID_ISO article :
  inCalendarRange (PublishAt article) ->
  exists year week,
    isISOWeek (unixDay (PublishAt article)) year week
    /\ weekID article
       = verb_d year +:+ "-"
         +:+ String (digitChar (week / 10)) (String (digitChar (week mod 10)) "").
Proof.
  intros Hrange.
  destruct (ISOWeek_spec (GoTime.UTC (PublishAt article)) eq_refl Hrange)
    as (year & week & Heq & Hiso & Hweek).
  exists year, week. split; [exact Hiso|].
  unfold weekID. rewrite Heq. unfold Sprintf_d_02d.
  by rewrite verb_02d_two_digits by lia.
Qed.

Lemma weekID_of_day article day year week :
  unixDay (PublishAt article) = day ->
  -100000000 <= day <= 100000000 ->
  isISOWeek day year week ->
  weekID article
  = verb_d year +:+ "-" +:+ String (digitChar (week / 10)) (String (digitChar (week mod 10)) "").
Proof.
  intros Hday Hbound Hiso.
  assert (Hrange : inCalendarRange (PublishAt article)).
  { unfold inCalendarRange, unixDay in *.
    pose proof (Z.div_mod (GoTime.unixSec (PublishAt article)) 86400 ltac:(lia)).
    pose proof (Z.mod_pos_bound (GoTime.unixSec (PublishAt article)) 86400 ltac:(lia)).
    rewrite absEpoch_seconds. unfold absEpochDay, GoTime.secondsPerDay.
    change (2 ^ 63) with 9223372036854775808. lia. }
  destruct (weekID_ISO article Hrange) as (year' & week' & Hiso' & ->).
  rewrite Hday in Hiso'.
  by destruct (isISOWeek_unique day year' week' year week Hiso' Hiso) as [-> ->].
Qed.

Lemma isISOWeek_2024_12_30 : isISOWeek 20087 2025 1.
Proof.
  split; [vm_compute; split; [discriminate|reflexivity]|].
  exists 20090. vm_compute. repeat split; try discriminate; reflexivity.
Qed.

Lemma isISOWeek_2025_01_03 : isISOWeek 20091 2025 1.
Proof.
  split; [vm_compute; split; [discriminate|reflexivity]|].
  exists 20090. vm_compute. repeat split; try discriminate; reflexivity.
Qed.

End ISOWeekKeys.

(** The days 20087 and 20091 of the Unix era are the dates of the claim. *)
Example unixDay_20087 :
  GoTime.Format_2006_01_02 (GoTime.mkTime (20087 * 86400) 0 0) = "2024-12-30".
Proof. vm_compute. reflexivity. Qed.

Example unixDay_20091 :
  GoTime.Format_2006_01_02 (GoTime.mkTime (20091 * 86400) 0 0) = "2025-01-03".
Proof. vm_compute. reflexivity. Qed.

(** C4: the week key of an article is the year of its ISO 8601 week, a
    hyphen, and the number of that week in two digits, the week being
    that of the UTC day of the publish instant; the articles published on
    2024-12-30 and on 2025-01-03 (UTC) both get the key "2025-01". *)
Theorem weekID_is_ISO_week :
  (forall article,
     inCalendarRange (PublishAt article) ->
     exists year week,
       isISOWeek (unixDay (PublishAt article)) year week
       /\ weekID article
          = GoFmt.verb_d year +:+ "-"
            +:+ String (GoStrconv.digitChar (week / 10))
                  (String (GoStrconv.digitChar (week mod 10)) ""))
  /\ (forall a b,
        unixDay (PublishAt a) = 20087 -> unixDay (PublishAt b) = 20091 ->
        weekID a = "2025-01" /\ weekID b = "2025-01").
Proof.
  split; [exact weekID_ISO|].
  intros a b Ha Hb. split.
  - rewrite (weekID_of_day a 20087 2025 1 Ha ltac:(lia) isISOWeek_2024_12_30).
    vm_compute. reflexivity.
  - rewrite (weekID_of_day b 20091 2025 1 Hb ltac:(lia) isISOWeek_2025_01_03).
    vm_compute. reflexivity.
Qed.

Lemma weekID_is_ISO_week_witness :
  (exists year week,
     isISOWeek (unixDay (PublishAt articleA)) year week
     /\ weekID articleA
        = GoFmt.verb_d year +:+ "-"
          +:+ String (GoStrconv.digitChar (week / 10))
                (String (GoStrconv.digitChar (week mod 10)) ""))
  /\ weekID (mkArticle (GoTime.mkTime (20087 * 86400 + 3600) 0 7200) "" "" "") = "2025-01"
  /\ weekID (mkArticle (GoTime.mkTime (20091 * 86400 + 86399) 5 0) "" "" "") = "2025-01".
Proof.
  split.
  - apply (proj1 weekID_is_ISO_week articleA). vm_compute. split; [discriminate|reflexivity].
  - apply (proj2 weekID_is_ISO_week); vm_compute; reflexivity.
Defined.

(** * Further properties of the program *)

(** ** [fetchArticles] *)

Lemma getURLDomain_outcome urlString :
  (exists domain, getURLDomain urlString = Returns domain)
  \/ getURLDomain urlString = Panics nilDereference.
Proof.
  unfold getURLDomain.
  destruct (GoRegexp.MatchString GoRegexp.re_scheme _); [|left; by eexists].
  destruct (GoURL.Parse _); [left; by eexists|by right].
Qed.

Lemma fetchItem_Returns articles item articles' :
  fetchItem articles item = Returns articles' <->
  exists article, articleOf item article /\ articles' = articles ++ [article].
Proof.
  unfold fetchItem, articleOf. split.
  - destruct (PublishedParsed item) as [t|]; [|done]. simpl.
    destruct (getURLDomain (Link item)) as [domain| |]; [|done..]. simpl.
    intros [= <-]. eexists. split; [|done]. by exists t, domain.
  - intros (article & (t & domain & -> & -> & ->) & ->). done.
Qed.

Lemma fetchItems_Returns items articles articles' :
  fetchItems articles items = Returns articles' <->
  exists new, Forall2 articleOf items new /\ articles' = articles ++ new.
Proof.
  revert articles. induction items as [|item items IH]; intros articles; simpl.
  - split.
    + intros [= <-]. exists []. by rewrite app_nil_r.
    + intros (new & ->%Forall2_nil_inv_l & ->). by rewrite app_nil_r.
  - split.
    + destruct (fetchItem articles item) as [articles1| |] eqn:Hitem; [|done..]. simpl.
      apply fetchItem_Returns in Hitem as (article & Harticle & ->).
      intros (new & Hnew & ->)%IH. exists (article :: new).
      split; [by constructor|]. by rewrite <- app_assoc.
    + intros (new & Hnew & ->).
      apply Forall2_cons_inv_l in Hnew as (article & new' & Harticle & Hnew' & ->).
      assert (Hitem : fetchItem articles item = Returns (articles ++ [article]))
        by (apply fetchItem_Returns; eauto).
      rewrite Hitem. simpl. apply IH. exists new'. split; [done|]. by rewrite <- app_assoc.
Qed.

(** X1: on a feed that answers, [fetchArticles] returns exactly when every
    item has a date and a link whose domain is extracted without a
    failure, and then it returns one article per item, in the order of the
    items, each with the title and link of its item, the date in UTC and
    the extracted domain. *)
Theorem fetchArticles_Returns (env : Env) (feedURL : string) (items : list Item)
        (articles : list Article) :
  gofeed_ParseURL env feedURL = Ok items ->
  fetchArticles env feedURL = Returns (Ok articles) <-> Forall2 articleOf items articles.
Proof.
  intros Hfeed. unfold fetchArticles. rewrite Hfeed. split.
  - destruct (fetchItems [] items) as [fetched| |] eqn:Hitems; [|done..]. simpl.
    intros [= <-]. by apply fetchItems_Returns in Hitems as (new & Hnew & ->).
  - intros Hall. assert (Hitems : fetchItems [] items = Returns articles)
      by (apply fetchItems_Returns; by exists articles).
    by rewrite Hitems.
Qed.

Lemma fetchArticles_Returns_witness :
  fetchArticles exampleEnv exampleFeed = Returns (Ok [articleA; articleB])
  <-> Forall2 articleOf [itemA; itemB] [articleA; articleB].
Proof.
  apply (fetchArticles_Returns exampleEnv exampleFeed). vm_compute. reflexivity.
Defined.

Lemma fetchItems_outcome items articles :
  (exists articles', fetchItems articles items = Returns articles')
  \/ fetchItems articles items = Panics nilDereference.
Proof.
  revert articles. induction items as [|item items IH]; intros articles; simpl.
  - left. by eexists.
  - unfold fetchItem. destruct (PublishedParsed item); [|by right]. simpl.
    destruct (getURLDomain_outcome (Link item)) as [[domain ->]| ->]; [|by right].
    simpl. apply IH.
Qed.

Lemma fetchItems_missing_date items articles :
  (exists item, item ∈ items /\ PublishedParsed item = None) ->
  fetchItems articles items = Panics nilDereference.
Proof.
  intros (item & Hin & Hnone). revert articles.
  induction items as [|item' items IH]; intros articles; [by apply elem_of_nil in Hin|].
  simpl. unfold fetchItem.
  destruct (PublishedParsed item') as [t|] eqn:Hdate; [|done]. simpl.
  destruct (getURLDomain_outcome (Link item')) as [[domain ->]| ->]; [|done]. simpl.
  apply IH. apply elem_of_cons in Hin as [->|Hin]; [congruence|done].
Qed.

(** X2: an item without a parsed date makes [fetchArticles] panic with a
    nil pointer dereference, whatever the other items of the feed are;
    no article of that feed is returned. *)
Theorem fetchArticles_missing_date (env : Env) (feedURL : string) (items : list Item) :
  gofeed_ParseURL env feedURL = Ok items ->
  (exists item, item ∈ items /\ PublishedParsed item = None) ->
  fetchArticles env feedURL = Panics nilDereference.
Proof.
  intros Hfeed Hmissing. unfold fetchArticles. rewrite Hfeed.
  by rewrite fetchItems_missing_date.
Qed.

Lemma fetchArticles_missing_date_witness :
  let undated := mkItem "no date" "https://example.com/x" None in
  fetchArticles (setFeed exampleEnv exampleFeed (Ok [itemA; undated; itemB])) exampleFeed
  = Panics nilDereference.
Proof.
  refine (fetchArticles_missing_date _ exampleFeed
            [itemA; mkItem "no date" "https://example.com/x" None; itemB] _ _).
  - vm_compute. reflexivity.
  - exists (mkItem "no date" "https://example.com/x" None). split; [|reflexivity].
    apply elem_of_cons. right. apply elem_of_cons. by left.
Defined.

(** ** Grouping: what the buckets hold *)

Lemma groupArticles_buckets_aux (articles : list Article) (k : string) :
  (groupArticles (∅, []) articles).1 !! k
  = if decide (articlesOfWeek k articles = []) then None
    else Some (articlesOfWeek k articles).
Proof.
  unfold articlesOfWeek.
  induction articles as [|a articles IH] using rev_ind.
  - simpl. by rewrite lookup_empty.
  - rewrite groupArticles_snoc.
    destruct (groupArticles (∅, []) articles) as [m weeks]. simpl in *.
    rewrite filter_app. destruct (decide (weekID a = k)) as [<-|Hne].
    + rewrite lookup_insert_eq, filter_cons_True, filter_nil by done.
      unfold bucket. rewrite IH.
      destruct (decide (filter _ articles = [])) as [->|Hnil]; simpl.
      * done.
      * destruct (filter _ articles) eqn:E; [done|]. done.
    + rewrite lookup_insert_ne, filter_cons_False, filter_nil, app_nil_r by done.
      exact IH.
Qed.

Lemma groupArticles_bucket (articles : list Article) (k : string) :
  bucket (groupArticles (∅, []) articles).1 k = articlesOfWeek k articles.
Proof.
  unfold bucket. rewrite groupArticles_buckets_aux.
  by destruct (decide (articlesOfWeek k articles = [])) as [->|].
Qed.

Lemma articlesOfWeek_nil (articles : list Article) (k : string) :
  articlesOfWeek k articles = [] <-> k ∉ map weekID articles.
Proof.
  unfold articlesOfWeek. split.
  - intros Hnil (a & -> & Ha)%list_elem_of_fmap.
    assert (a ∈ filter (fun a' => weekID a' = weekID a) articles) as Hin
      by (by apply list_elem_of_filter).
    rewrite Hnil in Hin. by apply elem_of_nil in Hin.
  - intros Hout. destruct (filter _ articles) as [|a l] eqn:E; [done|].
    assert (a ∈ filter (fun a' => weekID a' = k) articles) as Hin
      by (rewrite E; left).
    apply list_elem_of_filter in Hin as [<- Hin]. destruct Hout.
    apply list_elem_of_fmap. eauto.
Qed.

(** X3: grouping loses and invents nothing: after the loop the bucket of a
    key holds exactly the articles with that key, in the order in which
    they were added, and a key that no article has is not in the map. *)
Theorem groupArticles_buckets (articles : list Article) (k : string) :
  bucket (groupArticles (∅, []) articles).1 k = articlesOfWeek k articles
  /\ ((groupArticles (∅, []) articles).1 !! k = None <-> k ∉ map weekID articles).
Proof.
  split; [apply groupArticles_bucket|].
  rewrite groupArticles_buckets_aux, <- articlesOfWeek_nil.
  by destruct (decide (articlesOfWeek k articles = [])).
Qed.

(** ** The loop over the feeds *)

Lemma fetchArticles_outcome env feedURL :
  (exists fetched, fetchArticles env feedURL = Returns fetched)
  \/ fetchArticles env feedURL = Panics nilDereference.
Proof.
  unfold fetchArticles. destruct (gofeed_ParseURL env feedURL) as [items|err].
  - destruct (fetchItems_outcome items []) as [[articles ->]| ->]; [left|right]; simpl; eauto.
  - left. eauto.
Qed.

Lemma fetchFeed_Returns env g feedURL fetched p :
  fetchArticles env feedURL = Returns fetched ->
  exists line,
    fetchFeed env g feedURL p
    = (Returns (match fetched with Ok articles => groupArticles g articles | Err _ => g end),
       mkProcess (logged p ++ ["Fetching articles from " +:+ feedURL; line]) (files p)).
Proof.
  intros Hfetched. unfold fetchFeed, bind, lift, log_Printf, ret. rewrite Hfetched.
  destruct fetched as [articles|err]; cbn [logged files]; rewrite <- app_assoc; eauto.
Qed.

Lemma fetchFeed_Panics env g feedURL msg p :
  fetchArticles env feedURL = Panics msg ->
  fetchFeed env g feedURL p
  = (Panics msg, mkProcess (logged p ++ ["Fetching articles from " +:+ feedURL]) (files p)).
Proof.
  intros Hfetched. unfold fetchFeed, bind, lift, log_Printf, ret. by rewrite Hfetched.
Qed.

Lemma fetchFeeds_answering env feeds g p :
  feedsAnswer env feeds ->
  exists lines,
    fetchFeeds env g feeds p
    = (Returns (groupArticles g (fetchedArticles env feeds)),
       mkProcess (logged p ++ lines) (files p))
    /\ length lines = (2 * length feeds)%nat.
Proof.
  intros Hfeeds. revert g p.
  induction Hfeeds as [|feedURL feeds [fetched Hfetched] _ IH]; intros g p.
  - exists []. simpl. unfold ret. rewrite app_nil_r. by destruct p.
  - cbn [fetchFeeds fetchedArticles]. unfold bind.
    destruct (fetchFeed_Returns env g feedURL fetched p Hfetched) as [line ->].
    rewrite Hfetched.
    destruct (IH (match fetched with Ok articles => groupArticles g articles | Err _ => g end)
                 (mkProcess (logged p ++ ["Fetching articles from " +:+ feedURL; line])
                            (files p))) as (lines & -> & Hlines).
    exists (("Fetching articles from " +:+ feedURL) :: line :: lines).
    cbn [logged files length]. rewrite <- app_assoc. split; [|lia].
    destruct fetched as [articles|err]; [|done].
    unfold groupArticles. by rewrite fold_left_app.
Qed.

(** X4: when no feed makes [fetchArticles] panic, the loop over the feeds
    returns: it has grouped the articles of the feeds that answered, in
    the order of the feeds, it has logged two lines for every feed, and
    the files are as they were. *)
Theorem fetchFeeds_Returns (env : Env) (feeds : list string) (g : Grouping) (p : Process) :
  feedsAnswer env feeds ->
  exists lines,
    fetchFeeds env g feeds p
    = (Returns (groupArticles g (fetchedArticles env feeds)),
       mkProcess (logged p ++ lines) (files p))
    /\ length lines = (2 * length feeds)%nat.
Proof. apply fetchFeeds_answering. Qed.

Lemma fetchFeeds_Returns_witness :
  exists lines,
    fetchFeeds exampleEnv (∅, []) [exampleFeed; "https://down.example.com/feed"]
               (mkProcess [] exampleFiles)
    = (Returns (groupArticles (∅, [])
                  (fetchedArticles exampleEnv [exampleFeed; "https://down.example.com/feed"])),
       mkProcess ([] ++ lines) exampleFiles)
    /\ length lines = (2 * 2)%nat.
Proof.
  apply (fetchFeeds_Returns exampleEnv [exampleFeed; "https://down.example.com/feed"]
                            (∅, []) (mkProcess [] exampleFiles)).
  repeat constructor.
  - exists (Ok [articleA; articleB]). vm_compute. reflexivity.
  - exists (Err "error fetching feed: no such host"). vm_compute. reflexivity.
Defined.

Lemma fetchFeeds_panicking env feeds g p :
  (exists feedURL msg, feedURL ∈ feeds /\ fetchArticles env feedURL = Panics msg) ->
  (fetchFeeds env g feeds p).1 = Panics nilDereference
  /\ files (fetchFeeds env g feeds p).2 = files p.
Proof.
  intros (feedURL & msg & Hin & Hpanic). split; [|apply fetchFeeds_readonly].
  revert g p. induction feeds as [|feedURL' feeds IH]; intros g p;
    [by apply elem_of_nil in Hin|].
  cbn [fetchFeeds]. unfold bind.
  destruct (fetchArticles_outcome env feedURL') as [[fetched Hfetched]|Hnil].
  - destruct (fetchFeed_Returns env g feedURL' fetched p Hfetched) as [line ->].
    apply IH. apply elem_of_cons in Hin as [->|Hin]; [congruence|done].
  - by rewrite (fetchFeed_Panics env g feedURL' _ p Hnil).
Qed.

Lemma fetchFeeds_outcome env feeds g p :
  (exists g', (fetchFeeds env g feeds p).1 = Returns g')
  \/ (fetchFeeds env g feeds p).1 = Panics nilDereference.
Proof.
  revert g p. induction feeds as [|feedURL feeds IH]; intros g p.
  - left. by exists g.
  - cbn [fetchFeeds]. unfold bind.
    destruct (fetchArticles_outcome env feedURL) as [[fetched Hfetched]|Hnil].
    + destruct (fetchFeed_Returns env g feedURL fetched p Hfetched) as [line ->]. apply IH.
    + rewrite (fetchFeed_Panics env g feedURL _ p Hnil). by right.
Qed.

(** X5: a feed on which [fetchArticles] panics ends the loop over the
    feeds with that panic, a nil pointer dereference, wherever the feed is
    in the list: no grouping is returned, and the files are as they
    were. *)
Theorem fetchFeeds_Panics (env : Env) (feeds : list string) (g : Grouping) (p : Process) :
  (exists feedURL msg, feedURL ∈ feeds /\ fetchArticles env feedURL = Panics msg) ->
  (fetchFeeds env g feeds p).1 = Panics nilDereference
  /\ files (fetchFeeds env g feeds p).2 = files p.
Proof. apply fetchFeeds_panicking. Qed.

Lemma fetchFeeds_Panics_witness :
  let undated := mkItem "no date" "https://example.com/x" None in
  let env := setFeed exampleEnv "https://example.org/feed" (Ok [undated]) in
  let feeds := [exampleFeed; "https://example.org/feed"; "https://down.example.com/feed"] in
  (fetchFeeds env (∅, []) feeds (mkProcess [] exampleFiles)).1 = Panics nilDereference
  /\ files (fetchFeeds env (∅, []) feeds (mkProcess [] exampleFiles)).2 = exampleFiles.
Proof.
  refine (fetchFeeds_Panics _ _ (∅, []) (mkProcess [] exampleFiles) _).
  exists "https://example.org/feed", nilDereference. split.
  - apply elem_of_cons. right. apply elem_of_cons. by left.
  - vm_compute. reflexivity.
Defined.

(** ** The rendered document *)

Lemma concat_empty_cons (s : string) (l : list string) :
  String.concat "" (s :: l) = s +:+ String.concat "" l.
Proof. destruct l; simpl; [by rewrite StringFacts.append_nil_r|done]. Qed.

Section DocumentFacts.

Context {sorter : GoSlices.Sorter}.

Lemma renderWeeks_sections weeks output (m m0 : gmap string (list Article)) :
  (forall k, Permutation (bucket m k) (bucket m0 k)) ->
  exists sections,
    Forall2 (sectionOf m0) weeks sections
    /\ (fold_left renderWeek weeks (output, m)).1 = output +:+ String.concat "" sections.
Proof.
  revert output m. induction weeks as [|week weeks IH]; intros output m Hm.
  - exists []. split; [constructor|]. simpl. by rewrite StringFacts.append_nil_r.
  - cbn [fold_left]. destruct (decide (bucket m week = [])) as [Hnil|Hne].
    + rewrite renderWeek_empty by done.
      destruct (IH output m Hm) as (sections & Hsections & ->).
      exists ("" :: sections). split.
      * constructor; [|done]. left. split; [|done].
        apply Permutation_nil. rewrite <- Hnil. apply Hm.
      * by rewrite concat_empty_cons, StringFacts.append_nil_l.
    + rewrite renderWeek_nonempty by done.
      pose proof (SortFunc_sortedBucket (bucket m week)) as [Hperm Hsorted].
      set (l := GoSlices.SortFunc (bucket m week) byUnix) in *.
      destruct (IH (output +:+ weekSection week l) (<[week := l]> m)) as (sections & Hsections & ->).
      { intros k. destruct (decide (week = k)) as [<-|Hk].
        - rewrite bucket_insert_eq. by rewrite Hperm.
        - by rewrite bucket_insert_ne. }
      exists (weekSection week l :: sections). split.
      * constructor; [|done]. right. split.
        -- intros Hnil. apply Hne. apply Permutation_nil. rewrite <- Hnil. symmetry. apply Hm.
        -- exists l. split; [|done]. split; [|done]. by rewrite Hperm.
      * by rewrite concat_empty_cons, StringFacts.append_assoc.
Qed.

Lemma generateMarkdown_split templateFile template part0 part1 part2 m weeks p :
  files p !! templateFile = Some template ->
  GoStrings.SplitN template "---" 3 = [part0; part1; part2] ->
  generateMarkdown templateFile m weeks p
  = (Returns ((fold_left renderWeek weeks
                 (GoStrings.TrimSpace part0 +:+ newline +:+ newline, m)).1
              +:+ GoStrings.TrimSpace part2 +:+ newline,
              (fold_left renderWeek weeks
                 (GoStrings.TrimSpace part0 +:+ newline +:+ newline, m)).2), p).
Proof.
  intros Hfile Hparts. unfold generateMarkdown, bind, os_ReadFile, ret.
  rewrite Hfile. cbn [files logged]. rewrite Hparts.
  by destruct (fold_left renderWeek weeks _).
Qed.

Lemma generateMarkdown_sections templateFile template part0 part1 part2 m weeks p :
  files p !! templateFile = Some template ->
  GoStrings.SplitN template "---" 3 = [part0; part1; part2] ->
  exists sections m',
    generateMarkdown templateFile m weeks p
    = (Returns (document (GoStrings.TrimSpace part0) sections (GoStrings.TrimSpace part2), m'),
       p)
    /\ Forall2 (sectionOf m) weeks sections.
Proof.
  intros Hfile Hparts.
  rewrite (generateMarkdown_split _ _ _ _ _ _ _ _ Hfile Hparts).
  destruct (renderWeeks_sections weeks (GoStrings.TrimSpace part0 +:+ newline +:+ newline)
              m m) as (sections & Hsections & Houtput); [done|].
  exists sections. eexists. split; [|done]. rewrite Houtput. unfold document.
  by rewrite !StringFacts.append_assoc.
Qed.

(** X6: with a template that splits on [---] into three parts,
    [generateMarkdown] returns the trimmed first part, a blank line, one
    section for every entry of [weeks] in the order of [weeks], the
    trimmed third part and a line end; the section of a week without
    articles is empty, and the section of any other week is made of its
    bucket sorted by whole seconds.  The second part of the template does
    not show in the document, and neither the log nor the files change. *)
Theorem generateMarkdown_document (templateFile template part0 part1 part2 : string)
        (m : gmap string (list Article)) (weeks : list string) (p : Process) :
  files p !! templateFile = Some template ->
  GoStrings.SplitN template "---" 3 = [part0; part1; part2] ->
  exists sections m',
    generateMarkdown templateFile m weeks p
    = (Returns (document (GoStrings.TrimSpace part0) sections (GoStrings.TrimSpace part2), m'),
       p)
    /\ Forall2 (sectionOf m) weeks sections.
Proof. apply generateMarkdown_sections. Qed.

(** X7: when no week of [weeks] has an article (the list is empty, or its
    keys are missing from the map or hold empty buckets), the document is
    the trimmed header, a blank line, the trimmed footer and a line end,
    and the map is returned as it was. *)
Theorem generateMarkdown_no_articles (templateFile template part0 part1 part2 : string)
        (m : gmap string (list Article)) (weeks : list string) (p : Process) :
  files p !! templateFile = Some template ->
  GoStrings.SplitN template "---" 3 = [part0; part1; part2] ->
  Forall (fun week => bucket m week = []) weeks ->
  generateMarkdown templateFile m weeks p
  = (Returns (GoStrings.TrimSpace part0 +:+ newline +:+ newline
              +:+ GoStrings.TrimSpace part2 +:+ newline, m), p).
Proof.
  intros Hfile Hparts Hempty.
  rewrite (generateMarkdown_split _ _ _ _ _ _ _ _ Hfile Hparts).
  assert (fold_left renderWeek weeks (GoStrings.TrimSpace part0 +:+ newline +:+ newline, m)
          = (GoStrings.TrimSpace part0 +:+ newline +:+ newline, m)) as ->.
  { induction Hempty as [|week weeks Hweek _ IH]; [done|].
    cbn [fold_left]. by rewrite renderWeek_empty. }
  cbn [fst snd]. by rewrite !StringFacts.append_assoc.
Qed.

End DocumentFacts.

Lemma generateMarkdown_document_witness :
  exists sections m',
    generateMarkdown (sorter := insertionSorter) "template.md"
      {["2025-01" := [articleA; articleB]]} ["2025-02"; "2025-01"] (mkProcess [] exampleFiles)
    = (Returns (document (GoStrings.TrimSpace "# News") sections (GoStrings.TrimSpace "bye"),
                m'),
       mkProcess [] exampleFiles)
    /\ Forall2 (sectionOf {["2025-01" := [articleA; articleB]]}) ["2025-02"; "2025-01"] sections.
Proof.
  apply (generateMarkdown_document (sorter := insertionSorter) "template.md"
           "# News---body---bye" "# News" "body" "bye").
  - vm_compute. reflexivity.
  - vm_compute. reflexivity.
Defined.

Lemma generateMarkdown_no_articles_witness :
  generateMarkdown (sorter := insertionSorter) "template.md"
    {["2025-01" := []]} ["2025-02"; "2025-01"] (mkProcess [] exampleFiles)
  = (Returns (GoStrings.TrimSpace "# News" +:+ newline +:+ newline
              +:+ GoStrings.TrimSpace "bye" +:+ newline, {["2025-01" := []]}),
     mkProcess [] exampleFiles).
Proof.
  apply (generateMarkdown_no_articles (sorter := insertionSorter) "template.md"
           "# News---body---bye" "# News" "body" "bye").
  - vm_compute. reflexivity.
  - vm_compute. reflexivity.
  - repeat constructor.
Defined.

(** ** The template and its delimiters *)

Section TemplateFacts.

Import GoStrings StringFacts.

Lemma take_append s1 s2 : take (String.length s1) (s1 +:+ s2) = s1.
Proof. induction s1 as [|c s1 IH]; [by destruct s2|]. rewrite append_cons. simpl. by rewrite IH. Qed.

Lemma drop_add n m s : drop (n + m) s = drop m (drop n s).
Proof.
  revert s. induction n as [|n IH]; intros s; [done|].
  destruct s as [|c s]; simpl; [by destruct m|]. apply IH.
Qed.

Lemma Index_cons c s sep :
  Index (String c s) sep
  = if HasPrefix (String c s) sep then Some O else S <$> Index s sep.
Proof. reflexivity. Qed.

Lemma Index_bound s sep i :
  Index s sep = Some i -> (i + String.length sep <= String.length s)%nat.
Proof.
  revert i. induction s as [|c s IH]; intros i.
  - destruct sep; simpl; [|done]. intros [= <-]. simpl. lia.
  - rewrite Index_cons. destruct (HasPrefix (String c s) sep) eqn:Hprefix.
    + intros [= <-]. clear IH. revert Hprefix. generalize (String c s). clear.
      induction sep as [|d sep IH]; intros s; simpl; [lia|].
      destruct s as [|c s]; [done|]. intros [_ Hrest%IH]%andb_prop. simpl. lia.
    + destruct (Index s sep) as [j|]; [|done]. intros [= <-].
      specialize (IH j eq_refl). simpl. lia.
Qed.

Lemma HasPrefix_nil s : HasPrefix s "" = true.
Proof. by destruct s. Qed.

(** The three bytes that [a ++ "--"] starts with are those that
    [a ++ "---" ++ rest] starts with. *)
Lemma HasPrefix_delimiter c a rest :
  HasPrefix (String c (a +:+ "---" +:+ rest)) "---"
  = HasPrefix (String c (a +:+ "--")) "---".
Proof.
  destruct a as [|d [|e a]]; [vm_compute; reflexivity..|].
  rewrite !append_cons. cbn [HasPrefix]. by rewrite !HasPrefix_nil.
Qed.

Lemma Index_delimiter a rest :
  Index (a +:+ "--") "---" = None ->
  Index (a +:+ "---" +:+ rest) "---" = Some (String.length a).
Proof.
  induction a as [|c a IH].
  - intros _. rewrite append_nil_l, !append_cons, Index_cons. cbn [HasPrefix].
    by rewrite HasPrefix_nil.
  - rewrite (append_cons c a "--"), (append_cons c a ("---" +:+ rest)).
    rewrite !Index_cons, HasPrefix_delimiter.
    destruct (HasPrefix (String c (a +:+ "--")) "---"); [done|].
    destruct (Index (a +:+ "--") "---"); [done|]. intros _. by rewrite IH.
Qed.

Lemma SplitN_delimiters header body footer :
  Index (header +:+ "--") "---" = None ->
  Index (body +:+ "--") "---" = None ->
  SplitN (header +:+ "---" +:+ body +:+ "---" +:+ footer) "---" 3 = [header; body; footer].
Proof.
  intros Hheader Hbody. unfold SplitN.
  rewrite !length_append. change (String.length "---") with 3%nat.
  replace (Nat.min 3 _ - 1)%nat with 2%nat by lia.
  cbn [splitLoop].
  rewrite (Index_delimiter header (body +:+ "---" +:+ footer) Hheader).
  rewrite take_append, drop_add, drop_append, (drop_append "---").
  rewrite (Index_delimiter body footer Hbody).
  by rewrite take_append, drop_add, drop_append, (drop_append "---").
Qed.

Lemma Count_SplitN template :
  (2 <= Count template "---")%nat <-> length (SplitN template "---" 3) = 3%nat.
Proof.
  unfold Count, SplitN. destruct (Index template "---") as [i|] eqn:Hfirst.
  - pose proof (Index_bound _ _ _ Hfirst) as Hi. change (String.length "---") with 3%nat in *.
    replace (Nat.min 3 _ - 1)%nat with 2%nat by lia.
    destruct (String.length template) as [|[|fuel]] eqn:Hlen; [lia..|].
    cbn [CountFrom splitLoop]. rewrite Hfirst. change (String.length "---") with 3%nat.
    destruct (Index (drop (i + 3) template) "---") as [j|]; cbn [length]; lia.
  - assert (CountFrom (String.length template) template "---" = O) as ->
      by (destruct (String.length template); cbn [CountFrom]; by rewrite ?Hfirst).
    assert (forall n, splitLoop n template "---" = [template]) as ->
      by (intros [|n]; cbn [splitLoop]; by rewrite ?Hfirst).
    cbn [length]. lia.
Qed.

End TemplateFacts.

Section TemplateRendering.

Context {sorter : GoSlices.Sorter}.

(** X15: a template whose first delimiter [---] ends the header and whose
    next one ends the body gives a document that begins with the trimmed
    header and ends with the trimmed footer, which is everything after
    the second delimiter (further delimiters included); the body
    between the two delimiters does not show in the document. *)
Theorem generateMarkdown_template (templateFile header body footer : string)
        (m : gmap string (list Article)) (weeks : list string) (p : Process) :
  files p !! templateFile = Some (header +:+ "---" +:+ body +:+ "---" +:+ footer) ->
  GoStrings.Index (header +:+ "--") "---" = None ->
  GoStrings.Index (body +:+ "--") "---" = None ->
  exists sections m',
    generateMarkdown templateFile m weeks p
    = (Returns (document (GoStrings.TrimSpace header) sections (GoStrings.TrimSpace footer), m'),
       p)
    /\ Forall2 (sectionOf m) weeks sections.
Proof.
  intros Hfile Hheader Hbody.
  apply (generateMarkdown_sections _ _ header body footer _ _ _ Hfile).
  by apply SplitN_delimiters.
Qed.

(** X16: a template file that is read is accepted exactly when it holds
    at least two delimiters [---] that do not overlap: then
    [generateMarkdown] returns and leaves the log and the files as they
    were, and otherwise it does not return. *)
Theorem generateMarkdown_accepts (templateFile template : string)
        (m : gmap string (list Article)) (weeks : list string) (p : Process) :
  files p !! templateFile = Some template ->
  (exists rendered, generateMarkdown templateFile m weeks p = (Returns rendered, p))
  <-> (2 <= GoStrings.Count template "---")%nat.
Proof.
  intros Hfile. rewrite Count_SplitN. split.
  - intros [rendered Hrendered].
    destruct (decide (length (GoStrings.SplitN template "---" 3) = 3%nat)) as [|Hparts];
      [done|].
    by rewrite (generateMarkdown_malformed _ template) in Hrendered.
  - intros Hparts.
    destruct (generateMarkdown_Returns templateFile template m weeks p Hfile Hparts)
      as (output & header & ->). eauto.
Qed.

End TemplateRendering.

Lemma generateMarkdown_template_witness :
  exists sections m',
    generateMarkdown (sorter := insertionSorter) "template.md"
      {["2025-01" := [articleA; articleB]]} ["2025-01"]
      (mkProcess [] {["template.md" := "# News - daily" +:+ "---" +:+ "-- body " +:+ "---"
                                       +:+ " bye --- bye "]})
    = (Returns (document (GoStrings.TrimSpace "# News - daily") sections
                         (GoStrings.TrimSpace " bye --- bye "), m'),
       mkProcess [] {["template.md" := "# News - daily" +:+ "---" +:+ "-- body " +:+ "---"
                                       +:+ " bye --- bye "]})
    /\ Forall2 (sectionOf {["2025-01" := [articleA; articleB]]}) ["2025-01"] sections.
Proof.
  apply (generateMarkdown_template (sorter := insertionSorter) "template.md"
           "# News - daily" "-- body " " bye --- bye ").
  - vm_compute. reflexivity.
  - vm_compute. reflexivity.
  - vm_compute. reflexivity.
Defined.

Lemma generateMarkdown_accepts_witness :
  (exists rendered,
     generateMarkdown (sorter := insertionSorter) "template.md" ∅ []
       (mkProcess [] exampleFiles)
     = (Returns rendered, mkProcess [] exampleFiles))
  <-> (2 <= GoStrings.Count "# News---body---bye" "---")%nat.
Proof.
  apply (generateMarkdown_accepts (sorter := insertionSorter) "template.md"
           "# News---body---bye" ∅ [] (mkProcess [] exampleFiles)).
  vm_compute. reflexivity.
Defined.

(** ** The run as a whole *)

Section RunFacts.

Context {sorter : GoSlices.Sorter}.

(** [main] up to the loop over the feeds. *)
Lemma main_configured env p data config :
  files p !! "config.yaml" = Some data ->
  yaml_Unmarshal env data = Ok config ->
  main env p
  = match fetchFeeds env (∅, []) (Feeds config)
            (mkProcess (logged p ++ [bannerLine env; feedsLine config]) (files p)) with
    | (Returns g, p1) =>
        let weeks := GoSlices.Reverse (GoSort.Strings g.2) in
        match generateMarkdown (Template config) g.1 weeks
                (mkProcess (logged p1 ++ ["-> Sorted and reversed "
                                          +:+ GoFmt.verb_d (Z.of_nat (length weeks))
                                          +:+ " weeks"]) (files p1)) with
        | (Returns rendered, p2) =>
            match os_WriteFile_error env (Output config) with
            | Some err =>
                (Exits 1,
                 mkProcess (logged p2 ++ ["-> Generated Markdown output";
                                          "Error writing output file: " +:+ err])
                           (files p2))
            | None =>
                (Returns tt,
                 mkProcess (logged p2 ++ ["-> Generated Markdown output";
                                          "-> Wrote output to " +:+ Output config;
                                          "Paperboy finished"])
                           (<[Output config := rendered.1]> (files p2)))
            end
        | (Panics msg, p2) => (Panics msg, p2)
        | (Exits code, p2) => (Exits code, p2)
        end
    | (Panics msg, p1) => (Panics msg, p1)
    | (Exits code, p1) => (Exits code, p1)
    end.
Proof.
  intros Hconfig Hyaml.
  unfold main, bind at 1 2 3 4 5 6, log_Printf at 1 2, os_ReadFile, ret.
  cbn [files logged]. rewrite Hconfig. cbn [files logged]. rewrite Hyaml.
  cbn [files logged]. rewrite <- app_assoc. cbn [app].
  fold (bannerLine env). fold (feedsLine config).
  destruct (fetchFeeds env _ _ _) as [[[articlesByWeek weeks]|msg|code] p1]; [|done..].
  unfold bind at 1 2, log_Printf at 1. cbn [fst snd files logged].
  destruct (generateMarkdown _ _ _ _) as [[rendered|msg|code] p2]; [|done..].
  unfold bind, log_Printf, os_WriteFile, log_Fatalf. cbn [files logged].
  destruct (os_WriteFile_error env (Output config)) as [err|]; cbn [files logged].
  - by rewrite <- app_assoc.
  - by rewrite <- !app_assoc.
Qed.

Lemma generateMarkdown_missing templateFile m weeks p :
  files p !! templateFile = None ->
  generateMarkdown templateFile m weeks p
  = (Exits 1,
     mkProcess (logged p ++ ["Error reading template file: " +:+ missingFile templateFile])
               (files p)).
Proof.
  intros Hfile. unfold generateMarkdown, bind, os_ReadFile, log_Fatalf. by rewrite Hfile.
Qed.

Lemma generateMarkdown_outcome templateFile m weeks p :
  (exists rendered, generateMarkdown templateFile m weeks p = (Returns rendered, p))
  \/ (exists line,
        generateMarkdown templateFile m weeks p
        = (Exits 1, mkProcess (logged p ++ [line]) (files p))).
Proof.
  destruct (files p !! templateFile) as [template|] eqn:Hfile.
  - destruct (decide (length (GoStrings.SplitN template "---" 3) = 3%nat)) as [Hparts|Hparts].
    + destruct (generateMarkdown_Returns templateFile template m weeks p Hfile Hparts)
        as (output & header & ->). left. eauto.
    + right. rewrite (generateMarkdown_malformed _ template) by done. eauto.
  - right. rewrite generateMarkdown_missing by done. eauto.
Qed.

Lemma last_app_snoc {A : Type} (l k : list A) (x : A) : last (l ++ k ++ [x]) = Some x.
Proof. rewrite app_assoc. apply last_snoc. Qed.

Lemma Forall2_impl_elem {A B : Type} (P Q : A -> B -> Prop) (l : list A) (k : list B) :
  Forall2 P l k -> (forall x y, x ∈ l -> P x y -> Q x y) -> Forall2 Q l k.
Proof.
  induction 1 as [|x y l k Hxy _ IH]; intros Himpl; constructor.
  - apply Himpl; [left|done].
  - apply IH. intros x' y' Hin. apply Himpl. by right.
Qed.

Lemma sectionOf_grouped (articles : list Article) (week section : string) :
  week ∈ map weekID articles ->
  sectionOf (groupArticles (∅, []) articles).1 week section ->
  weekSectionOf articles week section.
Proof.
  intros Hin. unfold sectionOf, weekSectionOf. rewrite groupArticles_bucket.
  intros [[Hnil _]|[_ Hsection]]; [|done].
  by apply articlesOfWeek_nil in Hnil.
Qed.

Lemma main_unconfigured env p :
  (files p !! "config.yaml" = None
   \/ exists data err,
        files p !! "config.yaml" = Some data /\ yaml_Unmarshal env data = Err err) ->
  exists line,
    main env p = (Exits 1, mkProcess (logged p ++ [bannerLine env; line]) (files p)).
Proof.
  unfold main, bind, log_Printf, os_ReadFile, log_Fatalf, ret. cbn [files logged].
  intros [Hconfig|(data & err & Hconfig & Hyaml)]; rewrite Hconfig; cbn [files logged].
  - rewrite <- app_assoc. eauto.
  - rewrite Hyaml. cbn [files logged]. rewrite <- app_assoc. eauto.
Qed.

(** X8: a run that finds no [config.yaml] exits with code 1 after the
    banner and the diagnostic of the failed read; it fetches no feed and
    leaves every file as it was. *)
Theorem main_config_missing (env : Env) (p : Process) :
  files p !! "config.yaml" = None ->
  main env p
  = (Exits 1,
     mkProcess (logged p ++ [bannerLine env;
                             "Error reading config.yaml file: " +:+ missingFile "config.yaml"])
               (files p)).
Proof.
  intros Hconfig. unfold main, bind, log_Printf, os_ReadFile, log_Fatalf.
  cbn [files logged]. rewrite Hconfig. cbn [files logged]. by rewrite <- app_assoc.
Qed.

(** X9: a run whose [config.yaml] the YAML decoder refuses exits with
    code 1 after the banner and the decoder's error; it fetches no feed
    and leaves every file as it was. *)
Theorem main_config_malformed (env : Env) (p : Process) (data err : string) :
  files p !! "config.yaml" = Some data ->
  yaml_Unmarshal env data = Err err ->
  main env p
  = (Exits 1,
     mkProcess (logged p ++ [bannerLine env; "Error parsing config.yaml file: " +:+ err])
               (files p)).
Proof.
  intros Hconfig Hyaml. unfold main, bind, log_Printf, os_ReadFile, log_Fatalf, ret.
  cbn [files logged]. rewrite Hconfig. cbn [files logged]. rewrite Hyaml.
  cbn [files logged]. by rewrite <- app_assoc.
Qed.

(** X10: a feed on which [fetchArticles] panics ends the whole run with a
    nil pointer dereference, wherever the feed is in the configuration:
    nothing is rendered and no file is written. *)
Theorem main_feed_panic (env : Env) (p : Process) (data : string) (config : Config) :
  files p !! "config.yaml" = Some data ->
  yaml_Unmarshal env data = Ok config ->
  (exists feedURL msg, feedURL ∈ Feeds config /\ fetchArticles env feedURL = Panics msg) ->
  (main env p).1 = Panics nilDereference /\ files (main env p).2 = files p.
Proof.
  intros Hconfig Hyaml Hpanic. rewrite (main_configured env p data config) by done.
  match goal with
  | |- context [fetchFeeds env ?g ?feeds ?q] =>
      destruct (fetchFeeds_panicking env feeds g q Hpanic) as [Hpanics Hfiles];
      destruct (fetchFeeds env g feeds q) as [[g'|msg|code] p1]
  end; cbn [fst snd files] in *; [discriminate| |discriminate].
  by injection Hpanics as ->.
Qed.

(** X11: a run whose template file is missing does not complete and
    leaves every file as it was: after the feeds have been fetched it
    exits with code 1 and the diagnostic of the failed read, unless it
    has panicked before, while fetching. *)
Theorem main_template_missing (env : Env) (p : Process) (data : string) (config : Config) :
  files p !! "config.yaml" = Some data ->
  yaml_Unmarshal env data = Ok config ->
  files p !! Template config = None ->
  files (main env p).2 = files p
  /\ (((main env p).1 = Exits 1
       /\ last (logged (main env p).2)
          = Some ("Error reading template file: " +:+ missingFile (Template config)))
      \/ (main env p).1 = Panics nilDereference).
Proof.
  intros Hconfig Hyaml Hfile. rewrite (main_configured env p data config) by done.
  match goal with
  | |- context [fetchFeeds env ?g ?feeds ?q] =>
      pose proof (fetchFeeds_readonly env g feeds q) as Hfiles;
      pose proof (fetchFeeds_outcome env feeds g q) as Hout;
      destruct (fetchFeeds env g feeds q) as [[g'|msg|code] p1]
  end; cbn [fst snd files] in *.
  - rewrite generateMarkdown_missing by (cbn [files]; congruence).
    cbn [fst snd files logged]. split; [done|]. left. split; [done|]. apply last_snoc.
  - destruct Hout as [[? [=]]|[= ->]]. split; [done|]. by right.
  - by destruct Hout as [[? [=]]|[=]].
Qed.


Lemma main_completes env p data template part0 part1 part2 config :
  files p !! "config.yaml" = Some data ->
  yaml_Unmarshal env data = Ok config ->
  feedsAnswer env (Feeds config) ->
  files p !! Template config = Some template ->
  GoStrings.SplitN template "---" 3 = [part0; part1; part2] ->
  os_WriteFile_error env (Output config) = None ->
  let articles := fetchedArticles env (Feeds config) in
  let weeks := GoSlices.Reverse (GoSort.Strings (firstSeen (map weekID articles))) in
  exists sections,
    Forall2 (weekSectionOf articles) weeks sections
    /\ (main env p).1 = Returns tt
    /\ files (main env p).2
       = <[Output config := document (GoStrings.TrimSpace part0) sections
                                     (GoStrings.TrimSpace part2)]> (files p)
    /\ last (logged (main env p).2) = Some "Paperboy finished".
Proof.
  intros Hconfig Hyaml Hfeeds Hfile Hparts Hwrite articles weeks.
  rewrite (main_configured env p data config) by done.
  match goal with
  | |- context [fetchFeeds env ?g ?feeds ?q] =>
      destruct (fetchFeeds_answering env feeds g q Hfeeds) as (lines & -> & _)
  end. fold articles. cbn [fst snd files logged].
  rewrite groupArticles_weeks. fold weeks.
  match goal with
  | |- context [generateMarkdown ?tf ?m ?weeks ?q] =>
      destruct (generateMarkdown_sections tf template part0 part1 part2 m weeks q Hfile Hparts)
        as (sections & m' & -> & Hsections)
  end. rewrite Hwrite. cbn [fst snd files logged].
  exists sections. split; [|split; [done|split; [done|]]].
  - eapply Forall2_impl_elem; [exact Hsections|]. intros week section Hin.
    apply sectionOf_grouped. subst weeks. unfold GoSlices.Reverse in Hin.
    rewrite <- (Permutation_rev _), (Strings_Permutation _) in Hin. by apply elem_of_firstSeen.
  - exact (last_app_snoc _ [_; _] _).
Qed.

(** X13: a run with a configuration that decodes, feeds that do not make
    [fetchArticles] panic, a template that splits in three and an output
    file that can be written completes.  It changes no file but the
    output file, which then holds the trimmed header, a blank line, one
    section for every ISO week that has a fetched article, in descending
    byte order of the week keys, the trimmed footer and a line end; the
    section of a week lists exactly the fetched articles of that week,
    sorted by whole seconds. *)
Theorem main_success (env : Env) (p : Process) (data template part0 part1 part2 : string)
        (config : Config) :
  files p !! "config.yaml" = Some data ->
  yaml_Unmarshal env data = Ok config ->
  feedsAnswer env (Feeds config) ->
  files p !! Template config = Some template ->
  GoStrings.SplitN template "---" 3 = [part0; part1; part2] ->
  os_WriteFile_error env (Output config) = None ->
  let articles := fetchedArticles env (Feeds config) in
  let weeks := GoSlices.Reverse (GoSort.Strings (firstSeen (map weekID articles))) in
  exists sections,
    Forall2 (weekSectionOf articles) weeks sections
    /\ (main env p).1 = Returns tt
    /\ files (main env p).2
       = <[Output config := document (GoStrings.TrimSpace part0) sections
                                     (GoStrings.TrimSpace part2)]> (files p)
    /\ last (logged (main env p).2) = Some "Paperboy finished".
Proof. apply main_completes. Qed.

(** X22: a run that fetches no article, because it has no feed or because
    every feed fails or is empty, still completes and writes the output
    file, which then holds the trimmed header, a blank line, the trimmed
    footer and a line end. *)
Theorem main_no_articles (env : Env) (p : Process)
        (data template part0 part1 part2 : string) (config : Config) :
  files p !! "config.yaml" = Some data ->
  yaml_Unmarshal env data = Ok config ->
  feedsAnswer env (Feeds config) ->
  fetchedArticles env (Feeds config) = [] ->
  files p !! Template config = Some template ->
  GoStrings.SplitN template "---" 3 = [part0; part1; part2] ->
  os_WriteFile_error env (Output config) = None ->
  (main env p).1 = Returns tt
  /\ files (main env p).2
     = <[Output config := GoStrings.TrimSpace part0 +:+ newline +:+ newline
                          +:+ GoStrings.TrimSpace part2 +:+ newline]> (files p).
Proof.
  intros Hconfig Hyaml Hfeeds Hnone Hfile Hparts Hwrite.
  destruct (main_completes env p data template part0 part1 part2 config)
    as (sections & Hsections & Hreturns & Hfiles & _); [done..|].
  rewrite Hnone in Hsections. apply Forall2_nil_inv_l in Hsections as ->.
  split; [done|]. rewrite Hfiles. unfold document.
  by rewrite StringFacts.append_nil_l.
Qed.


End RunFacts.

Lemma main_config_missing_witness :
  main (sorter := insertionSorter) exampleEnv (mkProcess [] ∅)
  = (Exits 1,
     mkProcess ([] ++ [bannerLine exampleEnv;
                       "Error reading config.yaml file: " +:+ missingFile "config.yaml"])
               ∅).
Proof.
  apply (main_config_missing (sorter := insertionSorter) exampleEnv (mkProcess [] ∅)).
  reflexivity.
Defined.

Lemma main_config_malformed_witness :
  main (sorter := insertionSorter) refusingEnv (mkProcess [] exampleFiles)
  = (Exits 1,
     mkProcess ([] ++ [bannerLine refusingEnv;
                       "Error parsing config.yaml file: " +:+ "yaml: unmarshal errors"])
               exampleFiles).
Proof.
  apply (main_config_malformed (sorter := insertionSorter) refusingEnv
           (mkProcess [] exampleFiles) "template: template.md").
  - vm_compute. reflexivity.
  - reflexivity.
Defined.

Lemma main_feed_panic_witness :
  (main (sorter := insertionSorter) undatedEnv (mkProcess [] exampleFiles)).1
  = Panics nilDereference
  /\ files (main (sorter := insertionSorter) undatedEnv (mkProcess [] exampleFiles)).2
     = exampleFiles.
Proof.
  apply (main_feed_panic (sorter := insertionSorter) undatedEnv (mkProcess [] exampleFiles)
           "template: template.md" exampleConfig).
  - vm_compute. reflexivity.
  - reflexivity.
  - exists exampleFeed, nilDereference. split; [left|]. vm_compute. reflexivity.
Defined.

Lemma main_template_missing_witness :
  let p := mkProcess [] {["config.yaml" := "template: template.md"]} in
  files (main (sorter := insertionSorter) exampleEnv p).2 = files p
  /\ (((main (sorter := insertionSorter) exampleEnv p).1 = Exits 1
       /\ last (logged (main (sorter := insertionSorter) exampleEnv p).2)
          = Some ("Error reading template file: " +:+ missingFile (Template exampleConfig)))
      \/ (main (sorter := insertionSorter) exampleEnv p).1 = Panics nilDereference).
Proof.
  apply (main_template_missing (sorter := insertionSorter) exampleEnv
           (mkProcess [] {["config.yaml" := "template: template.md"]})
           "template: template.md" exampleConfig).
  - vm_compute. reflexivity.
  - reflexivity.
  - vm_compute. reflexivity.
Defined.

Lemma exampleFeed_answers (env : Env) :
  gofeed_ParseURL env exampleFeed = Ok [itemA; itemB] ->
  feedsAnswer env [exampleFeed].
Proof.
  intros Hfeed. repeat constructor. exists (Ok [articleA; articleB]).
  unfold fetchArticles. rewrite Hfeed. vm_compute. reflexivity.
Qed.


Lemma main_success_witness :
  let articles := fetchedArticles exampleEnv [exampleFeed] in
  let weeks := GoSlices.Reverse (GoSort.Strings (firstSeen (map weekID articles))) in
  exists sections,
    Forall2 (weekSectionOf articles) weeks sections
    /\ (main (sorter := insertionSorter) exampleEnv (mkProcess [] exampleFiles)).1 = Returns tt
    /\ files (main (sorter := insertionSorter) exampleEnv (mkProcess [] exampleFiles)).2
       = <["news.md" := document (GoStrings.TrimSpace "# News") sections
                                 (GoStrings.TrimSpace "bye")]> exampleFiles
    /\ last (logged (main (sorter := insertionSorter) exampleEnv
                       (mkProcess [] exampleFiles)).2)
       = Some "Paperboy finished".
Proof.
  apply (main_success (sorter := insertionSorter) exampleEnv (mkProcess [] exampleFiles)
           "template: template.md" "# News---body---bye" "# News" "body" "bye"
           exampleConfig).
  - vm_compute. reflexivity.
  - reflexivity.
  - apply exampleFeed_answers. reflexivity.
  - vm_compute. reflexivity.
  - vm_compute. reflexivity.
  - reflexivity.
Defined.

Lemma main_no_articles_witness :
  (main (sorter := insertionSorter) silentEnv (mkProcess [] exampleFiles)).1 = Returns tt
  /\ files (main (sorter := insertionSorter) silentEnv (mkProcess [] exampleFiles)).2
     = <["news.md" := GoStrings.TrimSpace "# News" +:+ newline +:+ newline
                      +:+ GoStrings.TrimSpace "bye" +:+ newline]> exampleFiles.
Proof.
  apply (main_no_articles (sorter := insertionSorter) silentEnv (mkProcess [] exampleFiles)
           "template: template.md" "# News---body---bye" "# News" "body" "bye"
           exampleConfig).
  - vm_compute. reflexivity.
  - reflexivity.
  - repeat constructor. exists (Err "error fetching feed: no such host").
    vm_compute. reflexivity.
  - vm_compute. reflexivity.
  - vm_compute. reflexivity.
  - vm_compute. reflexivity.
  - reflexivity.
Defined.

(** ** Week keys and ISO weeks *)

Section KeyFacts.

Import GoStrconv GoFmt StringFacts.

Lemma append_inj_length s1 s2 t1 t2 :
  String.length s1 = String.length s2 ->
  s1 +:+ t1 = s2 +:+ t2 -> s1 = s2 /\ t1 = t2.
Proof.
  revert s2. induction s1 as [|c s1 IH]; intros [|d s2] Hlen; try done.
  rewrite !append_cons. intros [= -> Hrest].
  destruct (IH s2) as [-> ->]; [by injection Hlen|done|done].
Qed.

Lemma decimal_inj u v : 0 <= u -> 0 <= v -> decimal u = decimal v -> u = v.
Proof.
  intros Hu Hv Heq.
  destruct (decimal_spec u Hu) as (_ & <- & _).
  destruct (decimal_spec v Hv) as (_ & <- & _). by rewrite Heq.
Qed.

Lemma decimal_not_signed u r : 0 <= u -> decimal u <> String "-" r.
Proof.
  intros Hu Heq. destruct (decimal_spec u Hu) as (Hdigits & _).
  rewrite Heq in Hdigits. done.
Qed.

Lemma verb_d_inj x y : verb_d x = verb_d y -> x = y.
Proof.
  unfold verb_d. destruct (Z.ltb_spec x 0), (Z.ltb_spec y 0); rewrite ?append_cons, ?append_nil_l.
  - intros [= Heq]. apply decimal_inj in Heq; lia.
  - intros Heq. symmetry in Heq. by apply decimal_not_signed in Heq.
  - intros Heq. by apply decimal_not_signed in Heq.
  - by apply decimal_inj.
Qed.

Lemma Sprintf_d_02d_inj y1 w1 y2 w2 :
  1 <= w1 <= 53 -> 1 <= w2 <= 53 ->
  Sprintf_d_02d y1 w1 = Sprintf_d_02d y2 w2 -> y1 = y2 /\ w1 = w2.
Proof.
  intros Hw1 Hw2. unfold Sprintf_d_02d.
  destruct (two_digits w1) as (_ & Hv1 & Hl1); [lia|].
  destruct (two_digits w2) as (_ & Hv2 & Hl2); [lia|].
  intros Heq.
  assert (String.length (verb_d y1) = String.length (verb_d y2)) as Hlen.
  { apply (f_equal String.length) in Heq. rewrite !length_append, Hl1, Hl2 in Heq. lia. }
  apply append_inj_length in Heq as [Hyear Hweek]; [|done].
  apply verb_d_inj in Hyear. rewrite !append_cons, !append_nil_l in Hweek.
  injection Hweek as Hweek. split; [done|]. by rewrite <- Hv1, <- Hv2, Hweek.
Qed.

Lemma weekID_yearWeek_inj a b : weekID a = weekID b <-> yearWeek a = yearWeek b.
Proof.
  rewrite !weekID_yearWeek. split; [|by intros ->].
  intros Heq. apply Sprintf_d_02d_inj in Heq as [Hyear Hweek];
    try apply ISOWeek_week_range.
  destruct (yearWeek a), (yearWeek b). simpl in *. congruence.
Qed.

End KeyFacts.

(** X17: two articles get the same week key exactly when their publish
    times fall, in UTC, in the same ISO week of the same ISO year; so
    after grouping, the bucket of an article's key holds the fetched
    articles of its ISO week and no other. *)
Theorem weekID_same_week (articles : list Article) (a b : Article) :
  (weekID a = weekID b <-> yearWeek a = yearWeek b)
  /\ (b ∈ bucket (groupArticles (∅, []) articles).1 (weekID a)
      <-> b ∈ articles /\ yearWeek b = yearWeek a).
Proof.
  split; [apply weekID_yearWeek_inj|].
  rewrite groupArticles_bucket. unfold articlesOfWeek.
  rewrite list_elem_of_filter, weekID_yearWeek_inj. tauto.
Qed.

(** ** What [getURLDomain] returns *)

Section MatcherFacts.

Import GoStrings GoRegexp StringFacts.

Lemma take_add n m s : take (n + m) s = take n s +:+ take m (drop n s).
Proof.
  revert s. induction n as [|n IH]; intros s; [done|].
  destruct s as [|c s]; simpl; [by destruct m|]. by rewrite IH.
Qed.

(** The matcher is sound: when it answers, it has matched a text of the
    language of the pattern and has called its continuation at the end of
    that text. *)
Lemma run_sound r pos s (k : Cont) e :
  run r pos s k = Some e ->
  exists n, Matches r (take n s) /\ k (pos + n)%nat (drop n s) = Some e.
Proof.
  revert pos s k e. induction r as [c|ranges| |r1 IH1 r2 IH2|r1 IH1|r1 IH1|r1 IH1];
    intros pos s k e.
  - destruct s as [|c' s]; [done|]. rewrite run_Lit_cons.
    destruct (Ascii.eqb_spec c' c) as [->|]; [|done]. intros Hk.
    exists 1%nat. rewrite Nat.add_1_r. split; [constructor|done].
  - cbn [run]. destruct s as [|c' s]; [done|].
    destruct (inClass ranges c') eqn:Hclass; [|done]. intros Hk.
    exists 1%nat. rewrite Nat.add_1_r. split; [by constructor|done].
  - cbn [run]. destruct (pos =? 0)%nat; [|done]. intros Hk.
    exists 0%nat. rewrite Nat.add_0_r. split; [constructor|done].
  - rewrite run_Concat. intros (n1 & Hw1 & Hrest)%IH1.
    apply IH2 in Hrest as (n2 & Hw2 & Hk). exists (n1 + n2)%nat.
    rewrite take_add, drop_add, Nat.add_assoc. split; [by constructor|done].
  - cbn [run]. destruct (run r1 pos s k) as [e'|] eqn:Hrun.
    + intros [= ->]. apply IH1 in Hrun as (n & Hw & Hk).
      exists n. split; [by constructor|done].
    + intros Hk. exists 0%nat. rewrite Nat.add_0_r. split; [constructor|done].
  - rewrite run_Plus. generalize (String.length s) at 1. intros fuel.
    revert pos s. induction fuel as [|fuel IHfuel]; intros pos s;
      rewrite plusLoop_unfold; intros (n1 & Hw1 & Hk)%IH1.
    + exists n1. split; [by constructor|done].
    + destruct (String.length (drop n1 s) <? String.length s)%nat;
        [|exists n1; split; [by constructor|done]].
      destruct (plusLoop (run r1) k fuel (pos + n1) (drop n1 s)) as [e'|] eqn:Hloop;
        [|exists n1; split; [by constructor|done]].
      injection Hk as ->. apply IHfuel in Hloop as (n2 & Hw2 & Hk).
      exists (n1 + n2)%nat. rewrite take_add, drop_add, Nat.add_assoc.
      split; [by apply Matches_Plus_more|done].
  - rewrite run_Group. intros (n & Hw & Hk)%IH1. exists n. split; [by constructor|done].
Qed.

Lemma find_sound r pos s b e :
  find r pos s = Some (b, e) ->
  exists i n, b = (pos + i)%nat /\ e = (b + n)%nat /\ Matches r (take n (drop i s)).
Proof.
  revert pos. induction s as [|c s IH]; intros pos; cbn [find].
  - destruct (run r pos "" _) as [e'|] eqn:Hrun; [|done]. intros [= <- <-].
    apply run_sound in Hrun as (n & Hw & [= <-]). exists 0%nat, n.
    by rewrite Nat.add_0_r.
  - destruct (run r pos (String c s) _) as [e'|] eqn:Hrun.
    + intros [= <- <-]. apply run_sound in Hrun as (n & Hw & [= <-]).
      exists 0%nat, n. by rewrite Nat.add_0_r.
    + intros (i & n & -> & -> & Hw)%IH. exists (S i), n.
      split; [lia|]. split; [lia|done].
Qed.

Lemma FindString_sound r s : FindString r s = "" \/ Matches r (FindString r s).
Proof.
  unfold FindString. destruct (find r 0 s) as [[b e]|] eqn:Hfind; [|by left].
  apply find_sound in Hfind as (i & n & -> & -> & Hw). right.
  unfold slice. by replace (0 + i + n - (0 + i))%nat with n by lia.
Qed.

(** The language of the pattern of [getURLDomain]. *)
Lemma Matches_label w : Matches (Plus (CharClass label_class)) w -> isLabel w.
Proof.
  intros Hw. remember (Plus (CharClass label_class)) as re eqn:Hr.
  induction Hw as [| | | | | |r w Hw _|r w1 w2 Hw1 _ Hw2 IH2|]; try done;
    simplify_eq.
  - inversion Hw as [|ranges c Hc| | | | | | |]; subst. split; [done|].
    simpl. unfold isLabelChar. by rewrite Hc.
  - inversion Hw1 as [|ranges c Hc| | | | | | |]; subst.
    destruct (IH2 eq_refl) as [_ Hall]. split; [done|].
    rewrite append_cons. simpl. unfold isLabelChar. by rewrite Hc.
Qed.

Lemma Matches_dotted w :
  Matches (Plus (Group (Concat (Plus (CharClass label_class)) (Lit ".")))) w ->
  exists labels, labels <> [] /\ Forall isLabel labels
                 /\ forall l, w +:+ l = bareDomain (labels ++ [l]).
Proof.
  assert (Hgroup : forall w,
             Matches (Group (Concat (Plus (CharClass label_class)) (Lit "."))) w ->
             exists l, isLabel l /\ w = l +:+ ".").
  { intros w' Hw. inversion Hw as [| | | | | | | |r w0 Hw0]; subst.
    inversion Hw0 as [| | |r1 r2 w1 w2 Hw1 Hw2| | | | |]; subst.
    inversion Hw2; subst. exists w1. split; [by apply Matches_label|done]. }
  intros Hw.
  remember (Plus (Group (Concat (Plus (CharClass label_class)) (Lit ".")))) as re eqn:Hr.
  induction Hw as [| | | | | |r w Hw _|r w1 w2 Hw1 _ Hw2 IH2|]; try done;
    simplify_eq.
  - apply Hgroup in Hw as (l & Hl & ->). exists [l]. split; [done|].
    split; [by constructor|]. intros l'. by rewrite append_assoc.
  - apply Hgroup in Hw1 as (l & Hl & ->).
    destruct (IH2 eq_refl) as (labels & Hne & Hall & Hjoin).
    exists (l :: labels). split; [done|]. split; [by constructor|]. intros l'.
    rewrite !append_assoc, Hjoin. unfold bareDomain.
    destruct labels as [|l2 labels]; [done|]. cbn [app]. by rewrite concat_cons_cons.
Qed.

Lemma Matches_domain w : Matches re_domain w -> isBareDomain w.
Proof.
  intros Hw. inversion Hw as [| | |r1 r2 w1 w2 Hw1 Hw2| | | | |]; subst.
  apply Matches_dotted in Hw1 as (labels & Hne & Hall & Hjoin).
  apply Matches_label in Hw2. exists (labels ++ [w2]). split; [|split].
  - rewrite length_app. destruct labels; [done|]. simpl. lia.
  - apply Forall_app. split; [done|by constructor].
  - apply Hjoin.
Qed.

Lemma getURLDomain_shape urlString domain :
  getURLDomain urlString = Returns domain -> domain = "" \/ isBareDomain domain.
Proof.
  unfold getURLDomain.
  assert (forall s, FindString re_domain s = "" \/ isBareDomain (FindString re_domain s))
    as Hfind.
  { intros s. destruct (FindString_sound re_domain s) as [->|Hw]; [by left|right].
    by apply Matches_domain. }
  destruct (MatchString re_scheme _).
  - destruct (GoURL.Parse _) as [read|]; [|done]. simpl. intros [= <-]. apply Hfind.
  - simpl. intros [= <-]. apply Hfind.
Qed.

End MatcherFacts.

(** X18: whatever [getURLDomain] returns is empty or a bare domain: two
    or more non-empty labels of lowercase letters, digits and hyphens,
    joined by dots.  It never returns a scheme, a port, a path, white
    space or an uppercase letter. *)
Theorem getURLDomain_result (urlString domain : string) :
  getURLDomain urlString = Returns domain -> domain = "" \/ isBareDomain domain.
Proof. apply getURLDomain_shape. Qed.

Lemma getURLDomain_result_witness : "xample.com" = "" \/ isBareDomain "xample.com".
Proof.
  apply (getURLDomain_result "https://Example.com:8080/a?b#c" "xample.com").
  vm_compute. reflexivity.
Defined.

(** ** Links with a scheme, and the prefix [www.] *)

Section LinkFacts.

Import GoStrings GoRegexp GoURL StringFacts.

Lemma find_www s : find re_www 0 ("www." +:+ s) = Some (0%nat, 4%nat).
Proof. vm_compute. reflexivity. Qed.

Lemma replaceLoop_S fuel re src repl searchPos lastMatchEnd :
  replaceLoop (S fuel) re src repl searchPos lastMatchEnd
  = if (String.length src <? searchPos)%nat then drop lastMatchEnd src
    else
      match find re searchPos (drop searchPos src) with
      | None => drop lastMatchEnd src
      | Some (a0, a1) =>
          slice lastMatchEnd a0 src
          +:+ (if (lastMatchEnd <? a1)%nat || (a0 =? 0)%nat then repl else "")
          +:+ replaceLoop fuel re src repl
                (if (a1 <? searchPos + 1)%nat then searchPos + 1 else a1)%nat a1
      end.
Proof. reflexivity. Qed.

(** [^www\.] is replaced once, where the text begins. *)
Lemma ReplaceAllString_www s : ReplaceAllString re_www ("www." +:+ s) "" = s.
Proof.
  unfold ReplaceAllString. rewrite length_append.
  replace (String.length "www." + String.length s + 1)%nat
    with (S (S (String.length s + 3)))%nat by (simpl; lia).
  rewrite replaceLoop_S. change (drop 0 ("www." +:+ s)) with ("www." +:+ s).
  rewrite find_www. change (String.length ("www." +:+ s) <? 0)%nat with false.
  cbv iota beta. change (slice 0 0 ("www." +:+ s)) with "".
  change ((0 <? 4)%nat || (0 =? 0)%nat) with true. cbv iota.
  change (if (4 <? 0 + 1)%nat then (0 + 1)%nat else 4%nat) with 4%nat.
  rewrite replaceLoop_S, length_append.
  replace (String.length "www." + String.length s <? 4)%nat with false
    by (symmetry; apply Nat.ltb_ge; simpl; lia).
  unfold re_www at 1. by rewrite find_anchored.
Qed.

Lemma allChars_append P s t : allChars P (s +:+ t) = allChars P s && allChars P t.
Proof.
  induction s as [|c s IH]; [done|]. rewrite append_cons. simpl.
  by rewrite IH, andb_assoc.
Qed.

Lemma allChars_impl (P Q : ascii -> bool) s :
  (forall c, P c = true -> Q c = true) -> allChars P s = true -> allChars Q s = true.
Proof.
  intros HPQ. induction s as [|c s IH]; [done|]. simpl.
  intros [Hc Hs]%andb_prop. by rewrite (HPQ c Hc), IH.
Qed.

Lemma eqb_absent (P : ascii -> bool) c x : P c = true -> P x = false -> Ascii.eqb c x = false.
Proof. intros Hc Hx. destruct (Ascii.eqb_spec c x) as [->|]; congruence. Qed.

Lemma HasPrefix_absent P s x sep :
  allChars P s = true -> P x = false -> HasPrefix s (String x sep) = false.
Proof.
  destruct s as [|c s]; [done|]. simpl. intros [Hc _]%andb_prop Hx.
  by rewrite (eqb_absent P c x).
Qed.

Lemma Index_absent P s x sep :
  allChars P s = true -> P x = false -> Index s (String x sep) = None.
Proof.
  intros Hs Hx. induction s as [|c s IH]; [done|].
  rewrite Index_cons, (HasPrefix_absent P) by done.
  simpl in Hs. apply andb_prop in Hs as [_ Hs]. by rewrite IH.
Qed.

Lemma LastIndex_absent P s x sep :
  allChars P s = true -> P x = false -> LastIndex s (String x sep) = None.
Proof.
  intros Hs Hx. induction s as [|c s IH]; [done|].
  cbn [LastIndex]. rewrite (HasPrefix_absent P) by done.
  simpl in Hs. apply andb_prop in Hs as [_ Hs]. by rewrite IH.
Qed.

Lemma Index_first P a x r :
  allChars P a = true -> P x = false ->
  Index (a +:+ String x r) (String x "") = Some (String.length a).
Proof.
  intros Ha Hx. induction a as [|c a IH].
  - rewrite append_nil_l, Index_cons. cbn [HasPrefix].
    by rewrite Ascii.eqb_refl, HasPrefix_nil.
  - simpl in Ha. apply andb_prop in Ha as [Hc Ha].
    rewrite append_cons, Index_cons. cbn [HasPrefix].
    by rewrite (eqb_absent P c x), IH.
Qed.

Lemma Count_absent s sep : Index s sep = None -> Count s sep = O.
Proof.
  intros Hnone. unfold Count. destruct (String.length s); cbn [CountFrom]; by rewrite ?Hnone.
Qed.

Lemma rev_last P s :
  allChars P s = true -> s <> "" -> exists c r, rev s = String c r /\ P c = true.
Proof.
  induction s as [|c s IH]; [done|]. simpl. intros [Hc Hs]%andb_prop _.
  destruct s as [|c1 s]; [by exists c, ""|].
  destruct IH as (c' & r & -> & Hc'); [done..|]. rewrite append_cons. eauto.
Qed.

(** What the bytes of a plain link are not. *)
Lemma isPathChar_facts c :
  isPathChar c = true ->
  Ascii.eqb c "%" = false /\ Ascii.eqb c "#" = false /\ Ascii.eqb c "?" = false
  /\ (N_of_ascii c <? 32)%N = false /\ (N_of_ascii c =? 127)%N = false
  /\ asciiSpace c = false /\ (N_of_ascii c < 128)%N.
Proof.
  destruct c as [[] [] [] [] [] [] [] []]; vm_compute; intros; try done;
    repeat split; done.
Qed.

Lemma isHostChar_facts c :
  isHostChar c = true ->
  isPathChar c = true /\ shouldEscapeHost c = false /\ (N_of_ascii c <? 128)%N = true
  /\ Ascii.eqb c "/" = false /\ Ascii.eqb c "@" = false /\ Ascii.eqb c ":" = false
  /\ Ascii.eqb c "[" = false.
Proof.
  destruct c as [[] [] [] [] [] [] [] []]; vm_compute; intros; try done;
    repeat split; done.
Qed.

Lemma spaceRuneLen_ascii c s :
  (N_of_ascii c < 128)%N -> asciiSpace c = false -> spaceRuneLen (String c s) = O.
Proof.
  intros Hc Hspace. unfold spaceRuneLen. rewrite Hspace.
  destruct s as [|c1 [|c2 s]]; [done|..]; cbv zeta.
  - destruct (N.eqb_spec (N_of_ascii c) 194); [lia|done].
  - destruct (N.eqb_spec (N_of_ascii c) 194); [lia|]. simpl.
    destruct (N.eqb_spec (N_of_ascii c) 225); [lia|].
    destruct (N.eqb_spec (N_of_ascii c) 226); [lia|].
    destruct (N.eqb_spec (N_of_ascii c) 227); [lia|]. done.
Qed.

Lemma spaceRuneLenRev_ascii c r :
  (N_of_ascii c < 128)%N -> asciiSpace c = false -> spaceRuneLenRev (String c r) = O.
Proof.
  intros Hc Hspace. unfold spaceRuneLenRev. rewrite Hspace.
  destruct r as [|c1 r]; [done|].
  destruct (Nat.eqb_spec (spaceRuneLen (String c1 (String c ""))) 2) as [H2|_].
  { apply spaceRuneLen_2_last in H2. lia. }
  destruct r as [|c2 r]; [done|].
  destruct (Nat.eqb_spec (spaceRuneLen (String c2 (String c1 (String c "")))) 3) as [H3|_];
    [|done].
  apply spaceRuneLen_3_last in H3. lia.
Qed.

(** [TrimSpace] leaves a text of the bytes of a plain link as it is. *)
Lemma TrimSpace_plain s : allChars isPathChar s = true -> TrimSpace s = s.
Proof.
  intros Hs. destruct s as [|c t]; [done|].
  destruct (rev_last isPathChar (String c t) Hs) as (c' & r & Hrev & Hc'); [done|].
  simpl in Hs. apply andb_prop in Hs as [Hc _].
  apply isPathChar_facts in Hc as (_ & _ & _ & _ & _ & Hspace & Hcode).
  apply isPathChar_facts in Hc' as (_ & _ & _ & _ & _ & Hspace' & Hcode').
  unfold TrimSpace.
  assert (Hleft : forall fuel, trimLeftSpace fuel (String c t) = String c t).
  { intros [|fuel]; [done|]. cbn [trimLeftSpace]. by rewrite spaceRuneLen_ascii. }
  rewrite Hleft, Hrev.
  assert (Hright : forall fuel, trimRightSpaceRev fuel (String c' r) = String c' r).
  { intros [|fuel]; [done|]. cbn [trimRightSpaceRev]. by rewrite spaceRuneLenRev_ascii. }
  rewrite Hright, <- Hrev. apply rev_involutive.
Qed.

Lemma stringContainsCTLByte_plain s :
  allChars isPathChar s = true -> stringContainsCTLByte s = false.
Proof.
  induction s as [|c s IH]; [done|]. simpl. intros [Hc Hs]%andb_prop.
  apply isPathChar_facts in Hc as (_ & _ & _ & -> & -> & _). by rewrite IH.
Qed.

Lemma unescape_host s : allChars isHostChar s = true -> unescape s encodeHost = Some s.
Proof.
  induction s as [|c s IH]; [done|]. simpl. intros [Hc Hs]%andb_prop.
  apply isHostChar_facts in Hc as (Hpath & -> & -> & _).
  apply isPathChar_facts in Hpath as (-> & _). simpl. by rewrite IH.
Qed.

Lemma unescape_path s : allChars isPathChar s = true -> unescape s encodePath = Some s.
Proof.
  induction s as [|c s IH]; [done|]. simpl. intros [Hc Hs]%andb_prop.
  apply isPathChar_facts in Hc as (-> & _). simpl. by rewrite IH.
Qed.

Lemma allChars_label l : allLabelChars l = true -> allChars isHostChar l = true.
Proof.
  induction l as [|c l IH]; [done|]. simpl. intros [Hc Hl]%andb_prop.
  rewrite IH by done. unfold isHostChar. by rewrite Hc.
Qed.

Lemma allChars_bareDomain labels :
  Forall isLabel labels -> allChars isHostChar (bareDomain labels) = true.
Proof.
  induction 1 as [|l labels [_ Hl] _ IH]; [done|]. unfold bareDomain in *.
  destruct labels as [|l2 labels]; [by apply allChars_label|].
  rewrite concat_cons_cons, !allChars_append, IH, allChars_label by done. done.
Qed.

Lemma isHostChar_isPathChar s : allChars isHostChar s = true -> allChars isPathChar s = true.
Proof. apply allChars_impl. intros c Hc. by apply isHostChar_facts in Hc as (-> & _). Qed.

Lemma isHostChar_not (x : ascii) :
  x = "/"%char \/ x = "@"%char \/ x = ":"%char \/ x = "["%char -> isHostChar x = false.
Proof. intros [->|[->|[->| ->]]]; reflexivity. Qed.

(** The authority and the path of a plain link. *)
Lemma authority_plain host path :
  allChars isHostChar host = true -> isPlainPath path ->
  match Index (host +:+ path) "/" with
  | Some i => (take i (host +:+ path), drop i (host +:+ path))
  | None => (host +:+ path, "")
  end = (host, path).
Proof.
  intros Hhost [Hpath [->|Hslash]].
  - rewrite append_nil_r, (Index_absent isHostChar) by done. done.
  - destruct path as [|c path]; [done|]. simpl in Hslash.
    apply andb_prop in Hslash as [->%Ascii.eqb_eq _].
    rewrite (Index_first isHostChar) by done. by rewrite take_append, drop_append.
Qed.

Lemma parseAuthority_plain host :
  allChars isHostChar host = true -> parseAuthority host = Some (None, host).
Proof.
  intros Hhost. unfold parseAuthority, parseHost.
  rewrite (LastIndex_absent isHostChar host "@"), (HasPrefix_absent isHostChar host "["),
    (LastIndex_absent isHostChar host ":"), unescape_host by done.
  done.
Qed.

Lemma parse_rest scheme host path :
  scheme <> "" -> ToLower scheme = scheme ->
  allChars isHostChar host = true -> isPlainPath path ->
  (let scheme := ToLower scheme in
   let rest := "//" +:+ host +:+ path in
   let '(rest, rawQuery) :=
     if HasSuffix rest "?" && (Count rest "?" =? 1)%nat
     then (take (String.length rest - 1) rest, "")
     else let '(before, after, _) := Cut rest "?" in (before, after) in
   if negb (HasPrefix rest "/") && negb (String.eqb scheme "") then
     Some (mkURL scheme rest None "" "" rawQuery "")
   else if negb (HasPrefix rest "/")
           && (let '(segment, _, _) := Cut rest "/" in Contains segment ":") then
     None
   else
     '(user, host, rest) ←
       (if (negb (String.eqb scheme "") || negb (HasPrefix rest "///"))
           && HasPrefix rest "//"
        then
          let authority := drop 2 rest in
          let '(authority, rest) :=
            match Index authority "/" with
            | Some i => (take i authority, drop i authority)
            | None => (authority, "")
            end in
          '(user, host) ← parseAuthority authority;
          Some (user, host, rest)
        else Some (None, "", rest));
     path ← unescape rest encodePath;
     Some (mkURL scheme "" user host path rawQuery ""))
  = Some (mkURL scheme "" None host path "" "").
Proof.
  intros Hscheme Hlower Hhost [Hpath Hslash]. cbv zeta. rewrite Hlower.
  assert (Hrest : allChars isPathChar ("//" +:+ host +:+ path) = true).
  { rewrite !allChars_append, (isHostChar_isPathChar host), Hpath by done. done. }
  assert (Hquery : Index ("//" +:+ host +:+ path) "?" = None)
    by (by apply (Index_absent isPathChar)).
  rewrite (Count_absent _ _ Hquery). change (0 =? 1)%nat with false. rewrite andb_false_r.
  unfold Cut at 1. rewrite Hquery.
  assert (HasPrefix ("//" +:+ host +:+ path) "/" = true) as ->
    by (rewrite !append_cons; cbn [HasPrefix]; by rewrite ?HasPrefix_nil).
  assert (HasPrefix ("//" +:+ host +:+ path) "//" = true) as ->
    by (rewrite !append_cons, append_nil_l; cbn [HasPrefix]; by rewrite ?HasPrefix_nil).
  assert (String.eqb scheme "" = false) as -> by (by destruct scheme).
  cbn [negb andb orb]. change (drop 2 ("//" +:+ host +:+ path)) with (host +:+ path).
  rewrite authority_plain by done. rewrite parseAuthority_plain by done.
  cbn [mbind option_bind]. rewrite unescape_path by done. done.
Qed.

Lemma parse_plain scheme host path :
  scheme = "http" \/ scheme = "https" ->
  allChars isHostChar host = true -> isPlainPath path ->
  parse (scheme +:+ "://" +:+ host +:+ path) = Some (mkURL scheme "" None host path "" "").
Proof.
  intros Hscheme Hhost Hpath.
  assert (Hurl : allChars isPathChar (scheme +:+ "://" +:+ host +:+ path) = true).
  { rewrite !allChars_append, (isHostChar_isPathChar host), (proj1 Hpath) by done.
    by destruct Hscheme as [-> | ->]. }
  unfold parse. rewrite stringContainsCTLByte_plain by done.
  assert (String.eqb (scheme +:+ "://" +:+ host +:+ path) "*" = false) as ->
    by (by destruct Hscheme as [-> | ->]).
  assert (getScheme (scheme +:+ "://" +:+ host +:+ path)
          = Some (scheme, "//" +:+ host +:+ path)) as ->
    by (by destruct Hscheme as [-> | ->]).
  apply (parse_rest scheme host path); [| |done..]; by destruct Hscheme as [-> | ->].
Qed.

Lemma Parse_plain scheme host path :
  scheme = "http" \/ scheme = "https" ->
  allChars isHostChar host = true -> isPlainPath path ->
  Parse (scheme +:+ "://" +:+ host +:+ path) = Some (mkURL scheme "" None host path "" "").
Proof.
  intros Hscheme Hhost Hpath.
  assert (Hurl : allChars isPathChar (scheme +:+ "://" +:+ host +:+ path) = true).
  { rewrite !allChars_append, (isHostChar_isPathChar host), (proj1 Hpath) by done.
    by destruct Hscheme as [-> | ->]. }
  unfold Parse, Cut. rewrite (Index_absent isPathChar _ "#" "") by done.
  cbv beta iota. by rewrite parse_plain.
Qed.

End LinkFacts.

Section LinkDomains.

Import GoStrings GoRegexp StringFacts.

Lemma host_domain (www : bool) labels :
  (2 <= length labels)%nat -> Forall isLabel labels ->
  (www = false -> HasPrefix (bareDomain labels) "www." = false) ->
  let host := if www then "www." +:+ bareDomain labels else bareDomain labels in
  FindString re_domain
    (if MatchString re_www host then ReplaceAllString re_www host "" else host)
  = bareDomain labels.
Proof.
  intros Hlen Hlabels Hwww host. subst host. rewrite MatchString_www.
  destruct www.
  - change (HasPrefix ("www." +:+ bareDomain labels) "www.")
      with (HasPrefix (bareDomain labels) "").
    rewrite HasPrefix_nil, ReplaceAllString_www. by apply FindString_bareDomain.
  - rewrite Hwww by done. by apply FindString_bareDomain.
Qed.

Lemma getURLDomain_www_stripped labels :
  (2 <= length labels)%nat -> Forall isLabel labels ->
  getURLDomain ("www." +:+ bareDomain labels) = Returns (bareDomain labels).
Proof.
  intros Hlen Hlabels. unfold getURLDomain.
  rewrite TrimSpace_plain.
  2:{ apply isHostChar_isPathChar. rewrite allChars_append.
      by rewrite allChars_bareDomain. }
  rewrite MatchString_scheme.
  change (HasPrefix ("www." +:+ bareDomain labels) "http") with false.
  cbn [mbind Outcome_bind].
  by rewrite (host_domain true).
Qed.

Lemma getURLDomain_plain_link scheme (www : bool) labels path :
  scheme = "http" \/ scheme = "https" ->
  (2 <= length labels)%nat -> Forall isLabel labels ->
  (www = false -> HasPrefix (bareDomain labels) "www." = false) ->
  isPlainPath path ->
  getURLDomain (scheme +:+ "://"
                +:+ (if www then "www." +:+ bareDomain labels else bareDomain labels)
                +:+ path)
  = Returns (bareDomain labels).
Proof.
  intros Hscheme Hlen Hlabels Hwww Hpath. unfold getURLDomain.
  set (host := if www then "www." +:+ bareDomain labels else bareDomain labels).
  assert (Hhost : allChars isHostChar host = true).
  { subst host. destruct www; [rewrite allChars_append|]; by rewrite allChars_bareDomain. }
  rewrite TrimSpace_plain.
  2:{ rewrite !allChars_append, (isHostChar_isPathChar host), (proj1 Hpath) by done.
      by destruct Hscheme as [-> | ->]. }
  rewrite MatchString_scheme.
  assert (HasPrefix (scheme +:+ "://" +:+ host +:+ path) "http" = true) as ->
    by (by destruct Hscheme as [-> | ->]).
  rewrite Parse_plain by done. cbn [mbind Outcome_bind GoURL.Host].
  f_equal. exact (host_domain www labels Hlen Hlabels Hwww).
Qed.

End LinkDomains.

(** X19: a bare domain of two or more labels that is written after
    [www.] is returned without that prefix, which is removed once. *)
Theorem getURLDomain_www_prefix (labels : list string) :
  (2 <= length labels)%nat -> Forall isLabel labels ->
  getURLDomain ("www." +:+ bareDomain labels) = Returns (bareDomain labels).
Proof. apply getURLDomain_www_stripped. Qed.

Lemma getURLDomain_www_prefix_witness :
  getURLDomain ("www." +:+ bareDomain ["www"; "example"; "com"])
  = Returns (bareDomain ["www"; "example"; "com"]).
Proof.
  apply (getURLDomain_www_prefix ["www"; "example"; "com"]).
  - simpl. lia.
  - repeat constructor; discriminate.
Defined.

(** X20: of a plain link, which is [http://] or [https://], a host of
    two or more labels of lowercase letters, digits and hyphens, and
    then nothing or a path that begins with a slash and holds printable
    ASCII bytes other than the space, [%], [#] and [?], the domain is the
    host, without a leading [www.] when the link has one. *)
Theorem getURLDomain_link (scheme : string) (www : bool) (labels : list string)
        (path : string) :
  scheme = "http" \/ scheme = "https" ->
  (2 <= length labels)%nat -> Forall isLabel labels ->
  (www = false -> GoStrings.HasPrefix (bareDomain labels) "www." = false) ->
  isPlainPath path ->
  getURLDomain (scheme +:+ "://"
                +:+ (if www then "www." +:+ bareDomain labels else bareDomain labels)
                +:+ path)
  = Returns (bareDomain labels).
Proof. apply getURLDomain_plain_link. Qed.

Lemma getURLDomain_link_witness :
  getURLDomain ("https" +:+ "://" +:+ ("www." +:+ bareDomain ["blog"; "example"; "com"])
                +:+ "/2025/01/Hello_World.html")
  = Returns (bareDomain ["blog"; "example"; "com"]).
Proof.
  apply (getURLDomain_link "https" true ["blog"; "example"; "com"]
           "/2025/01/Hello_World.html").
  - by right.
  - simpl. lia.
  - repeat constructor; discriminate.
  - discriminate.
  - split; [vm_compute; reflexivity|right; reflexivity].
Defined.

(** ** The date of a line *)

Section DateFacts.

Import GoTime GoStrconv.

Lemma Z_range_forallb (f : Z -> bool) (n : nat) :
  forallb f (map Z.of_nat (seq 0 n)) = true ->
  forall z, 0 <= z < Z.of_nat n -> f z = true.
Proof.
  intros Hall z Hz. rewrite forallb_forall in Hall. apply Hall.
  apply in_map_iff. exists (Z.to_nat z). split; [lia|]. apply in_seq. lia.
Qed.

Lemma appendInt_fourDigits y : 0 <= y < 10000 -> appendInt y 4 = fourDigits y.
Proof.
  intros Hy.
  apply (Z_range_forallb (fun y => String.eqb (appendInt y 4) (fourDigits y))
           (Z.to_nat 10000)) in Hy;
    [by apply String.eqb_eq|].
  vm_compute. reflexivity.
Qed.

Lemma appendInt_twoDigits n : 0 <= n < 100 -> appendInt n 2 = twoDigits n.
Proof.
  intros Hn.
  apply (Z_range_forallb (fun n => String.eqb (appendInt n 2) (twoDigits n)) 100) in Hn;
    [by apply String.eqb_eq|].
  vm_compute. reflexivity.
Qed.

(** [monthDay] reads the year only through [isLeap]. *)
Lemma monthDay_leap year yday :
  monthDay year yday = monthDay (if isLeap year then 2000 else 2001) yday.
Proof. unfold monthDay. by destruct (isLeap year). Qed.

Lemma monthDay_spec year yday :
  0 <= yday < (if isLeap year then 366 else 365) ->
  exists m d,
    monthDay year yday = (m, d)
    /\ 1 <= m <= 12 /\ 1 <= d <= daysInMonth (isLeap year) m
    /\ daysBeforeMonth (isLeap year) m + (d - 1) = yday.
Proof.
  intros Hyday. rewrite monthDay_leap.
  assert (monthDayOk (isLeap year) yday = true) as Hok.
  { destruct (isLeap year).
    - apply (Z_range_forallb (monthDayOk true) 366); [vm_compute; reflexivity|lia].
    - apply (Z_range_forallb (monthDayOk false) 365); [vm_compute; reflexivity|lia]. }
  unfold monthDayOk in Hok.
  destruct (monthDay (if isLeap year then 2000 else 2001) yday) as [m d].
  exists m, d. split; [done|].
  rewrite !andb_true_iff, !Z.leb_le, Z.eqb_eq in Hok. lia.
Qed.

Lemma isLeap_isLeapYear y : isLeap y = isLeapYear y.
Proof.
  assert (forall n, 0 < n -> (Z.rem y n =? 0) = (y mod n =? 0)) as Hrem.
  { intros n Hn. destruct (Z.eqb_spec (Z.rem y n) 0) as [H0|H0]; symmetry.
    - apply Z.eqb_eq. apply Z.rem_divide in H0; [|lia]. apply Z.mod_divide; [lia|done].
    - apply Z.eqb_neq. intros Hmod. apply H0. apply Z.rem_divide; [lia|].
      apply Z.mod_divide; [lia|done]. }
  unfold isLeap, isLeapYear. by rewrite !Hrem by lia.
Qed.

Lemma yearLength y :
  daysToYear (y + 1) - daysToYear y = if isLeapYear y then 366 else 365.
Proof.
  unfold daysToYear, leapYearsThrough, isLeapYear.
  replace (y + 1 - 1) with y by lia.
  pose proof (Z.div_mod y 4 ltac:(lia)). pose proof (Z.mod_pos_bound y 4 ltac:(lia)).
  pose proof (Z.div_mod y 100 ltac:(lia)). pose proof (Z.mod_pos_bound y 100 ltac:(lia)).
  pose proof (Z.div_mod y 400 ltac:(lia)). pose proof (Z.mod_pos_bound y 400 ltac:(lia)).
  pose proof (Z.div_mod (y - 1) 4 ltac:(lia)).
  pose proof (Z.mod_pos_bound (y - 1) 4 ltac:(lia)).
  pose proof (Z.div_mod (y - 1) 100 ltac:(lia)).
  pose proof (Z.mod_pos_bound (y - 1) 100 ltac:(lia)).
  pose proof (Z.div_mod (y - 1) 400 ltac:(lia)).
  pose proof (Z.mod_pos_bound (y - 1) 400 ltac:(lia)).
  destruct (Z.eqb_spec (y mod 4) 0), (Z.eqb_spec (y mod 100) 0),
    (Z.eqb_spec (y mod 400) 0); simpl; lia.
Qed.

(** [Format] of a time in UTC writes the civil date of its day. *)
Lemma Format_civil t :
  zoneOffset t = 0 ->
  daysToYear 0 <= unixDay t < daysToYear 10000 ->
  exists y m d,
    isCivilDate (unixDay t) y m d /\ 0 <= y < 10000
    /\ Format_2006_01_02 t = isoDate y m d.
Proof.
  intros Hzone Hdays.
  assert (Hrange : inCalendarRange t).
  { unfold inCalendarRange. rewrite absEpoch_seconds.
    unfold unixDay, daysToYear, leapYearsThrough, absEpochDay, secondsPerDay in *.
    change (365 * (0 - 1970) + ((0 - 1) / 4 - (0 - 1) / 100 + (0 - 1) / 400)
            - (1969 / 4 - 1969 / 100 + 1969 / 400)) with (-719528) in Hdays.
    change (365 * (10000 - 1970)
            + ((10000 - 1) / 4 - (10000 - 1) / 100 + (10000 - 1) / 400)
            - (1969 / 4 - 1969 / 100 + 1969 / 400)) with 2932897 in Hdays.
    pose proof (Z.div_mod (unixSec t) 86400 ltac:(lia)).
    pose proof (Z.mod_pos_bound (unixSec t) 86400 ltac:(lia)). lia. }
  destruct (abs_UTC t Hzone Hrange) as (Habs & Hlo & _).
  assert (HD : abs t / secondsPerDay = unixDay t + absEpochDay).
  { rewrite Habs. unfold unixDay, secondsPerDay. apply Z.div_add. lia. }
  destruct (absYearDay_spec (abs t)) as (y0 & yday & Hyd & Hy0 & Hsum & Hyday);
    [unfold secondsPerDay in *; lia|].
  set (year := y0 + absoluteZeroYear) in *.
  pose proof (daysToYear_abs y0) as Hyear. fold year in Hyear.
  pose proof (daysToYear_abs (y0 + 1)) as Hnext.
  replace (y0 + 1 + absoluteZeroYear) with (year + 1) in Hnext by (unfold year; lia).
  assert (Hday : unixDay t = daysToYear year + yday) by lia.
  assert (Hlen : 0 <= yday < daysToYear (year + 1) - daysToYear year) by lia.
  assert (Hy : 0 <= year < 10000).
  { split.
    - destruct (Z.le_gt_cases 0 year) as [|Hneg]; [done|].
      pose proof (daysToYear_mono (year + 1) 0 ltac:(lia)). lia.
    - destruct (Z.lt_ge_cases year 10000) as [|Hbig]; [done|].
      pose proof (daysToYear_mono 10000 year ltac:(lia)). lia. }
  rewrite yearLength, <- isLeap_isLeapYear in Hlen.
  destruct (monthDay_spec year yday Hlen) as (m & d & Hmd & Hm & Hd & Hbefore).
  exists year, m, d. split; [|split; [done|]].
  - unfold isCivilDate. rewrite <- isLeap_isLeapYear. split; [done|]. split; [done|]. lia.
  - unfold Format_2006_01_02, absDate. rewrite Hyd, Hmd. unfold isoDate.
    rewrite appendInt_fourDigits, !appendInt_twoDigits; [done|..].
    + assert (daysInMonth (isLeap year) m <= 31)
        by (unfold daysInMonth; repeat case_match; lia). lia.
    + lia.
    + done.
Qed.

End DateFacts.

(** X21: the date a line shows is the calendar date, in UTC, of the
    publish time of the item the article was made of, whatever the zone
    of that time: for a date of the years 0 to 9999, the line begins with
    the year in four digits, the month and the day in two, and goes on
    with the domain, the title and the link. *)
Theorem articleLine_date (item : Item) (article : Article) (t : GoTime.Time) :
  articleOf item article ->
  PublishedParsed item = Some t ->
  daysToYear 0 <= unixDay t < daysToYear 10000 ->
  exists y m d,
    isCivilDate (unixDay t) y m d
    /\ articleLine article
       = "- " +:+ isoDate y m d +:+ " @ " +:+ URLDomain article
         +:+ ": [" +:+ ItemTitle item +:+ "](" +:+ Link item +:+ ")" +:+ newline.
Proof.
  intros (t' & domain & Hdate & _ & ->) Ht Hdays.
  assert (t' = t) as -> by congruence.
  destruct (Format_civil (GoTime.UTC t)) as (y & m & d & Hcivil & _ & Hformat); [done..|].
  exists y, m, d. split; [done|]. unfold articleLine. cbn [PublishAt Title URL URLDomain].
  by rewrite Hformat.
Qed.

Lemma articleLine_date_witness :
  exists y m d,
    isCivilDate (unixDay (GoTime.mkTime 1735812000 0 0)) y m d
    /\ articleLine articleA
       = "- " +:+ isoDate y m d +:+ " @ " +:+ URLDomain articleA
         +:+ ": [" +:+ ItemTitle itemA +:+ "](" +:+ Link itemA +:+ ")" +:+ newline.
Proof.
  apply (articleLine_date itemA articleA (GoTime.mkTime 1735812000 0 0)).
  - exists (GoTime.mkTime 1735812000 0 0), "xample.com".
    split; [reflexivity|split].
    + vm_compute. reflexivity.
    + reflexivity.
  - reflexivity.
  - vm_compute. split; [discriminate|reflexivity].
Defined.

(** ** Every fetched article is listed once *)

Lemma filter_disjoint_app {A : Type} (P Q : A -> Prop)
      `{!forall a, Decision (P a)} `{!forall a, Decision (Q a)} (l : list A) :
  (forall a, P a -> Q a -> False) ->
  Permutation (filter P l ++ filter Q l) (filter (fun a => P a \/ Q a) l).
Proof.
  intros Hdisjoint. induction l as [|a l IH]; [done|].
  destruct (decide (P a)) as [HP|HP], (decide (Q a)) as [HQ|HQ].
  - by destruct (Hdisjoint a).
  - rewrite (filter_cons_True P), (filter_cons_False Q), (filter_cons_True (fun a => _ \/ _))
      by tauto. simpl. by rewrite IH.
  - rewrite (filter_cons_False P), (filter_cons_True Q), (filter_cons_True (fun a => _ \/ _))
      by tauto. rewrite <- Permutation_middle. by rewrite IH.
  - rewrite (filter_cons_False P), (filter_cons_False Q),
      (filter_cons_False (fun a => _ \/ _)) by tauto. done.
Qed.

Lemma articlesOfWeeks_Permutation (articles : list Article) (weeks : list string) :
  NoDup weeks ->
  Permutation (concat (map (fun week => articlesOfWeek week articles) weeks))
              (filter (fun a => weekID a ∈ weeks) articles).
Proof.
  induction 1 as [|week weeks Hnotin _ IH].
  - simpl. induction articles as [|a articles IHa]; [done|].
    rewrite filter_cons_False; [done|]. apply not_elem_of_nil.
  - cbn [map concat]. rewrite IH. unfold articlesOfWeek.
    rewrite filter_disjoint_app by (intros a <- Hin; done).
    clear IH. induction articles as [|a articles IHa]; [done|].
    destruct (decide (weekID a ∈ week :: weeks)) as [Hin|Hout].
    + rewrite (filter_cons_True (fun a => weekID a ∈ week :: weeks)) by done.
      rewrite filter_cons_True; [by rewrite IHa|].
      apply elem_of_cons in Hin as [->|?]; [by left|by right].
    + rewrite (filter_cons_False (fun a => weekID a ∈ week :: weeks)) by done.
      rewrite filter_cons_False; [done|].
      intros [<-|?]; apply Hout; [by left|by right].
Qed.

Lemma articlesOfWeeks_all (articles : list Article) (weeks : list string) :
  NoDup weeks -> (forall a, a ∈ articles -> weekID a ∈ weeks) ->
  Permutation (concat (map (fun week => articlesOfWeek week articles) weeks)) articles.
Proof.
  intros Hnodup Hall. rewrite articlesOfWeeks_Permutation by done.
  clear Hnodup. induction articles as [|a articles IH]; [done|].
  rewrite filter_cons_True by (apply Hall; left).
  rewrite IH; [done|]. intros a' Ha'. apply Hall. by right.
Qed.

Lemma sections_listed (articles : list Article) (weeks sections : list string) :
  Forall2 (weekSectionOf articles) weeks sections ->
  exists listed,
    sections = zip_with weekSection weeks listed
    /\ Forall2 (fun week l => sortedBucket (articlesOfWeek week articles) l) weeks listed.
Proof.
  induction 1 as [|week section weeks sections (l & Hl & ->) _ (listed & -> & Hlisted)].
  - by exists [].
  - exists (l :: listed). split; [done|by constructor].
Qed.

Section ListingFacts.

Context {sorter : GoSlices.Sorter}.

(** X23: a run that completes lists every fetched article exactly once:
    the sections of the document, one for every week key in descending
    byte order, are made of lists of articles that are each in ascending
    order of whole seconds and that together are a rearrangement of the
    fetched articles. *)
Theorem main_lists_every_article (env : Env) (p : Process)
        (data template part0 part1 part2 : string) (config : Config) :
  files p !! "config.yaml" = Some data ->
  yaml_Unmarshal env data = Ok config ->
  feedsAnswer env (Feeds config) ->
  files p !! Template config = Some template ->
  GoStrings.SplitN template "---" 3 = [part0; part1; part2] ->
  os_WriteFile_error env (Output config) = None ->
  let articles := fetchedArticles env (Feeds config) in
  let weeks := GoSlices.Reverse (GoSort.Strings (firstSeen (map weekID articles))) in
  exists listed,
    length listed = length weeks
    /\ Permutation (concat listed) articles
    /\ Forall (StronglySorted unixAscending) listed
    /\ files (main env p).2 !! Output config
       = Some (document (GoStrings.TrimSpace part0) (zip_with weekSection weeks listed)
                        (GoStrings.TrimSpace part2)).
Proof.
  intros Hconfig Hyaml Hfeeds Hfile Hparts Hwrite articles weeks.
  destruct (main_completes env p data template part0 part1 part2 config)
    as (sections & Hsections & _ & Hfiles & _); [done..|].
  fold articles weeks in Hsections.
  apply sections_listed in Hsections as (listed & -> & Hlisted).
  exists listed. split; [|split; [|split]].
  - symmetry. by eapply Forall2_length.
  - rewrite <- (articlesOfWeeks_all articles weeks).
    + clear Hfiles. induction Hlisted as [|week l weeks' listed [Hperm _] _ IH]; [done|].
      cbn [map concat]. by rewrite Hperm, IH.
    + subst weeks. unfold GoSlices.Reverse.
      rewrite <- (Permutation_rev _), (Strings_Permutation _). apply NoDup_firstSeen.
    + intros a Ha. subst weeks. unfold GoSlices.Reverse.
      rewrite <- (Permutation_rev _), (Strings_Permutation _).
      apply elem_of_firstSeen, list_elem_of_fmap. eauto.
  - clear Hfiles. induction Hlisted as [|week l weeks' listed [_ Hsorted] _ IH];
      constructor; done.
  - rewrite Hfiles. apply lookup_insert_eq.
Qed.

End ListingFacts.

Lemma main_lists_every_article_witness :
  let articles := fetchedArticles exampleEnv [exampleFeed] in
  let weeks := GoSlices.Reverse (GoSort.Strings (firstSeen (map weekID articles))) in
  exists listed,
    length listed = length weeks
    /\ Permutation (concat listed) articles
    /\ Forall (StronglySorted unixAscending) listed
    /\ files (main (sorter := insertionSorter) exampleEnv (mkProcess [] exampleFiles)).2
       !! "news.md"
       = Some (document (GoStrings.TrimSpace "# News") (zip_with weekSection weeks listed)
                        (GoStrings.TrimSpace "bye")).
Proof.
  apply (main_lists_every_article (sorter := insertionSorter) exampleEnv
           (mkProcess [] exampleFiles) "template: template.md" "# News---body---bye"
           "# News" "body" "bye" exampleConfig).
  - vm_compute. reflexivity.
  - reflexivity.
  - apply exampleFeed_answers. reflexivity.
  - vm_compute. reflexivity.
  - vm_compute. reflexivity.
  - reflexivity.
Defined.

(** ** A second run *)

Lemma fetchFeeds_frame env g feeds p q :
  (fetchFeeds env g feeds p).1 = (fetchFeeds env g feeds q).1.
Proof.
  revert g p q. induction feeds as [|feedURL feeds IH]; intros g p q; [done|].
  cbn [fetchFeeds]. unfold bind.
  destruct (fetchArticles_outcome env feedURL) as [[fetched Hfetched]|Hnil].
  - destruct (fetchFeed_Returns env g feedURL fetched p Hfetched) as [line ->].
    destruct (fetchFeed_Returns env g feedURL fetched q Hfetched) as [line' ->].
    apply IH.
  - by rewrite !(fetchFeed_Panics env g feedURL _ _ Hnil).
Qed.

Section RerunFacts.

Context {sorter : GoSlices.Sorter}.

Lemma generateMarkdown_frame templateFile m weeks p q :
  files p !! templateFile = files q !! templateFile ->
  (generateMarkdown templateFile m weeks p).1 = (generateMarkdown templateFile m weeks q).1.
Proof.
  intros Hfile. unfold generateMarkdown, bind, os_ReadFile, ret, log_Fatalf.
  rewrite Hfile. destruct (files q !! templateFile) as [template|]; [|done].
  cbn [fst snd]. destruct (GoStrings.SplitN template "---" 3) as [|? [|? [|? [|]]]]; try done.
  by destruct (fold_left renderWeek weeks _).
Qed.

(** Two runs that read the same configuration and the same template end
    alike and write alike. *)
Lemma main_effect env p q :
  files q !! "config.yaml" = files p !! "config.yaml" ->
  (forall data config,
     files p !! "config.yaml" = Some data -> yaml_Unmarshal env data = Ok config ->
     files q !! Template config = files p !! Template config) ->
  exists w,
    (main env q).1 = (main env p).1
    /\ files (main env p).2 = written w (files p)
    /\ files (main env q).2 = written w (files q)
    /\ forall name text,
         w = Some (name, text) ->
         exists data config,
           files p !! "config.yaml" = Some data /\ yaml_Unmarshal env data = Ok config
           /\ name = Output config.
Proof.
  intros Hconfig Htemplate.
  destruct (files p !! "config.yaml") as [data|] eqn:Hp.
  2:{ destruct (main_unconfigured env p) as [line ->]; [by left|].
      destruct (main_unconfigured env q) as [line' ->]; [by left|].
      by exists None. }
  destruct (yaml_Unmarshal env data) as [config|err] eqn:Hyaml.
  2:{ destruct (main_unconfigured env p) as [line ->]; [right; eauto|].
      destruct (main_unconfigured env q) as [line' ->]; [right; eauto|].
      by exists None. }
  specialize (Htemplate data config eq_refl Hyaml).
  rewrite (main_configured env p data config), (main_configured env q data config) by done.
  match goal with
  | |- context [fetchFeeds env ?g ?feeds (mkProcess (logged p ++ ?l) (files p))] =>
      pose proof (fetchFeeds_frame env g feeds (mkProcess (logged p ++ l) (files p))
                    (mkProcess (logged q ++ l) (files q))) as Hsame;
      pose proof (fetchFeeds_readonly env g feeds (mkProcess (logged p ++ l) (files p)))
        as Hfp;
      pose proof (fetchFeeds_readonly env g feeds (mkProcess (logged q ++ l) (files q)))
        as Hfq;
      destruct (fetchFeeds env g feeds (mkProcess (logged p ++ l) (files p)))
        as [[gp|msgp|codep] p1];
      destruct (fetchFeeds env g feeds (mkProcess (logged q ++ l) (files q)))
        as [[gq|msgq|codeq] q1]
  end; cbn [fst snd files] in *; try discriminate;
    [|exists None; by simplify_eq..].
  injection Hsame as ->.
  assert (Hread : files p1 !! Template config = files q1 !! Template config)
    by (by rewrite Hfp, Hfq).
  match goal with
  | |- context [generateMarkdown ?tf ?m ?weeks (mkProcess (logged p1 ++ ?l) (files p1))] =>
      pose proof (generateMarkdown_frame tf m weeks (mkProcess (logged p1 ++ l) (files p1))
                    (mkProcess (logged q1 ++ l) (files q1)) Hread) as Hsame;
      destruct (generateMarkdown_outcome tf m weeks (mkProcess (logged p1 ++ l) (files p1)))
        as [[rp Hrp]|[linep Hrp]];
      destruct (generateMarkdown_outcome tf m weeks (mkProcess (logged q1 ++ l) (files q1)))
        as [[rq Hrq]|[lineq Hrq]]
  end; rewrite Hrp, Hrq in Hsame; rewrite Hrp, Hrq; cbn [fst snd files] in *;
    try discriminate.
  - injection Hsame as ->.
    destruct (os_WriteFile_error env (Output config)) as [err|]; cbn [fst snd files].
    + exists None. cbn [written]. by rewrite Hfp, Hfq.
    + exists (Some (Output config, rq.1)). cbn [written]. rewrite Hfp, Hfq.
      repeat split; try done. intros name text [= <- _]. eauto.
  - exists None. cbn [written]. by rewrite Hfp, Hfq.
Qed.

(** X24: when the output file is neither [config.yaml] nor the template,
    a second run in the same environment ends as the first one did and
    leaves every file as the first run left it. *)
Theorem main_rerun (env : Env) (p : Process) :
  (forall data config,
     files p !! "config.yaml" = Some data -> yaml_Unmarshal env data = Ok config ->
     Output config <> "config.yaml" /\ Output config <> Template config) ->
  (main env (main env p).2).1 = (main env p).1
  /\ files (main env (main env p).2).2 = files (main env p).2.
Proof.
  intros Hnames.
  destruct (main_effect env p p) as (w & _ & Hfiles & _ & Hw); [done..|].
  assert (Hreads : forall name,
             name = "config.yaml"
             \/ (exists data config,
                   files p !! "config.yaml" = Some data
                   /\ yaml_Unmarshal env data = Ok config /\ name = Template config) ->
             files (main env p).2 !! name = files p !! name).
  { intros name Hname. rewrite Hfiles. destruct w as [[out text]|]; [|done].
    cbn [written]. apply lookup_insert_ne.
    destruct (Hw out text eq_refl) as (data & config & Hdata & Hyaml & ->).
    destruct (Hnames data config Hdata Hyaml) as [Hc Ht].
    destruct Hname as [->|(data' & config' & Hdata' & Hyaml' & ->)]; [done|].
    assert (data' = data) as -> by congruence.
    assert (config' = config) as -> by congruence. done. }
  destruct (main_effect env p (main env p).2) as (w' & Hsame & Hp & Hq & _).
  - apply Hreads. by left.
  - intros data config Hdata Hyaml. apply Hreads. right. eauto.
  - split; [done|]. rewrite Hq, Hp. destruct w' as [[out text]|]; [|done].
    cbn [written]. apply insert_insert_eq.
Qed.

End RerunFacts.

Lemma main_rerun_witness :
  (main (sorter := insertionSorter) exampleEnv
     (main (sorter := insertionSorter) exampleEnv (mkProcess [] exampleFiles)).2).1
  = (main (sorter := insertionSorter) exampleEnv (mkProcess [] exampleFiles)).1
  /\ files (main (sorter := insertionSorter) exampleEnv
              (main (sorter := insertionSorter) exampleEnv (mkProcess [] exampleFiles)).2).2
     = files (main (sorter := insertionSorter) exampleEnv (mkProcess [] exampleFiles)).2.
Proof.
  apply (main_rerun (sorter := insertionSorter) exampleEnv (mkProcess [] exampleFiles)).
  intros data config _ [= <-]. split; discriminate.
Defined.
